(** * JobAutoFlow: match scoring, auto-apply and match-cache maintenance

    A shallow embedding of

    - [backend/src/services/matching.service.ts]
      ([calculateMatchScore], [calculateBasicMatchScore],
      [batchCalculateMatchScores]),
    - the application controller ([autoApply], [getApplicationStats]),
    - the job controller ([toggleFavorite], [hideJob]),
    - the preference controller ([toggleAutoApply]),
    - the error middleware ([errorHandler], [asyncHandler]),

    followed by the properties established about them.

    JavaScript numbers are IEEE-754 binary64 values; they are embedded as
    Rocq's primitive [float], so the arithmetic of the scorer
    ([*], [/], [+=], [Math.round]) is the arithmetic the program performs,
    rounding included.  Integer columns ([Int] in the ORM) are embedded as
    [Z] and converted where the program uses them in floating-point
    arithmetic.  Strings are embedded as [string]; case folding is modelled
    on the ASCII range. *)

From Stdlib Require Import ZArith Bool List String Ascii Floats Lia.
From Stdlib Require Import DecimalString.
From Stdlib Require Import Sorting.Permutation Sorting.Sorted.
Import ListNotations.

Set Warnings "-inexact-float,-register-all".

(* ================================================================== *)
(** * The JavaScript runtime operations the sources rely on *)

Module Js.

(** ** Strings *)

(** [String.prototype.toLowerCase], on the ASCII range. *)
Definition lower_ascii (c : ascii) : ascii :=
  let n := nat_of_ascii c in
  if ((65 <=? n) && (n <=? 90))%nat then ascii_of_nat (n + 32) else c.

Fixpoint toLowerCase (s : string) : string :=
  match s with
  | EmptyString => EmptyString
  | String c s' => String (lower_ascii c) (toLowerCase s')
  end.

(** [s.includes(t)]: [t] occurs in [s] as a contiguous substring. *)
Fixpoint includes (s t : string) : bool :=
  if String.prefix t s then true
  else match s with
       | EmptyString => false
       | String _ s' => includes s' t
       end.

(** Template-literal rendering of a non-negative integer. *)
Definition string_of_nat (n : nat) : string :=
  NilEmpty.string_of_uint (Nat.to_uint n).

(** ** Numbers *)

(** An integer as a JavaScript number (exact below [2^53]). *)
Definition Z2float (z : Z) : float :=
  match z with
  | Z0 => PrimFloat.zero
  | Zpos _ => PrimFloat.of_uint63 (Uint63.of_Z z)
  | Zneg p => PrimFloat.opp (PrimFloat.of_uint63 (Uint63.of_Z (Zpos p)))
  end.

(** [Math.round]: the integral number closest to [x], ties towards
    [+Infinity]; [NaN], the infinities and the zeros are returned as they
    are, and a negative argument that rounds to zero gives [-0]. *)
Definition Math_round (x : float) : float :=
  match Prim2SF x with
  | S754_finite s m e =>
      if (0 <=? e)%Z then x
      else
        let sm := if s then Zneg m else Zpos m in
        let n := ((2 * sm + 2 ^ (- e)) / 2 ^ (1 - e))%Z in
        if (n =? 0)%Z
        then (if s then PrimFloat.neg_zero else PrimFloat.zero)
        else Z2float n
  | _ => x
  end.

(** ** Truthiness of nullable columns *)

(** A nullable number is truthy when present and non-zero. *)
Definition truthy_num (o : option Z) : bool :=
  match o with
  | Some n => negb (n =? 0)%Z
  | None => false
  end.

(** A nullable string is truthy when present and non-empty. *)
Definition truthy_str (o : option string) : bool :=
  match o with
  | Some s => negb (s =? "")%string
  | None => false
  end.

(** [xs?.length] used as a condition: present and non-empty. *)
Definition truthy_len {A} (o : option (list A)) : bool :=
  match o with
  | Some (_ :: _) => true
  | _ => false
  end.

(** ** Values of type [any], as [JSON.parse] produces them *)

Inductive value : Type :=
| VUndefined
| VNull
| VBool (b : bool)
| VNum (x : float)
| VStr (s : string)
| VArr (xs : list value)
| VObj (fields : list (string * value)).

(** Errors a [try] block can catch. *)
Inductive exn : Type :=
| TypeError (msg : string)
| SyntaxError (msg : string)
| Error (msg : string)
| Rejected (msg : string).

(** [ToBoolean]. *)
Definition truthy (v : value) : bool :=
  match v with
  | VUndefined | VNull => false
  | VBool b => b
  | VNum x =>
      match Prim2SF x with
      | S754_zero _ | S754_nan => false
      | _ => true
      end
  | VStr s => negb (s =? "")%string
  | VArr _ | VObj _ => true
  end.

(** [a || b]. *)
Definition or_else (a b : value) : value :=
  if truthy a then a else b.

Fixpoint lookup (k : string) (fields : list (string * value)) : value :=
  match fields with
  | [] => VUndefined
  | (k', v) :: rest => if (k =? k')%string then v else lookup k rest
  end.

(** [v.k] for a property name [k] that is not defined on any prototype
    (the names read by the sources are [score], [reasons], [details] and
    the five detail keys): an own property of an object, [undefined] on
    the other non-nullish values, a [TypeError] on [null] and
    [undefined]. *)
Definition get (v : value) (k : string) : exn + value :=
  match v with
  | VUndefined | VNull => inl (TypeError "Cannot read properties of null")
  | VObj fields => inr (lookup k fields)
  | _ => inr VUndefined
  end.

(** [v?.k], for the same property names. *)
Definition get_opt (v : value) (k : string) : value :=
  match v with
  | VObj fields => lookup k fields
  | _ => VUndefined
  end.

(** [Object.keys(v)] for a truthy [v]: the own enumerable property names,
    which are the indices for an array or a string. *)
Definition Object_keys (v : value) : list string :=
  match v with
  | VObj fields => map fst fields
  | VArr xs => map string_of_nat (seq 0 (List.length xs))
  | VStr s => map string_of_nat (seq 0 (String.length s))
  | _ => []
  end.

End Js.

(* ================================================================== *)
(** * Bounds on binary64 values

    Predicates on the specification-level image [Prim2SF x] of a number,
    used to bound the percentages the scorer computes. *)

Module Binary64.

(** A zero or a negative value (the negative infinity included). *)
Definition not_positive (x : spec_float) : Prop :=
  match x with
  | S754_zero _ | S754_finite true _ _ | S754_infinity true => True
  | _ => False
  end.

(** A value that is at most the integer [R]: zero, negative, or a positive
    [m * 2^e] with [e <= 0] and [m <= R * 2^(-e)]. *)
Definition at_most (R : Z) (x : spec_float) : Prop :=
  match x with
  | S754_finite false m e => (e <= 0 /\ Zpos m <= R * 2 ^ (- e))%Z
  | _ => not_positive x
  end.

(** A value that is zero, negative, or the exact image [m * 2^e = b] of an
    integer [b] with [0 < b < a]. *)
Definition under (a : Z) (x : spec_float) : Prop :=
  match x with
  | S754_finite false m e =>
      exists b, (0 < b < a /\ e <= 0 /\ Zpos m = b * 2 ^ (- e))%Z
  | _ => not_positive x
  end.

(** The image of the number 100. *)
Definition sf100 : spec_float :=
  S754_finite false 7036874417766400 (-46).

End Binary64.

(* ================================================================== *)
(** * The data model

    One module per table of the schema, holding the columns the embedded
    functions read or write.  A nullable column is an [option]. *)

(** [DECIMAL(5,2)]: a fixed-point number, held as its count of hundredths. *)
Definition Decimal := Z.

(** A timestamp, in milliseconds. *)
Definition DateTime := Z.

Inductive ExperienceLevel := ENTRY | MID | SENIOR | EXECUTIVE.
Inductive LocationType := ONSITE | REMOTE | HYBRID.
Inductive ApplicationStatus :=
| PENDING | APPLIED | VIEWED | SHORTLISTED | INTERVIEW | OFFER
| REJECTED | WITHDRAWN.

Module UserProfile.
Record t := {
  userId : string;
  skills : option (list string);
  experienceYears : option Z;
  salaryMin : option Z;
  location : option string;
  preferredRoles : option (list string)
}.
End UserProfile.

Module Job.
Record t := {
  id : string;
  title : string;
  company : string;
  skillsRequired : option (list string);
  experienceLevel : option ExperienceLevel;
  salaryMax : option Z;
  location : option string;
  locationType : option LocationType;
  applicationCount : Z
}.
End Job.

Module UserPreferences.
Record t := {
  userId : string;
  autoApplyEnabled : bool;
  autoApplyThreshold : Decimal;
  autoApplyMaxPerDay : Z
}.
End UserPreferences.

Module Application.
Record t := {
  userId : string;
  jobId : string;
  status : ApplicationStatus;
  matchScore : option Decimal;
  matchReasons : list string;
  isAutoApplied : bool;
  createdAt : DateTime
}.
End Application.

Module JobMatchCache.
Record t := {
  userId : string;
  jobId : string;
  matchScore : Decimal;
  matchDetails : option Js.value;
  isFavorite : bool;
  isHidden : bool;
  calculatedAt : DateTime
}.
End JobMatchCache.

(* ================================================================== *)
(** * matching.service.ts *)

Module Matching.
Import Js.

Record Details := {
  skillsMatch : float;
  experienceMatch : float;
  salaryMatch : float;
  locationMatch : float;
  overallFit : float
}.

Record MatchResult := {
  score : float;
  reasons : list string;
  details : Details
}.

(** The three locals of [calculateBasicMatchScore]: [score], [reasons] and
    [details], threaded through its five blocks. *)
Record Acc := {
  acc_score : float;
  acc_reasons : list string;
  acc_details : Details
}.

Definition set_skillsMatch (x : float) (d : Details) : Details :=
  {| skillsMatch := x; experienceMatch := experienceMatch d;
     salaryMatch := salaryMatch d; locationMatch := locationMatch d;
     overallFit := overallFit d |}.

Definition set_experienceMatch (x : float) (d : Details) : Details :=
  {| skillsMatch := skillsMatch d; experienceMatch := x;
     salaryMatch := salaryMatch d; locationMatch := locationMatch d;
     overallFit := overallFit d |}.

Definition set_salaryMatch (x : float) (d : Details) : Details :=
  {| skillsMatch := skillsMatch d; experienceMatch := experienceMatch d;
     salaryMatch := x; locationMatch := locationMatch d;
     overallFit := overallFit d |}.

Definition set_locationMatch (x : float) (d : Details) : Details :=
  {| skillsMatch := skillsMatch d; experienceMatch := experienceMatch d;
     salaryMatch := salaryMatch d; locationMatch := x;
     overallFit := overallFit d |}.

Definition set_overallFit (x : float) (d : Details) : Details :=
  {| skillsMatch := skillsMatch d; experienceMatch := experienceMatch d;
     salaryMatch := salaryMatch d; locationMatch := locationMatch d;
     overallFit := x |}.

(** [score += x * w]. *)
Definition add_weighted (x w : float) (a : Acc) : Acc :=
  {| acc_score := (acc_score a + x * w)%float;
     acc_reasons := acc_reasons a;
     acc_details := acc_details a |}.

(** [reasons.push(r)]. *)
Definition push (r : string) (a : Acc) : Acc :=
  {| acc_score := acc_score a;
     acc_reasons := acc_reasons a ++ [r];
     acc_details := acc_details a |}.

Definition with_details (f : Details -> Details) (a : Acc) : Acc :=
  {| acc_score := acc_score a;
     acc_reasons := acc_reasons a;
     acc_details := f (acc_details a) |}.

(** The predicate of the [filter] over [profile.skills]: a profile skill
    is kept when some requirement contains it or is contained in it, both
    lower-cased. *)
Definition skill_matches (required : list string) (skill : string) : bool :=
  existsb
    (fun req =>
       includes (toLowerCase req) (toLowerCase skill)
       || includes (toLowerCase skill) (toLowerCase req))
    required.

(** Skills matching (40% weight). *)
Definition skills_block (profile : UserProfile.t) (job : Job.t) (a : Acc)
  : Acc :=
  if truthy_len (UserProfile.skills profile)
     && truthy_len (Job.skillsRequired job)
  then
    match UserProfile.skills profile, Job.skillsRequired job with
    | Some ps, Some reqs =>
        let matchingSkills := filter (skill_matches reqs) ps in
        let m :=
          Math_round
            (Z2float (Z.of_nat (List.length matchingSkills))
             / Z2float (Z.of_nat (List.length reqs)) * 100)%float in
        let a := with_details (set_skillsMatch m) a in
        let a := add_weighted m 0.4%float a in
        if (0 <? List.length matchingSkills)%nat
        then push ("Matches " ++ string_of_nat (List.length matchingSkills)
                     ++ " required skills")%string a
        else a
    | _, _ => a
    end
  else a.

(** [expMap]. *)
Definition expMap (level : ExperienceLevel) : Z :=
  match level with
  | ENTRY => 0
  | MID => 3
  | SENIOR => 5
  | EXECUTIVE => 8
  end.

(** Experience matching (20% weight). *)
Definition experience_block (profile : UserProfile.t) (job : Job.t) (a : Acc)
  : Acc :=
  match UserProfile.experienceYears profile, Job.experienceLevel job with
  | Some years, Some level =>
      if truthy_num (Some years) then
        (* [expMap[job.experienceLevel] || 0] *)
        let requiredExp :=
          if truthy_num (Some (expMap level)) then expMap level else 0%Z in
        let a :=
          if (requiredExp <=? years)%Z then
            push "Experience level matches requirements"
              (with_details (set_experienceMatch 100%float) a)
          else
            with_details
              (set_experienceMatch
                 (Math_round
                    (Z2float years / Z2float requiredExp * 100)%float))
              a in
        add_weighted (experienceMatch (acc_details a)) 0.2%float a
      else a
  | _, _ => a
  end.

(** Salary matching (20% weight). *)
Definition salary_block (profile : UserProfile.t) (job : Job.t) (a : Acc)
  : Acc :=
  match UserProfile.salaryMin profile, Job.salaryMax job with
  | Some pmin, Some jmax =>
      if truthy_num (Some pmin) && truthy_num (Some jmax) then
        let a :=
          if (pmin <=? jmax)%Z then
            push "Salary expectations align"
              (with_details (set_salaryMatch 100%float) a)
          else
            with_details
              (set_salaryMatch
                 (Math_round (Z2float jmax / Z2float pmin * 100)%float))
              a in
        add_weighted (salaryMatch (acc_details a)) 0.2%float a
      else a
  | _, _ => a
  end.

(** Location matching (10% weight). *)
Definition location_block (profile : UserProfile.t) (job : Job.t) (a : Acc)
  : Acc :=
  match UserProfile.location profile, Job.location job with
  | Some ploc, Some jloc =>
      if truthy_str (Some ploc) && truthy_str (Some jloc) then
        let profileLoc := toLowerCase ploc in
        let jobLoc := toLowerCase jloc in
        let a :=
          if (profileLoc =? jobLoc)%string
             || includes jobLoc profileLoc
             || includes profileLoc jobLoc
          then
            push "Location matches preference"
              (with_details (set_locationMatch 100%float) a)
          else
            match Job.locationType job with
            | Some REMOTE =>
                push "Remote position available"
                  (with_details (set_locationMatch 80%float) a)
            | _ => a
            end in
        add_weighted (locationMatch (acc_details a)) 0.1%float a
      else a
  | _, _ => a
  end.

(** Role matching (10% weight). *)
Definition role_block (profile : UserProfile.t) (job : Job.t) (a : Acc)
  : Acc :=
  match UserProfile.preferredRoles profile with
  | Some ((_ :: _) as roles) =>
      let titleMatch :=
        existsb
          (fun role =>
             includes (toLowerCase (Job.title job)) (toLowerCase role))
          roles in
      let a :=
        if titleMatch then
          push "Job title matches preferred roles"
            (with_details (set_overallFit 100%float) a)
        else a in
      add_weighted (overallFit (acc_details a)) 0.1%float a
  | _ => a
  end.

Definition initial : Acc :=
  {| acc_score := 0%float;
     acc_reasons := [];
     acc_details :=
       {| skillsMatch := 0%float; experienceMatch := 0%float;
          salaryMatch := 0%float; locationMatch := 0%float;
          overallFit := 0%float |} |}.

(** Basic matching algorithm (fallback when AI is unavailable). *)
Definition calculateBasicMatchScore (profile : UserProfile.t) (job : Job.t)
  : MatchResult :=
  let a := skills_block profile job initial in
  let a := experience_block profile job a in
  let a := salary_block profile job a in
  let a := location_block profile job a in
  let a := role_block profile job a in
  {| score := Math_round (acc_score a);
     reasons :=
       match acc_reasons a with
       | [] => ["General profile match"%string]
       | rs => rs
       end;
     details := acc_details a |}.

(** ** The AI-backed strategy *)

(** The part of the completion response the function reads:
    [response.choices[0]?.message?.content]. *)
Record ChatMessage := { content : option string }.
Record Choice := { message : option ChatMessage }.
Record ChatCompletion := { choices : list Choice }.

(** What the returned object literal holds at run time when its fields are
    taken from [parsed], whose type is [any]: [score] is the result of
    [Math.round], a number; the other fields are whatever the parsed
    document holds. *)
Record RawDetails := {
  raw_skillsMatch : value;
  raw_experienceMatch : value;
  raw_salaryMatch : value;
  raw_locationMatch : value;
  raw_overallFit : value
}.

Record RawMatchResult := {
  raw_score : float;
  raw_reasons : value;
  raw_details : RawDetails
}.

(** A [MatchResult] seen as such an object. *)
Definition raw_of (r : MatchResult) : RawMatchResult :=
  {| raw_score := score r;
     raw_reasons := VArr (map VStr (reasons r));
     raw_details :=
       {| raw_skillsMatch := VNum (skillsMatch (details r));
          raw_experienceMatch := VNum (experienceMatch (details r));
          raw_salaryMatch := VNum (salaryMatch (details r));
          raw_locationMatch := VNum (locationMatch (details r));
          raw_overallFit := VNum (overallFit (details r)) |} |}.

(** [response.choices[0]?.message?.content]. *)
Definition first_content (r : ChatCompletion) : option string :=
  match choices r with
  | c :: _ =>
      match message c with
      | Some m => content m
      | None => None
      end
  | [] => None
  end.

(** Sequencing of statements that may throw. *)
Definition bind {A B} (x : exn + A) (k : A -> exn + B) : exn + B :=
  match x with
  | inl e => inl e
  | inr a => k a
  end.

Notation "x <- e ;; k" := (bind e (fun x => k))
  (at level 61, e at next level, right associativity).

Section Runtime.

(** Built-ins of the runtime, taken as they are: [JSON.parse] (which throws
    a [SyntaxError] on a malformed document), the conversion of a string to
    a number, and the string an array or object converts to. *)
Variable JSON_parse : string -> exn + value.
Variable StringToNumber : string -> float.
Variable ObjectToString : value -> string.

(** [ToNumber], applied by [Math.round] to its argument. *)
Definition ToNumber (v : value) : float :=
  match v with
  | VUndefined => PrimFloat.nan
  | VNull => 0%float
  | VBool b => if b then 1%float else 0%float
  | VNum x => x
  | VStr s => StringToNumber s
  | VArr _ | VObj _ => StringToNumber (ObjectToString v)
  end.

(** The body of the [try] block, from the settlement of
    [openai.chat.completions.create] onwards.  ([buildMatchingPrompt]
    interpolates columns into a template literal; the request matters here
    only through the settlement of the call.) *)
Definition ai_strategy (response : exn + ChatCompletion)
  : exn + RawMatchResult :=
  r <- response ;;
  let content := first_content r in
  if truthy_str content then
    match content with
    | Some text =>
        parsed <- JSON_parse text ;;
        sc <- get parsed "score" ;;
        rs <- get parsed "reasons" ;;
        ds <- get parsed "details" ;;
        inr {| raw_score := Math_round (ToNumber sc);
               raw_reasons := or_else rs (VArr []);
               raw_details :=
                 {| raw_skillsMatch :=
                      or_else (get_opt ds "skillsMatch") (VNum 0%float);
                    raw_experienceMatch :=
                      or_else (get_opt ds "experienceMatch") (VNum 0%float);
                    raw_salaryMatch :=
                      or_else (get_opt ds "salaryMatch") (VNum 0%float);
                    raw_locationMatch :=
                      or_else (get_opt ds "locationMatch") (VNum 0%float);
                    raw_overallFit :=
                      or_else (get_opt ds "overallFit") (VNum 0%float) |} |}
    | None => inl (Error "No response from OpenAI")
    end
  else inl (Error "No response from OpenAI").

(** Calculate match score between a user profile and a job.  The result
    is the settlement of the returned promise: [inr] when it is fulfilled,
    [inl] when it is rejected.  The [catch] clause logs the error and
    returns the basic score. *)
Definition calculateMatchScore (response : exn + ChatCompletion)
    (profile : UserProfile.t) (job : Job.t) : exn + RawMatchResult :=
  match ai_strategy response with
  | inr result => inr result
  | inl _ => inr (raw_of (calculateBasicMatchScore profile job))
  end.

(** The ways the AI strategy fails: the call is rejected; the response
    carries no content, or an empty one; the content is not a JSON
    document; the document is [null]. *)
Inductive ai_fails : exn + ChatCompletion -> Prop :=
| call_rejected (e : exn) : ai_fails (inl e)
| no_content (r : ChatCompletion) :
    truthy_str (first_content r) = false -> ai_fails (inr r)
| malformed (r : ChatCompletion) (text : string) (e : exn) :
    first_content r = Some text -> JSON_parse text = inl e ->
    ai_fails (inr r)
| null_document (r : ChatCompletion) (text : string) :
    first_content r = Some text -> JSON_parse text = inr VNull ->
    ai_fails (inr r).

End Runtime.

End Matching.

(* ================================================================== *)
(** * The store and the request handlers' effects *)

Module Prisma.

(** The tables the handlers touch.  A table is the list of its rows; the
    unique constraints of the schema are enforced by the [create]
    operations below. *)
Record Database := {
  userPreferences : list UserPreferences.t;
  jobs : list Job.t;
  applications : list Application.t;
  jobMatchCache : list JobMatchCache.t
}.

(** What a handler can throw; [asyncHandler] passes it to the error
    middleware. *)
Inductive error :=
| ApiError (statusCode : Z) (message : string) (code : string)
| PrismaClientKnownRequestError (code : string)
| Thrown (e : Js.exn).

(** A handler step: it reads and writes the store and either returns or
    throws.  No transaction wraps a handler, so the writes made before a
    throw stay in the store. *)
Definition Handler (A : Type) : Type := Database -> Database * (error + A).

Definition ret {A} (a : A) : Handler A := fun db => (db, inr a).

Definition throw {A} (e : error) : Handler A := fun db => (db, inl e).

Definition bind {A B} (m : Handler A) (k : A -> Handler B) : Handler B :=
  fun db =>
    match m db with
    | (db', inr a) => k a db'
    | (db', inl e) => (db', inl e)
    end.

Notation "x <~ e ;; k" := (bind e (fun x => k))
  (at level 61, e at next level, right associativity).

Definition set_applications (rows : list Application.t) (db : Database)
  : Database :=
  {| userPreferences := userPreferences db; jobs := jobs db;
     applications := rows; jobMatchCache := jobMatchCache db |}.

Definition set_jobs (rows : list Job.t) (db : Database) : Database :=
  {| userPreferences := userPreferences db; jobs := rows;
     applications := applications db; jobMatchCache := jobMatchCache db |}.

Definition set_jobMatchCache (rows : list JobMatchCache.t) (db : Database)
  : Database :=
  {| userPreferences := userPreferences db; jobs := jobs db;
     applications := applications db; jobMatchCache := rows |}.

(** ** userPreferences *)

Definition userPreferences_findUnique (userId : string)
  : Handler (option UserPreferences.t) :=
  fun db =>
    (db, inr (find (fun p => (UserPreferences.userId p =? userId)%string)
                (userPreferences db))).

(** ** job *)

Definition job_findUnique (id : string) : Handler (option Job.t) :=
  fun db => (db, inr (find (fun j => (Job.id j =? id)%string) (jobs db))).

(** The first row selected by [sel] replaced by its image under [f];
    [None] when no row is selected. *)
Fixpoint update_first {A} (sel : A -> bool) (f : A -> A) (rows : list A)
  : option (list A) :=
  match rows with
  | [] => None
  | r :: rest =>
      if sel r then Some (f r :: rest)
      else option_map (cons r) (update_first sel f rest)
  end.

Definition increment_applicationCount (j : Job.t) : Job.t :=
  {| Job.id := Job.id j; Job.title := Job.title j;
     Job.company := Job.company j;
     Job.skillsRequired := Job.skillsRequired j;
     Job.experienceLevel := Job.experienceLevel j;
     Job.salaryMax := Job.salaryMax j; Job.location := Job.location j;
     Job.locationType := Job.locationType j;
     Job.applicationCount := (Job.applicationCount j + 1)%Z |}.

(** [prisma.job.update({ where: { id }, data: { applicationCount:
    { increment: 1 } } })]; [P2025] when the record does not exist. *)
Definition job_update_increment (id : string) : Handler unit :=
  fun db =>
    match update_first (fun j => (Job.id j =? id)%string)
            increment_applicationCount (jobs db) with
    | Some rows => (set_jobs rows db, inr tt)
    | None => (db, inl (PrismaClientKnownRequestError "P2025"))
    end.

(** ** application *)

Definition application_count (where_ : Application.t -> bool) : Handler Z :=
  fun db =>
    (db, inr (Z.of_nat (List.length (filter where_ (applications db))))).

Definition application_findMany (where_ : Application.t -> bool)
  : Handler (list Application.t) :=
  fun db => (db, inr (filter where_ (applications db))).

Definition application_key (u j : string) (a : Application.t) : bool :=
  (Application.userId a =? u)%string && (Application.jobId a =? j)%string.

(** [prisma.application.create]; [P2002] when the row would break
    [UNIQUE(user_id, job_id)]. *)
Definition application_create (row : Application.t)
  : Handler Application.t :=
  fun db =>
    if existsb
         (application_key (Application.userId row) (Application.jobId row))
         (applications db)
    then (db, inl (PrismaClientKnownRequestError "P2002"))
    else (set_applications (applications db ++ [row]) db, inr row).

(** ** jobMatchCache *)

Definition cache_key (u j : string) (c : JobMatchCache.t) : bool :=
  (JobMatchCache.userId c =? u)%string && (JobMatchCache.jobId c =? j)%string.

Definition jobMatchCache_findUnique (u j : string)
  : Handler (option JobMatchCache.t) :=
  fun db => (db, inr (find (cache_key u j) (jobMatchCache db))).

(** [prisma.jobMatchCache.update({ where: { userId_jobId }, data })]; it
    returns the updated row, [P2025] when there is none. *)
Definition jobMatchCache_update (u j : string)
    (data : JobMatchCache.t -> JobMatchCache.t) : Handler JobMatchCache.t :=
  fun db =>
    match find (cache_key u j) (jobMatchCache db),
          update_first (cache_key u j) data (jobMatchCache db) with
    | Some old, Some rows => (set_jobMatchCache rows db, inr (data old))
    | _, _ => (db, inl (PrismaClientKnownRequestError "P2025"))
    end.

(** [prisma.jobMatchCache.create]; [P2002] when the row would break
    [UNIQUE(user_id, job_id)]. *)
Definition jobMatchCache_create (row : JobMatchCache.t)
  : Handler JobMatchCache.t :=
  fun db =>
    if existsb
         (cache_key (JobMatchCache.userId row) (JobMatchCache.jobId row))
         (jobMatchCache db)
    then (db, inl (PrismaClientKnownRequestError "P2002"))
    else (set_jobMatchCache (jobMatchCache db ++ [row]) db, inr row).

(** The pairs the two unique constraints range over. *)
Definition application_pair (a : Application.t) : string * string :=
  (Application.userId a, Application.jobId a).

Definition cache_pair (c : JobMatchCache.t) : string * string :=
  (JobMatchCache.userId c, JobMatchCache.jobId c).

(** [UNIQUE(user_id, job_id)] on [applications] and on [job_match_cache]. *)
Definition applications_unique (db : Database) : Prop :=
  NoDup (map application_pair (applications db)).

Definition cache_unique (db : Database) : Prop :=
  NoDup (map cache_pair (jobMatchCache db)).


(** Insertion of a row into a list ordered by decreasing [matchScore],
    before the rows of equal score. *)
Fixpoint insert_desc (c : JobMatchCache.t) (rows : list JobMatchCache.t)
  : list JobMatchCache.t :=
  match rows with
  | [] => [c]
  | r :: rest =>
      if (JobMatchCache.matchScore c <? JobMatchCache.matchScore r)%Z
      then r :: insert_desc c rest
      else c :: r :: rest
  end.

(** [orderBy: { matchScore: 'desc' }].  The store leaves the order of rows
    of equal score open; here they keep their table order. *)
Fixpoint orderBy_matchScore_desc (rows : list JobMatchCache.t)
  : list JobMatchCache.t :=
  match rows with
  | [] => []
  | r :: rest => insert_desc r (orderBy_matchScore_desc rest)
  end.

(** Decreasing [matchScore]: [c] may come before [c']. *)
Definition score_desc (c c' : JobMatchCache.t) : Prop :=
  (JobMatchCache.matchScore c' <= JobMatchCache.matchScore c)%Z.

(** [prisma.jobMatchCache.findMany({ where, orderBy: { matchScore: 'desc' },
    take, include: { job: true } })]: each row comes with its job. *)
Definition jobMatchCache_findMany_desc (where_ : JobMatchCache.t -> bool)
    (take : Z) : Handler (list (JobMatchCache.t * option Job.t)) :=
  fun db =>
    let rows :=
      firstn (Z.to_nat take)
        (orderBy_matchScore_desc (filter where_ (jobMatchCache db))) in
    (db,
     inr (map
            (fun c =>
               (c, find (fun j => (Job.id j =? JobMatchCache.jobId c)%string)
                     (jobs db)))
            rows)).

End Prisma.

(* ================================================================== *)
(** * The request and the clock *)

Module Express.

(** [req.user], set by the [authenticate] middleware. *)
Record User := { id : string }.

(** The parts of a request the handlers read: [req.user] and
    [req.params.id]. *)
Record Request := {
  user : option User;
  params_id : string
}.

(** [new Date()] and the offset of the server's local time from UTC, both
    in milliseconds. *)
Record Clock := {
  now : DateTime;
  timezoneOffset : Z
}.

(** [today.setHours(0, 0, 0, 0)]: the start of the local day. *)
Definition startOfToday (clock : Clock) : DateTime :=
  (now clock - (now clock + timezoneOffset clock) mod 86400000)%Z.

End Express.

(* ================================================================== *)
(** * The application controller *)

Module ApplicationController.
Import Prisma Express.

Record JobSummary := {
  summary_id : string;
  summary_title : string;
  summary_company : string;
  summary_matchScore : Decimal
}.

(** The [data] member of the response of [autoApply]. *)
Record AutoApplyResponse := {
  applicationsCreated : nat;
  jobs : list JobSummary
}.

(** A row returned by [findMany] with [include: { job: true }]. *)
Definition Match : Type := JobMatchCache.t * option Job.t.

(** The conditions of the [dailyCount] query. *)
Definition auto_applied_today (userId : string) (today : DateTime)
    (a : Application.t) : bool :=
  (Application.userId a =? userId)%string
  && Application.isAutoApplied a
  && (today <=? Application.createdAt a)%Z.

(** The conditions of the [matchedJobs] query. *)
Definition eligible (userId : string) (threshold : Decimal)
    (c : JobMatchCache.t) : bool :=
  (JobMatchCache.userId c =? userId)%string
  && (threshold <=? JobMatchCache.matchScore c)%Z
  && negb (JobMatchCache.isHidden c).

(** The conditions of the [existingApplications] query. *)
Definition applied_among (userId : string) (jobIds : list string)
    (a : Application.t) : bool :=
  (Application.userId a =? userId)%string
  && existsb (String.eqb (Application.jobId a)) jobIds.

(** The [data] of the application created for a match. *)
Definition new_application (clock : Clock) (userId : string)
    (c : JobMatchCache.t) : Application.t :=
  {| Application.userId := userId;
     Application.jobId := JobMatchCache.jobId c;
     Application.status := PENDING;
     Application.matchScore := Some (JobMatchCache.matchScore c);
     Application.matchReasons :=
       match JobMatchCache.matchDetails c with
       | Some d => if Js.truthy d then Js.Object_keys d else []
       | None => []
       end;
     Application.isAutoApplied := true;
     Application.createdAt := now clock |}.

(** The loop over [jobsToApply]; [created] is the local [applications]. *)
Fixpoint create_applications (clock : Clock) (userId : string)
    (jobsToApply : list Match) (created : list Application.t)
  : Handler (list Application.t) :=
  match jobsToApply with
  | [] => ret created
  | m :: rest =>
      application <~
        application_create (new_application clock userId (fst m)) ;;
      _ <~ job_update_increment (JobMatchCache.jobId (fst m)) ;;
      create_applications clock userId rest (created ++ [application])
  end.

(** [jobsToApply.map((m) => ({ id, title: m.job.title, ... }))]. *)
Fixpoint summaries (jobsToApply : list Match) : Handler (list JobSummary) :=
  match jobsToApply with
  | [] => ret []
  | (c, Some j) :: rest =>
      more <~ summaries rest ;;
      ret ({| summary_id := JobMatchCache.jobId c;
              summary_title := Job.title j;
              summary_company := Job.company j;
              summary_matchScore := JobMatchCache.matchScore c |} :: more)
  | (_, None) :: _ =>
      throw (Thrown (Js.TypeError "Cannot read properties of null"))
  end.

(** Auto-apply to matched jobs: [POST /api/v1/applications/auto-apply]. *)
Definition autoApply (clock : Clock) (req : Request)
  : Handler AutoApplyResponse :=
  match user req with
  | None => throw (Thrown (Js.TypeError "Cannot read properties of undefined"))
  | Some u =>
      let userId := id u in
      preferences <~ userPreferences_findUnique userId ;;
      match preferences with
      | None =>
          throw (ApiError 400 "Auto-apply is not enabled"
                   "AUTO_APPLY_DISABLED")
      | Some preferences =>
          if negb (UserPreferences.autoApplyEnabled preferences) then
            throw (ApiError 400 "Auto-apply is not enabled"
                     "AUTO_APPLY_DISABLED")
          else
            let today := startOfToday clock in
            dailyCount <~ application_count (auto_applied_today userId today) ;;
            if (UserPreferences.autoApplyMaxPerDay preferences <=? dailyCount)%Z
            then
              throw (ApiError 429 "Daily auto-apply limit reached"
                       "RATE_LIMIT")
            else
              matchedJobs <~
                jobMatchCache_findMany_desc
                  (eligible userId
                     (UserPreferences.autoApplyThreshold preferences))
                  (UserPreferences.autoApplyMaxPerDay preferences
                   - dailyCount)%Z ;;
              let jobIds :=
                map (fun m : Match => JobMatchCache.jobId (fst m))
                  matchedJobs in
              existingApplications <~
                application_findMany (applied_among userId jobIds) ;;
              let appliedJobIds :=
                map Application.jobId existingApplications in
              let jobsToApply :=
                filter
                  (fun m : Match =>
                     negb (existsb (String.eqb (JobMatchCache.jobId (fst m)))
                             appliedJobIds))
                  matchedJobs in
              applications <~
                create_applications clock userId jobsToApply [] ;;
              jobs <~ summaries jobsToApply ;;
              ret {| applicationsCreated := List.length applications;
                     jobs := jobs |}
      end
  end.

(** The summary the response gives of a match and its job. *)
Definition summary_of (c : JobMatchCache.t) (j : Job.t) : JobSummary :=
  {| summary_id := JobMatchCache.jobId c;
     summary_title := Job.title j;
     summary_company := Job.company j;
     summary_matchScore := JobMatchCache.matchScore c |}.

(** The values of the locals [dailyCount], [matchedJobs] and [jobsToApply]
    of [autoApply] on a store. *)
Definition dailyCount_on (clock : Clock) (userId : string) (db : Database)
  : Z :=
  Z.of_nat
    (List.length
       (filter (auto_applied_today userId (startOfToday clock))
          (applications db))).

Definition matchedJobs_on (clock : Clock) (userId : string)
    (preferences : UserPreferences.t) (db : Database) : list Match :=
  map
    (fun c =>
       (c, find (fun j => (Job.id j =? JobMatchCache.jobId c)%string)
             (Prisma.jobs db)))
    (firstn
       (Z.to_nat (UserPreferences.autoApplyMaxPerDay preferences
                  - dailyCount_on clock userId db))
       (orderBy_matchScore_desc
          (filter
             (eligible userId (UserPreferences.autoApplyThreshold preferences))
             (jobMatchCache db)))).

Definition jobsToApply_on (clock : Clock) (userId : string)
    (preferences : UserPreferences.t) (db : Database) : list Match :=
  let matchedJobs := matchedJobs_on clock userId preferences db in
  let jobIds :=
    map (fun m : Match => JobMatchCache.jobId (fst m)) matchedJobs in
  let appliedJobIds :=
    map Application.jobId
      (filter (applied_among userId jobIds) (applications db)) in
  filter
    (fun m : Match =>
       negb (existsb (String.eqb (JobMatchCache.jobId (fst m)))
               appliedJobIds))
    matchedJobs.

End ApplicationController.

(* ================================================================== *)
(** * The job controller *)

Module JobController.
Import Prisma Express.

(** The response of [toggleFavorite]: its [message] and [data.isFavorite]. *)
Record FavoriteResponse := {
  favorite_message : string;
  isFavorite : bool
}.

Definition set_isFavorite (b : bool) (c : JobMatchCache.t)
  : JobMatchCache.t :=
  {| JobMatchCache.userId := JobMatchCache.userId c;
     JobMatchCache.jobId := JobMatchCache.jobId c;
     JobMatchCache.matchScore := JobMatchCache.matchScore c;
     JobMatchCache.matchDetails := JobMatchCache.matchDetails c;
     JobMatchCache.isFavorite := b;
     JobMatchCache.isHidden := JobMatchCache.isHidden c;
     JobMatchCache.calculatedAt := JobMatchCache.calculatedAt c |}.

Definition set_isHidden (b : bool) (c : JobMatchCache.t) : JobMatchCache.t :=
  {| JobMatchCache.userId := JobMatchCache.userId c;
     JobMatchCache.jobId := JobMatchCache.jobId c;
     JobMatchCache.matchScore := JobMatchCache.matchScore c;
     JobMatchCache.matchDetails := JobMatchCache.matchDetails c;
     JobMatchCache.isFavorite := JobMatchCache.isFavorite c;
     JobMatchCache.isHidden := b;
     JobMatchCache.calculatedAt := JobMatchCache.calculatedAt c |}.

(** The row [create] inserts for [{ userId, jobId, matchScore: 0, ... }]:
    the columns not given take the defaults of the schema. *)
Definition placeholder (clock : Clock) (userId jobId : string)
    (favorite hidden : bool) : JobMatchCache.t :=
  {| JobMatchCache.userId := userId;
     JobMatchCache.jobId := jobId;
     JobMatchCache.matchScore := 0%Z;
     JobMatchCache.matchDetails := None;
     JobMatchCache.isFavorite := favorite;
     JobMatchCache.isHidden := hidden;
     JobMatchCache.calculatedAt := now clock |}.

(** Toggle favorite job: [POST /api/v1/jobs/:id/favorite]. *)
Definition toggleFavorite (clock : Clock) (req : Request)
  : Handler FavoriteResponse :=
  match user req with
  | None => throw (ApiError 401 "Authentication required" "UNAUTHORIZED")
  | Some u =>
      let id_ := params_id req in
      job <~ job_findUnique id_ ;;
      match job with
      | None => throw (ApiError 404 "Job not found" "NOT_FOUND")
      | Some _ =>
          existingCache <~ jobMatchCache_findUnique (id u) id_ ;;
          isFavorite <~
            match existingCache with
            | Some existing =>
                updated <~
                  jobMatchCache_update (id u) id_
                    (set_isFavorite (negb (JobMatchCache.isFavorite existing))) ;;
                ret (JobMatchCache.isFavorite updated)
            | None =>
                _ <~ jobMatchCache_create
                       (placeholder clock (id u) id_ true false) ;;
                ret true
            end ;;
          ret {| favorite_message :=
                   if (isFavorite : bool) then "Job added to favorites"
                   else "Job removed from favorites";
                 isFavorite := isFavorite |}
      end
  end.

(** Hide job: [POST /api/v1/jobs/:id/hide]; the response carries its
    [message]. *)
Definition hideJob (clock : Clock) (req : Request) : Handler string :=
  match user req with
  | None => throw (ApiError 401 "Authentication required" "UNAUTHORIZED")
  | Some u =>
      let id_ := params_id req in
      job <~ job_findUnique id_ ;;
      match job with
      | None => throw (ApiError 404 "Job not found" "NOT_FOUND")
      | Some _ =>
          existingCache <~ jobMatchCache_findUnique (id u) id_ ;;
          _ <~
            match existingCache with
            | Some _ =>
                _ <~ jobMatchCache_update (id u) id_ (set_isHidden true) ;;
                ret tt
            | None =>
                _ <~ jobMatchCache_create
                       (placeholder clock (id u) id_ false true) ;;
                ret tt
            end ;;
          ret "Job hidden successfully"%string
      end
  end.

End JobController.

(* ================================================================== *)
(** * Inputs used in the statements below *)

Module Examples.
Import Js Matching.

(** The profile of the example scenario. *)
Definition scenario_profile : UserProfile.t :=
  {| UserProfile.userId := "user-1";
     UserProfile.skills := Some ["JavaScript"; "React"]%string;
     UserProfile.experienceYears := Some 4%Z;
     UserProfile.salaryMin := Some 80000%Z;
     UserProfile.location := Some "Remote"%string;
     UserProfile.preferredRoles := Some ["Frontend Engineer"%string] |}.

(** The job of the example scenario, at a given location string. *)
Definition scenario_job (jobLocation : string) : Job.t :=
  {| Job.id := "job-1";
     Job.title := "Frontend Engineer";
     Job.company := "Acme";
     Job.skillsRequired := Some ["React"; "TypeScript"]%string;
     Job.experienceLevel := Some MID;
     Job.salaryMax := Some 90000%Z;
     Job.location := Some jobLocation;
     Job.locationType := Some REMOTE;
     Job.applicationCount := 0%Z |}.

(** A profile listing two skills that both contain, or are contained in,
    the single requirement of [javascript_job]. *)
Definition java_profile : UserProfile.t :=
  {| UserProfile.userId := "user-2";
     UserProfile.skills := Some ["Java"; "JavaScript"]%string;
     UserProfile.experienceYears := Some 5%Z;
     UserProfile.salaryMin := Some 80000%Z;
     UserProfile.location := None;
     UserProfile.preferredRoles := None |}.

Definition javascript_job : Job.t :=
  {| Job.id := "job-2";
     Job.title := "Backend Engineer";
     Job.company := "Acme";
     Job.skillsRequired := Some ["JavaScript"%string];
     Job.experienceLevel := Some MID;
     Job.salaryMax := Some 90000%Z;
     Job.location := None;
     Job.locationType := None;
     Job.applicationCount := 0%Z |}.

(** ** Profiles, jobs and responses *)

(** A profile with no experience yet, and an entry-level job. *)
Definition newcomer_profile : UserProfile.t :=
  {| UserProfile.userId := "user-3";
     UserProfile.skills := None;
     UserProfile.experienceYears := Some 0%Z;
     UserProfile.salaryMin := None;
     UserProfile.location := None;
     UserProfile.preferredRoles := None |}.

Definition entry_job : Job.t :=
  {| Job.id := "job-3";
     Job.title := "Junior Developer";
     Job.company := "Acme";
     Job.skillsRequired := None;
     Job.experienceLevel := Some ENTRY;
     Job.salaryMax := None;
     Job.location := None;
     Job.locationType := None;
     Job.applicationCount := 0%Z |}.

(** Salary figures below zero: the columns are signed integers. *)
Definition negative_salary_profile : UserProfile.t :=
  {| UserProfile.userId := "user-4";
     UserProfile.skills := None;
     UserProfile.experienceYears := None;
     UserProfile.salaryMin := Some (-1)%Z;
     UserProfile.location := None;
     UserProfile.preferredRoles := None |}.

Definition negative_salary_job : Job.t :=
  {| Job.id := "job-4";
     Job.title := "Volunteer";
     Job.company := "Acme";
     Job.skillsRequired := None;
     Job.experienceLevel := None;
     Job.salaryMax := Some (-100)%Z;
     Job.location := None;
     Job.locationType := None;
     Job.applicationCount := 0%Z |}.

(** A completion response carrying [text] as the content of its first
    choice. *)
Definition response_with (text : string) : ChatCompletion :=
  {| choices := [ {| message := Some {| content := Some text |} |} ] |}.

(** The double-quote character, and the document [{"score": 85}]. *)
Definition dq : string := String "034"%char EmptyString.

Definition score_only_text : string :=
  ("{" ++ dq ++ "score" ++ dq ++ ": 85}")%string.

Definition score_only_document : value :=
  VObj [("score"%string, VNum 85%float)].

(** [JSON.parse] on the documents of a table: the listed texts parse to the
    listed values, any other text is rejected. *)
Fixpoint parse_from (table : list (string * value)) (text : string)
  : exn + value :=
  match table with
  | [] => inl (SyntaxError "Unexpected token")
  | (t, v) :: rest => if (text =? t)%string then inr v else parse_from rest text
  end.

Definition parse_score_only : string -> exn + value :=
  parse_from [(score_only_text, score_only_document)].

(** Conversions that play no part where numbers are already numbers. *)
Definition no_string_to_number (_ : string) : float := PrimFloat.nan.
Definition no_object_to_string (_ : value) : string := "[object Object]".

(** ** A store *)

Definition alice : Express.User := {| Express.id := "user-1" |}.

(** A request of [alice]; [jobId] is [req.params.id]. *)
Definition request_of_alice (jobId : string) : Express.Request :=
  {| Express.user := Some alice; Express.params_id := jobId |}.

Definition morning : Express.Clock :=
  {| Express.now := 1700000000000%Z; Express.timezoneOffset := 0%Z |}.

Definition evening : Express.Clock :=
  {| Express.now := 1700030000000%Z; Express.timezoneOffset := 0%Z |}.

Definition job_row (id title : string) : Job.t :=
  {| Job.id := id;
     Job.title := title;
     Job.company := "Acme";
     Job.skillsRequired := None;
     Job.experienceLevel := None;
     Job.salaryMax := None;
     Job.location := None;
     Job.locationType := None;
     Job.applicationCount := 0%Z |}.

Definition cache_row (jobId : string) (score : Decimal) (hidden : bool)
  : JobMatchCache.t :=
  {| JobMatchCache.userId := "user-1";
     JobMatchCache.jobId := jobId;
     JobMatchCache.matchScore := score;
     JobMatchCache.matchDetails := None;
     JobMatchCache.isFavorite := false;
     JobMatchCache.isHidden := hidden;
     JobMatchCache.calculatedAt := 1699000000000%Z |}.

Definition preferences_of_alice (enabled : bool) : UserPreferences.t :=
  {| UserPreferences.userId := "user-1";
     UserPreferences.autoApplyEnabled := enabled;
     UserPreferences.autoApplyThreshold := 5000%Z;
     UserPreferences.autoApplyMaxPerDay := 2%Z |}.

(** Five jobs; [alice] has applied by hand to the first, has cache entries
    for the first four (the third hidden, the fourth under her threshold of
    50.00) and none for the fifth; she may auto-apply twice a day. *)
Definition store (enabled : bool) : Prisma.Database :=
  {| Prisma.userPreferences := [preferences_of_alice enabled];
     Prisma.jobs :=
       [job_row "job-1" "Frontend Engineer"; job_row "job-2" "Backend Engineer";
        job_row "job-3" "Data Engineer"; job_row "job-4" "Site Engineer";
        job_row "job-5" "Test Engineer"];
     Prisma.applications :=
       [{| Application.userId := "user-1";
           Application.jobId := "job-1";
           Application.status := APPLIED;
           Application.matchScore := Some 9000%Z;
           Application.matchReasons := [];
           Application.isAutoApplied := false;
           Application.createdAt := 1699500000000%Z |}];
     Prisma.jobMatchCache :=
       [cache_row "job-2" 8000%Z false; cache_row "job-1" 9000%Z false;
        cache_row "job-3" 9500%Z true; cache_row "job-4" 4000%Z false] |}.

End Examples.

(* ================================================================== *)
(** * Strings of the ASCII range

    [Js.toLowerCase] folds the letters A to Z, which is what
    [String.prototype.toLowerCase] does to a string of the ASCII range.  The
    statements below that depend on how a string is folded are about
    profiles and jobs whose folded strings are in that range. *)

Module AsciiRange.

Definition ascii_char (c : ascii) : bool := (nat_of_ascii c <? 128)%nat.

Fixpoint ascii_string (s : string) : bool :=
  match s with
  | EmptyString => true
  | String c s' => ascii_char c && ascii_string s'
  end.

Definition ascii_option (s : option string) : bool :=
  match s with
  | Some s => ascii_string s
  | None => true
  end.

Definition ascii_strings (xs : option (list string)) : bool :=
  match xs with
  | Some xs => forallb ascii_string xs
  | None => true
  end.

(** The strings of a profile that [calculateBasicMatchScore] folds: the
    skills, the location and the preferred roles. *)
Definition ascii_profile (p : UserProfile.t) : bool :=
  ascii_strings (UserProfile.skills p)
  && ascii_option (UserProfile.location p)
  && ascii_strings (UserProfile.preferredRoles p).

(** The strings of a job that it folds: the required skills, the location
    and the title. *)
Definition ascii_job (j : Job.t) : bool :=
  ascii_strings (Job.skillsRequired j)
  && ascii_option (Job.location j)
  && ascii_string (Job.title j).

End AsciiRange.

(* ================================================================== *)
(** * Percentages

    The sub-scores of the basic scorer are meant to be whole numbers from 0
    to 100.  The definitions below say so for a number, and list the sums
    the scorer can reach from such sub-scores. *)

Module Percentage.
Import Js.

(** The image of a number that is [+0], or positive and at most the
    integer [R]. *)
Definition within (R : Z) (x : spec_float) : Prop :=
  match x with
  | S754_zero false => True
  | S754_finite false m e => (e <= 0 /\ Zpos m <= R * 2 ^ (- e))%Z
  | _ => False
  end.

(** The image of a number whose sign bit is clear. *)
Definition unsigned (x : spec_float) : Prop :=
  match x with
  | S754_zero s | S754_finite s _ _ | S754_infinity s => s = false
  | S754_nan => False
  end.

(** A whole number from 0 to 100. *)
Definition percentage (x : float) : Prop :=
  exists n : Z, (0 <= n <= 100)%Z /\ x = Z2float n.

(** [score += x * w] in a block that ran and left the sub-score [x]; the
    score as it was in a block that was skipped. *)
Definition add_block (w : float) (score : float) (x : option float) : float :=
  match x with
  | Some x => (score + x * w)%float
  | None => score
  end.

(** The local [score] after the five blocks. *)
Definition weighted_sum (skills experience salary location fit : option float)
  : float :=
  add_block 0.1
    (add_block 0.1
       (add_block 0.2
          (add_block 0.2 (add_block 0.4 0 skills) experience)
          salary)
       location)
    fit.

(** What a block with a percentage as its sub-score can leave. *)
Definition percentages : list (option float) :=
  None :: map (fun n => Some (Z2float (Z.of_nat n))) (seq 0 101).

(** What the location block and the role block can leave. *)
Definition location_outcomes : list (option float) :=
  [None; Some 0%float; Some 80%float; Some 100%float].

Definition role_outcomes : list (option float) :=
  [None; Some 0%float; Some 100%float].

(** [x] is [+0], or positive and at most 100. *)
Definition in_range (x : float) : bool :=
  (PrimFloat.Leibniz.eqb x 0 || (0 <? x)%float) && (x <=? 100)%float.

(** [f] holds of every choice of one element from each of five lists. *)
Definition forallb5 {A} (f : A -> A -> A -> A -> A -> bool)
    (l1 l2 l3 l4 l5 : list A) : bool :=
  forallb
    (fun a =>
       forallb
         (fun b =>
            forallb
              (fun c => forallb (fun d => forallb (f a b c d) l5) l4)
              l3)
         l2)
    l1.

Definition sum_in_range (skills experience salary location fit : option float)
  : bool :=
  in_range (weighted_sum skills experience salary location fit).

(** What a block of the scorer does to the locals [score] and [details]:
    it is skipped, or it leaves one of [outcomes] as its sub-score and adds
    that sub-score, weighted by [w], to the score. *)
Definition block_step (w : float)
    (set : float -> Matching.Details -> Matching.Details)
    (outcomes : list (option float)) (a a' : Matching.Acc) : Prop :=
  exists x,
    In x outcomes
    /\ Matching.acc_score a' = add_block w (Matching.acc_score a) x
    /\ Matching.acc_details a'
       = match x with
         | Some v => set v (Matching.acc_details a)
         | None => Matching.acc_details a
         end.

(** The five sub-scores are percentages. *)
Definition percentages_only (d : Matching.Details) : Prop :=
  percentage (Matching.skillsMatch d)
  /\ percentage (Matching.experienceMatch d)
  /\ percentage (Matching.salaryMatch d)
  /\ percentage (Matching.locationMatch d)
  /\ percentage (Matching.overallFit d).

End Percentage.

(* ================================================================== *)
(** * Inputs that differ in letter case and in the order of their lists *)

Module UpToCase.
Import Js.

(** Two nullable lists of strings with the same lower-cased elements, in
    any order. *)
Definition same_strings (xs ys : option (list string)) : Prop :=
  match xs, ys with
  | Some xs, Some ys =>
      Permutation (map toLowerCase xs) (map toLowerCase ys)
  | None, None => True
  | _, _ => False
  end.

Definition same_profile (p p' : UserProfile.t) : Prop :=
  same_strings (UserProfile.skills p) (UserProfile.skills p')
  /\ UserProfile.experienceYears p = UserProfile.experienceYears p'
  /\ UserProfile.salaryMin p = UserProfile.salaryMin p'
  /\ option_map toLowerCase (UserProfile.location p)
     = option_map toLowerCase (UserProfile.location p')
  /\ same_strings (UserProfile.preferredRoles p)
       (UserProfile.preferredRoles p').

Definition same_job (j j' : Job.t) : Prop :=
  same_strings (Job.skillsRequired j) (Job.skillsRequired j')
  /\ Job.experienceLevel j = Job.experienceLevel j'
  /\ Job.salaryMax j = Job.salaryMax j'
  /\ option_map toLowerCase (Job.location j)
     = option_map toLowerCase (Job.location j')
  /\ Job.locationType j = Job.locationType j'
  /\ toLowerCase (Job.title j) = toLowerCase (Job.title j').

(** [skill_matches] on strings that are already lower-cased. *)
Definition matches_lowered (required : list string) (skill : string) : bool :=
  existsb (fun req => includes req skill || includes skill req) required.

(** The profile of the example scenario, written otherwise. *)
Definition shouting_profile : UserProfile.t :=
  {| UserProfile.userId := "user-1";
     UserProfile.skills := Some ["REACT"; "javascript"]%string;
     UserProfile.experienceYears := Some 4%Z;
     UserProfile.salaryMin := Some 80000%Z;
     UserProfile.location := Some "REMOTE"%string;
     UserProfile.preferredRoles := Some ["frontend ENGINEER"%string] |}.

End UpToCase.

(* ================================================================== *)
(** * matching.service.ts: scoring a list of jobs *)

Module MatchingBatch.
Import Js Matching.

(** [Map<string, MatchResult>]: the entries, in insertion order. *)
Definition ResultMap : Type := list (string * RawMatchResult).

(** [results.set(key, value)]: the value of a key already present is
    replaced where it stands; a new key goes to the end. *)
Fixpoint Map_set (key : string) (value : RawMatchResult) (m : ResultMap)
  : ResultMap :=
  match m with
  | [] => [(key, value)]
  | (k, v) :: rest =>
      if (k =? key)%string then (k, value) :: rest
      else (k, v) :: Map_set key value rest
  end.

(** [results.get(key)]. *)
Fixpoint Map_get (key : string) (m : ResultMap) : option RawMatchResult :=
  match m with
  | [] => None
  | (k, v) :: rest => if (k =? key)%string then Some v else Map_get key rest
  end.

Definition batchSize : nat := 5.

(** [xs.slice(i, j)] for [i <= j]. *)
Definition slice {A} (i j : nat) (xs : list A) : list A :=
  firstn (j - i) (skipn i xs).

(** The job id of a job with its position. *)
Definition job_id (c : nat * Job.t) : string := Job.id (snd c).

(** The jobs with their positions in the list. *)
Definition indexed (jobs : list Job.t) : list (nat * Job.t) :=
  combine (seq 0 (List.length jobs)) jobs.

Section Runtime.

Variable JSON_parse : string -> exn + value.
Variable StringToNumber : string -> float.
Variable ObjectToString : value -> string.

(** The settlement of the completion request made for the job at a
    position of the list. *)
Variable completions_create : nat -> exn + ChatCompletion.

(** The requests of a batch are in flight together, and the callback of
    each runs when its request settles: [settle_order i batch] is the order
    in which the jobs of the batch starting at position [i] get there. *)
Variable settle_order : nat -> list (nat * Job.t) -> list (nat * Job.t).

(** What the promise of [calculateMatchScore] for the job at position [k]
    is fulfilled with. *)
Definition score_of (profile : UserProfile.t) (k : nat) (job : Job.t)
  : RawMatchResult :=
  match ai_strategy JSON_parse StringToNumber ObjectToString
          (completions_create k) with
  | inr result => result
  | inl _ => raw_of (calculateBasicMatchScore profile job)
  end.

(** The callbacks of a batch, in the order their requests settle:
    [const result = await calculateMatchScore(profile, job);
     results.set(job.id, result)].  A rejection rejects [Promise.all]. *)
Fixpoint run_callbacks (profile : UserProfile.t)
    (settled : list (nat * Job.t)) (results : ResultMap) : exn + ResultMap :=
  match settled with
  | [] => inr results
  | (k, job) :: rest =>
      match calculateMatchScore JSON_parse StringToNumber ObjectToString
              (completions_create k) profile job with
      | inr result =>
          run_callbacks profile rest (Map_set (Job.id job) result results)
      | inl e => inl e
      end
  end.

(** The [for] loop, from the test [i < jobs.length] on.  [pauses] counts
    the one-second timers awaited between batches; [fuel] bounds the
    number of iterations, and [None] is a loop cut short by it. *)
Fixpoint batch_loop (fuel : nat) (profile : UserProfile.t)
    (jobs : list (nat * Job.t)) (i : nat) (results : ResultMap)
    (pauses : nat) : option (exn + ResultMap * nat) :=
  if (i <? List.length jobs)%nat then
    match fuel with
    | O => None
    | S fuel' =>
        let batch := slice i (i + batchSize) jobs in
        match run_callbacks profile (settle_order i batch) results with
        | inl e => Some (inl e)
        | inr results' =>
            let pauses' :=
              if (i + batchSize <? List.length jobs)%nat then S pauses
              else pauses in
            batch_loop fuel' profile jobs (i + batchSize) results' pauses'
        end
    end
  else Some (inr (results, pauses)).

(** Batch calculate match scores for multiple jobs.  The result is the
    settlement of the returned promise, with the number of pauses made. *)
Definition batchCalculateMatchScores (profile : UserProfile.t)
    (jobs : list Job.t) : option (exn + ResultMap * nat) :=
  batch_loop (List.length jobs) profile (indexed jobs) 0 [] 0.

(** The map after the callbacks of [settled] have run on [results]. *)
Definition set_all (profile : UserProfile.t) (settled : list (nat * Job.t))
    (results : ResultMap) : ResultMap :=
  fold_left
    (fun m (c : nat * Job.t) =>
       Map_set (Job.id (snd c)) (score_of profile (fst c) (snd c)) m)
    settled results.

End Runtime.

End MatchingBatch.

(* ================================================================== *)
(** * The preference controller: the auto-apply switch *)

Module PreferenceController.
Import Prisma Express.

Definition set_userPreferences (rows : list UserPreferences.t)
    (db : Database) : Database :=
  {| userPreferences := rows; jobs := jobs db;
     applications := applications db; jobMatchCache := jobMatchCache db |}.

Definition set_autoApplyEnabled (b : bool) (p : UserPreferences.t)
  : UserPreferences.t :=
  {| UserPreferences.userId := UserPreferences.userId p;
     UserPreferences.autoApplyEnabled := b;
     UserPreferences.autoApplyThreshold := UserPreferences.autoApplyThreshold p;
     UserPreferences.autoApplyMaxPerDay :=
       UserPreferences.autoApplyMaxPerDay p |}.

Definition preferences_of (userId : string) (p : UserPreferences.t) : bool :=
  (UserPreferences.userId p =? userId)%string.

(** [prisma.userPreferences.update({ where: { userId }, data })]; it
    returns the updated row, [P2025] when there is none. *)
Definition userPreferences_update (userId : string)
    (data : UserPreferences.t -> UserPreferences.t)
  : Handler UserPreferences.t :=
  fun db =>
    match find (preferences_of userId) (userPreferences db),
          update_first (preferences_of userId) data (userPreferences db) with
    | Some old, Some rows => (set_userPreferences rows db, inr (data old))
    | _, _ => (db, inl (PrismaClientKnownRequestError "P2025"))
    end.

(** The response of [toggleAutoApply]: its [message] and
    [data.autoApplyEnabled]. *)
Record ToggleResponse := {
  toggle_message : string;
  autoApplyEnabled : bool
}.

(** Toggle auto-apply: [POST /api/v1/preferences/auto-apply/toggle]. *)
Definition toggleAutoApply (req : Request) : Handler ToggleResponse :=
  match user req with
  | None => throw (Thrown (Js.TypeError "Cannot read properties of undefined"))
  | Some u =>
      preferences <~ userPreferences_findUnique (id u) ;;
      match preferences with
      | None => throw (ApiError 404 "Preferences not found" "NOT_FOUND")
      | Some preferences =>
          updated <~
            userPreferences_update (id u)
              (set_autoApplyEnabled
                 (negb (UserPreferences.autoApplyEnabled preferences))) ;;
          ret {| toggle_message :=
                   if UserPreferences.autoApplyEnabled updated
                   then "Auto-apply enabled" else "Auto-apply disabled";
                 autoApplyEnabled :=
                   UserPreferences.autoApplyEnabled updated |}
      end
  end.

End PreferenceController.

(* ================================================================== *)
(** * The application controller: statistics *)

Module ApplicationStats.
Import Prisma Express.

Definition status_eqb (s t : ApplicationStatus) : bool :=
  match s, t with
  | PENDING, PENDING | APPLIED, APPLIED | VIEWED, VIEWED
  | SHORTLISTED, SHORTLISTED | INTERVIEW, INTERVIEW | OFFER, OFFER
  | REJECTED, REJECTED | WITHDRAWN, WITHDRAWN => true
  | _, _ => false
  end.

(** An object whose keys are status names and whose values are counts,
    the keys in insertion order. *)
Definition Counts : Type := list (ApplicationStatus * Z).

(** [counts[status]]. *)
Fixpoint get (status : ApplicationStatus) (counts : Counts) : option Z :=
  match counts with
  | [] => None
  | (s, n) :: rest => if status_eqb s status then Some n else get status rest
  end.

(** [counts[status] = n]. *)
Fixpoint assign (status : ApplicationStatus) (n : Z) (counts : Counts)
  : Counts :=
  match counts with
  | [] => [(status, n)]
  | (s, m) :: rest =>
      if status_eqb s status then (s, n) :: rest
      else (s, m) :: assign status n rest
  end.

(** One more row of a status, in the groups counted so far. *)
Fixpoint count_row (status : ApplicationStatus) (groups : Counts) : Counts :=
  match groups with
  | [] => [(status, 1%Z)]
  | (s, n) :: rest =>
      if status_eqb s status then (s, (n + 1)%Z) :: rest
      else (s, n) :: count_row status rest
  end.

(** [prisma.application.groupBy({ by: ['status'], where,
    _count: { status: true } })]: one group for each status found among
    the rows selected, with the number of those rows.  The store leaves the
    order of the groups open; here a status comes where its first row
    does. *)
Definition application_groupBy_status (where_ : Application.t -> bool)
  : Handler Counts :=
  fun db =>
    (db,
     inr (fold_left (fun groups a => count_row (Application.status a) groups)
            (filter where_ (applications db)) [])).

(** [stats.forEach((stat) => { counts[stat.status] = stat._count.status })]. *)
Definition assign_all (stats : Counts) (counts : Counts) : Counts :=
  fold_left (fun o (stat : ApplicationStatus * Z) =>
               assign (fst stat) (snd stat) o)
    stats counts.

(** The literal [statusCounts] starts from. *)
Definition no_counts : Counts :=
  [(PENDING, 0%Z); (APPLIED, 0%Z); (VIEWED, 0%Z); (SHORTLISTED, 0%Z);
   (INTERVIEW, 0%Z); (OFFER, 0%Z); (REJECTED, 0%Z); (WITHDRAWN, 0%Z)].

(** The [data] member of the response. *)
Record StatsResponse := {
  total : Z;
  byStatus : Counts;
  thisWeek : Counts
}.

(** The conditions of the two queries. *)
Definition of_user (userId : string) (a : Application.t) : bool :=
  (Application.userId a =? userId)%string.

Definition of_user_since (userId : string) (since : DateTime)
    (a : Application.t) : bool :=
  (Application.userId a =? userId)%string
  && (since <=? Application.createdAt a)%Z.

(** Seven days, in milliseconds: [7 * 24 * 60 * 60 * 1000]. *)
Definition week : Z := (7 * 24 * 60 * 60 * 1000)%Z.

(** Get application stats: [GET /api/v1/applications/stats].  The counts
    are whole numbers far below [2^53], on which the additions of
    JavaScript are exact. *)
Definition getApplicationStats (clock : Clock) (req : Request)
  : Handler StatsResponse :=
  match user req with
  | None => throw (Thrown (Js.TypeError "Cannot read properties of undefined"))
  | Some u =>
      let userId := id u in
      stats <~ application_groupBy_status (of_user userId) ;;
      let statusCounts := assign_all stats no_counts in
      let total := fold_left Z.add (map snd statusCounts) 0%Z in
      weeklyStats <~
        application_groupBy_status
          (of_user_since userId (now clock - week)%Z) ;;
      let weeklyCounts := assign_all weeklyStats [] in
      ret {| total := total;
             byStatus := statusCounts;
             thisWeek := weeklyCounts |}
  end.

(** The number of rows of [rows] selected by [where_] that have a
    status. *)
Definition count_status (where_ : Application.t -> bool)
    (status : ApplicationStatus) (rows : list Application.t) : Z :=
  Z.of_nat
    (List.length
       (filter
          (fun a => where_ a && status_eqb (Application.status a) status)
          rows)).

End ApplicationStats.

(* ================================================================== *)
(** * The error middleware *)

Module ErrorMiddleware.

(** An element of the [path] of a validation issue: a key or an index. *)
Inductive PathSegment :=
| Key (name : string)
| Index (i : nat).

Record ZodIssue := {
  path : list PathSegment;
  issue_message : string
}.

(** The classes [errorHandler] tells apart, in the order of its
    [instanceof] tests, each with what the handler reads of it. *)
Inductive ErrorClass :=
| IsZodError (errors : list ZodIssue)
| IsPrismaClientKnownRequestError (code : string)
| IsPrismaClientValidationError
| IsApiError (statusCode : Z) (message : string) (code : option string)
| IsError (message : string).

(** An error object: its class and [err.stack]. *)
Record Thrown := {
  class : ErrorClass;
  stack : option string
}.

(** The body of an error response; a member that is [undefined] is left
    out of the JSON document. *)
Record ErrorResponse := {
  success : bool;
  response_message : string;
  response_code : option string;
  response_errors : option (list (string * string));
  response_stack : option string
}.

Definition segment_text (s : PathSegment) : string :=
  match s with
  | Key name => name
  | Index i => Js.string_of_nat i
  end.

(** [e.path.join('.')]. *)
Definition join_path (segments : list PathSegment) : string :=
  String.concat "." (map segment_text segments).

(** [errorHandler]: the status and the body of the response.  [NODE_ENV]
    is [process.env.NODE_ENV]. *)
Definition errorHandler (NODE_ENV : option string) (err : Thrown)
  : Z * ErrorResponse :=
  let '(statusCode, message, code, errors) :=
    match class err with
    | IsZodError issues =>
        (400%Z, "Validation error"%string, Some "VALIDATION_ERROR"%string,
         Some (map (fun e => (join_path (path e), issue_message e)) issues))
    | IsPrismaClientKnownRequestError c =>
        if (c =? "P2002")%string then
          (409%Z, "Resource already exists"%string,
           Some "DUPLICATE_ERROR"%string, None)
        else if (c =? "P2025")%string then
          (404%Z, "Resource not found"%string, Some "NOT_FOUND"%string, None)
        else if (c =? "P2003")%string then
          (400%Z, "Foreign key constraint failed"%string,
           Some "CONSTRAINT_ERROR"%string, None)
        else
          (500%Z, "Database error"%string, Some "DATABASE_ERROR"%string, None)
    | IsPrismaClientValidationError =>
        (400%Z, "Invalid data provided"%string,
         Some "VALIDATION_ERROR"%string, None)
    | IsApiError statusCode message code => (statusCode, message, code, None)
    | IsError message => (500%Z, message, None, None)
    end in
  (statusCode,
   {| success := false;
      response_message := message;
      response_code := code;
      response_errors := errors;
      response_stack :=
        match NODE_ENV with
        | Some env =>
            if (env =? "development")%string && Js.truthy_str (stack err)
            then stack err else None
        | None => None
        end |}).

(** The error object behind what a handler throws; [stack_of] gives its
    stack trace. *)
Definition thrown (stack_of : Prisma.error -> option string)
    (e : Prisma.error) : Thrown :=
  {| class :=
       match e with
       | Prisma.ApiError statusCode message code =>
           IsApiError statusCode message (Some code)
       | Prisma.PrismaClientKnownRequestError code =>
           IsPrismaClientKnownRequestError code
       | Prisma.Thrown (Js.TypeError msg) | Prisma.Thrown (Js.SyntaxError msg)
       | Prisma.Thrown (Js.Error msg) | Prisma.Thrown (Js.Rejected msg) =>
           IsError msg
       end;
     stack := stack_of e |}.

(** A handler wrapped in [asyncHandler] and mounted before [errorHandler]:
    what the handler throws is passed to [next], and the error middleware
    answers it; what it returns is sent with status 200. *)
Definition route {A} (NODE_ENV : option string)
    (stack_of : Prisma.error -> option string) (handler : Prisma.Handler A)
    (db : Prisma.Database) : Prisma.Database * (Z * (ErrorResponse + A)) :=
  match handler db with
  | (db', inr a) => (db', (200%Z, inr a))
  | (db', inl e) =>
      let '(statusCode, body) := errorHandler NODE_ENV (thrown stack_of e) in
      (db', (statusCode, inl body))
  end.

(** An answer that is an error response with a given status, message and
    code. *)
Definition refused {A} (answer : Z * (ErrorResponse + A)) (statusCode : Z)
    (message code : string) : Prop :=
  exists body,
    answer = (statusCode, inl body)
    /\ success body = false
    /\ response_message body = message
    /\ response_code body = Some code.

End ErrorMiddleware.

(* ================================================================== *)
(** * States of the store the statements below speak of *)

Module StoreStates.
Import Prisma Express.


(** The user has hidden the job: the cache entry of the pair is marked. *)
Definition hidden_in (db : Database) (userId jobId : string) : Prop :=
  exists c,
    find (cache_key userId jobId) (jobMatchCache db) = Some c
    /\ JobMatchCache.isHidden c = true.

(** The cache entries the [matchedJobs] query of [autoApply] selects
    from, for a user with the given preferences. *)
Definition eligible_entries (userId : string)
    (preferences : UserPreferences.t) (db : Database)
  : list JobMatchCache.t :=
  filter
    (ApplicationController.eligible userId
       (UserPreferences.autoApplyThreshold preferences))
    (jobMatchCache db).

(** The number of rows of [rows] that score strictly higher than [c]. *)
Definition outranking (c : JobMatchCache.t) (rows : list JobMatchCache.t)
  : nat :=
  List.length
    (filter
       (fun r => (JobMatchCache.matchScore c <? JobMatchCache.matchScore r)%Z)
       rows).

(** The number of rows the [matchedJobs] query takes:
    [autoApplyMaxPerDay - dailyCount]. *)
Definition remaining_quota (clock : Clock) (userId : string)
    (preferences : UserPreferences.t) (db : Database) : nat :=
  Z.to_nat
    (UserPreferences.autoApplyMaxPerDay preferences
     - ApplicationController.dailyCount_on clock userId db).


(** A job row with its counter of applications put aside. *)
Definition without_count (j : Job.t) : Job.t :=
  {| Job.id := Job.id j; Job.title := Job.title j;
     Job.company := Job.company j;
     Job.skillsRequired := Job.skillsRequired j;
     Job.experienceLevel := Job.experienceLevel j;
     Job.salaryMax := Job.salaryMax j; Job.location := Job.location j;
     Job.locationType := Job.locationType j;
     Job.applicationCount := 0%Z |}.

(** The applications of a user to a job. *)
Definition applications_to (db : Database) (userId jobId : string)
  : list Application.t :=
  filter (application_key userId jobId) (applications db).

(** The store of the examples, with one automatic application a day. *)
Definition store_one_a_day : Database :=
  {| userPreferences :=
       [{| UserPreferences.userId := "user-1";
           UserPreferences.autoApplyEnabled := true;
           UserPreferences.autoApplyThreshold := 5000%Z;
           UserPreferences.autoApplyMaxPerDay := 1%Z |}];
     jobs := jobs (Examples.store true);
     applications := applications (Examples.store true);
     jobMatchCache := jobMatchCache (Examples.store true) |}.

End StoreStates.

(* ================================================================== *)
(** * Inputs of the batch scorer used in the statements below *)

Module BatchExamples.
Import Js Matching.

(** Every completion request times out. *)
Definition all_rejected (_ : nat) : exn + ChatCompletion :=
  inl (Rejected "timeout").

(** The requests of a batch settle last first. *)
Definition last_first (_ : nat) (batch : list (nat * Job.t))
  : list (nat * Job.t) :=
  rev batch.

Definition three_jobs : list Job.t :=
  [Examples.scenario_job "Berlin"; Examples.javascript_job;
   Examples.entry_job].

End BatchExamples.

(* ================================================================== *)
(** * Properties of the runtime operations *)

Section JsFacts.
Import Js.

Lemma prefix_refl (s : string) : String.prefix s s = true.
Proof.
  induction s as [|c s IH]; simpl; [reflexivity|].
  destruct (ascii_dec c c) as [_|ne]; [exact IH | now elim ne].
Qed.

Lemma includes_refl (s : string) : includes s s = true.
Proof.
  destruct s as [|c s]; [reflexivity|].
  unfold includes; fold includes.
  now rewrite prefix_refl.
Qed.

End JsFacts.

(* ================================================================== *)
(** * Properties of binary64 arithmetic

    The operations on [float] are specified by the functions of
    [SpecFloat] on mantissas and exponents; the bounds below are read off
    those functions. *)

Section Binary64Facts.
Import Js Binary64.
Local Open Scope Z_scope.

(** ** Digits *)
Lemma digits2_pos_bounds (p : positive) :
  2 ^ (Zpos (digits2_pos p) - 1) <= Zpos p < 2 ^ Zpos (digits2_pos p).
Proof.
  induction p as [p IH|p IH|]; cbn [digits2_pos].
  - rewrite Pos2Z.inj_succ, Z.pow_succ_r by lia.
    replace (Z.succ (Zpos (digits2_pos p)) - 1)
      with (Z.succ (Zpos (digits2_pos p) - 1)) by lia.
    rewrite Z.pow_succ_r by lia. rewrite (Pos2Z.inj_xI p).
    revert IH. generalize (2 ^ (Zpos (digits2_pos p) - 1)).
    generalize (2 ^ Zpos (digits2_pos p)). lia.
  - rewrite Pos2Z.inj_succ, Z.pow_succ_r by lia.
    replace (Z.succ (Zpos (digits2_pos p)) - 1)
      with (Z.succ (Zpos (digits2_pos p) - 1)) by lia.
    rewrite Z.pow_succ_r by lia. rewrite (Pos2Z.inj_xO p).
    revert IH. generalize (2 ^ (Zpos (digits2_pos p) - 1)).
    generalize (2 ^ Zpos (digits2_pos p)). lia.
  - simpl. lia.
Qed.

Lemma Zdigits2_le (m k : Z) :
  0 <= m -> 0 <= k -> m < 2 ^ k -> Zdigits2 m <= k.
Proof.
  intros Hm Hk Hlt. destruct m as [|p|p]; simpl; [lia| |lia].
  destruct (digits2_pos_bounds p) as [Hlo _].
  destruct (Z.le_gt_cases (Zpos (digits2_pos p)) k) as [|Hgt]; [assumption|].
  assert (2 ^ k <= 2 ^ (Zpos (digits2_pos p) - 1))
    by (apply Z.pow_le_mono_r; lia).
  lia.
Qed.

(** ** Shifting right *)
Lemma shr_1_bounds mrs :
  0 <= shr_m mrs ->
  0 <= shr_m (shr_1 mrs) /\ 2 * shr_m (shr_1 mrs) <= shr_m mrs.
Proof.
  destruct mrs as [m r s]. simpl.
  destruct m as [|[p|p|]|p]; simpl; intros H; try lia.
Qed.

Lemma iter_shr_1_bounds (p : positive) : forall mrs,
  0 <= shr_m mrs ->
  0 <= shr_m (iter_pos shr_1 p mrs)
  /\ shr_m (iter_pos shr_1 p mrs) * 2 ^ Zpos p <= shr_m mrs.
Proof.
  induction p as [p IH|p IH|]; intros mrs Hm; cbn [iter_pos].
  - destruct (shr_1_bounds mrs Hm) as [H0 H1].
    destruct (IH _ H0) as [H2 H3].
    destruct (IH _ H2) as [H4 H5].
    split; [assumption|].
    rewrite (Pos2Z.inj_xI p).
    replace (2 * Zpos p + 1) with (Zpos p + Zpos p + 1) by lia.
    rewrite !Z.pow_add_r by lia. change (2 ^ 1) with 2.
    assert (0 < 2 ^ Zpos p) by (apply Z.pow_pos_nonneg; lia). nia.
  - destruct (IH _ Hm) as [H2 H3].
    destruct (IH _ H2) as [H4 H5].
    split; [assumption|].
    rewrite (Pos2Z.inj_xO p).
    replace (2 * Zpos p) with (Zpos p + Zpos p) by lia.
    rewrite !Z.pow_add_r by lia.
    assert (0 < 2 ^ Zpos p) by (apply Z.pow_pos_nonneg; lia). nia.
  - destruct (shr_1_bounds mrs Hm) as [H0 H1]. split; [assumption|].
    change (2 ^ 1) with 2. lia.
Qed.

Lemma shr_bounds mrs e n :
  0 <= shr_m mrs ->
  snd (shr mrs e n) = e + Z.max 0 n
  /\ 0 <= shr_m (fst (shr mrs e n))
  /\ shr_m (fst (shr mrs e n)) * 2 ^ Z.max 0 n <= shr_m mrs.
Proof.
  intros Hm. destruct n as [|p|p]; simpl.
  - rewrite Z.add_0_r. split; [reflexivity|]. split; [assumption|]. lia.
  - destruct (iter_shr_1_bounds p mrs Hm) as [H0 H1].
    split; [reflexivity|]. split; assumption.
  - rewrite Z.add_0_r. split; [reflexivity|]. split; [assumption|]. lia.
Qed.

Lemma shr_record_of_loc_m m l : shr_m (shr_record_of_loc m l) = m.
Proof. destruct l as [|[]]; reflexivity. Qed.

Lemma round_nearest_even_bounds x l :
  x <= round_nearest_even x l <= x + 1.
Proof.
  unfold round_nearest_even. destruct l as [|[]]; try lia.
  destruct (Z.even x); lia.
Qed.

Lemma fexp_le_0 x : x <= 53 -> fexp prec emax x <= 0.
Proof. unfold fexp, SpecFloat.emin, prec, emax. lia. Qed.

(** One right shift to the exponent [fexp] gives: the bound [R] on the
    value is kept. *)
Lemma shift_step (m e R mt : Z) :
  let k := Z.max 0 (fexp prec emax (Zdigits2 m + e) - e) in
  0 <= m -> e <= 0 -> 1 <= R <= 2 ^ 52 -> m <= R * 2 ^ (- e) ->
  0 <= mt -> mt * 2 ^ k <= m ->
  e + k <= 0
  /\ mt <= R * 2 ^ (- (e + k))
  /\ (m < R * 2 ^ (- e) -> mt < R * 2 ^ (- (e + k))).
Proof.
  intros k Hm He HR Hle Hmt Hsh.
  assert (Hpow : 0 < 2 ^ (- e)) by (apply Z.pow_pos_nonneg; lia).
  assert (Hd : Zdigits2 m <= 53 - e).
  { apply Zdigits2_le; [lia | lia |].
    replace (53 - e) with (53 + - e) by lia.
    rewrite Z.pow_add_r by lia.
    assert (2 ^ 52 < 2 ^ 53) by (apply Z.pow_lt_mono_r; lia). nia. }
  assert (Hk : e + k <= 0).
  { unfold k. pose proof (fexp_le_0 (Zdigits2 m + e)). lia. }
  assert (Hk0 : 0 <= k) by (unfold k; lia).
  assert (Hsplit : 2 ^ (- e) = 2 ^ (- (e + k)) * 2 ^ k).
  { rewrite <- Z.pow_add_r by lia. f_equal. lia. }
  assert (Hpk : 0 < 2 ^ k) by (apply Z.pow_pos_nonneg; lia).
  split; [exact Hk|]. rewrite Hsplit in *.
  split.
  - apply (Z.mul_le_mono_pos_r _ _ (2 ^ k) Hpk). lia.
  - intros Hlt. apply (Z.mul_lt_mono_pos_r (2 ^ k) _ _ Hpk). lia.
Qed.

(** The result of rounding a non-negative mantissa: never a NaN, of the
    sign asked for, and of a value within any bound [R] the exact value is
    strictly under. *)
Lemma binary_round_aux_bound (s : bool) (m e : Z) (l : location) (R : Z) :
  0 <= m -> e <= 0 -> 1 <= R <= 2 ^ 52 -> m < R * 2 ^ (- e) ->
  match binary_round_aux prec emax s m e l with
  | S754_zero s' => s' = s
  | S754_finite s' m' e' => s' = s /\ e' <= 0 /\ Zpos m' <= R * 2 ^ (- e')
  | _ => False
  end.
Proof.
  intros Hm He HR Hlt.
  unfold binary_round_aux, shr_fexp.
  set (n1 := fexp prec emax (Zdigits2 m + e) - e).
  destruct (shr_bounds (shr_record_of_loc m l) e n1) as (He1 & Hm1 & Hb1);
    [rewrite shr_record_of_loc_m; exact Hm|].
  destruct (shr (shr_record_of_loc m l) e n1) as [mrs1 e1].
  cbn [fst snd] in He1, Hm1, Hb1. rewrite shr_record_of_loc_m in Hb1.
  destruct (shift_step m e R (shr_m mrs1) Hm He HR (Z.lt_le_incl _ _ Hlt)
              Hm1 Hb1) as (Hk1 & _ & Hlt1).
  fold n1 in Hk1, Hlt1. rewrite <- He1 in Hk1, Hlt1. specialize (Hlt1 Hlt).
  set (m1 := round_nearest_even (shr_m mrs1) (loc_of_shr_record mrs1)).
  pose proof (round_nearest_even_bounds (shr_m mrs1)
                (loc_of_shr_record mrs1)) as Hr. fold m1 in Hr.
  set (n2 := fexp prec emax (Zdigits2 m1 + e1) - e1).
  destruct (shr_bounds (shr_record_of_loc m1 loc_Exact) e1 n2)
    as (He2 & Hm2 & Hb2); [simpl; lia|].
  destruct (shr (shr_record_of_loc m1 loc_Exact) e1 n2) as [mrs2 e2].
  cbn [fst snd] in He2, Hm2, Hb2. cbn [shr_record_of_loc shr_m] in Hb2.
  destruct (shift_step m1 e1 R (shr_m mrs2)) as (Hk2 & Hle2 & _);
    try lia; try assumption.
  fold n2 in Hk2, Hle2. rewrite <- He2 in Hk2, Hle2.
  destruct (shr_m mrs2) as [|p|p]; [reflexivity | | lia].
  destruct (Z.leb_spec e2 (emax - prec)) as [_|Hbig];
    [auto | unfold emax, prec in Hbig; lia].
Qed.

(** The same without a bound: a result of the sign asked for, possibly
    infinite, never a NaN. *)
Lemma binary_round_aux_sign (s : bool) (m e : Z) (l : location) :
  0 <= m ->
  match binary_round_aux prec emax s m e l with
  | S754_zero s' | S754_finite s' _ _ | S754_infinity s' => s' = s
  | S754_nan => False
  end.
Proof.
  intros Hm. unfold binary_round_aux, shr_fexp.
  set (n1 := fexp prec emax (Zdigits2 m + e) - e).
  destruct (shr_bounds (shr_record_of_loc m l) e n1) as (_ & Hm1 & _);
    [rewrite shr_record_of_loc_m; exact Hm|].
  destruct (shr (shr_record_of_loc m l) e n1) as [mrs1 e1].
  cbn [fst] in Hm1.
  set (m1 := round_nearest_even (shr_m mrs1) (loc_of_shr_record mrs1)).
  pose proof (round_nearest_even_bounds (shr_m mrs1)
                (loc_of_shr_record mrs1)) as Hr. fold m1 in Hr.
  set (n2 := fexp prec emax (Zdigits2 m1 + e1) - e1).
  destruct (shr_bounds (shr_record_of_loc m1 loc_Exact) e1 n2)
    as (_ & Hm2 & _); [simpl; lia|].
  destruct (shr (shr_record_of_loc m1 loc_Exact) e1 n2) as [mrs2 e2].
  cbn [fst] in Hm2.
  destruct (shr_m mrs2) as [|p|p]; [reflexivity | | lia].
  destruct (e2 <=? emax - prec); reflexivity.
Qed.

(** ** Conversion of integers *)
Lemma iter_xO_val (p k : positive) :
  Zpos (Pos.iter xO p k) = Zpos p * 2 ^ Zpos k.
Proof.
  induction k as [|k IH] using Pos.peano_ind.
  - simpl. rewrite (Pos2Z.inj_xO p). lia.
  - rewrite Pos.iter_succ, Pos2Z.inj_succ, Z.pow_succ_r by lia.
    rewrite (Pos2Z.inj_xO (Pos.iter xO p k)), IH. lia.
Qed.

Lemma iter_xO_digits (p k : positive) :
  digits2_pos (Pos.iter xO p k) = (digits2_pos p + k)%positive.
Proof.
  induction k as [|k IH] using Pos.peano_ind.
  - simpl. now rewrite Pos.add_1_r.
  - rewrite Pos.iter_succ. cbn [digits2_pos]. rewrite IH.
    now rewrite Pos.add_succ_r.
Qed.

Lemma binary_round_aux_canonical (s : bool) (m : positive) (e : Z) :
  fexp prec emax (Zpos (digits2_pos m) + e) = e ->
  e <= emax - prec ->
  binary_round_aux prec emax s (Zpos m) e loc_Exact = S754_finite s m e.
Proof.
  intros Hc He. unfold binary_round_aux, shr_fexp. cbn [Zdigits2].
  rewrite Hc, Z.sub_diag. cbn [shr shr_record_of_loc].
  cbn [shr_m loc_of_shr_record round_nearest_even Zdigits2].
  rewrite Hc, Z.sub_diag. cbn [shr shr_m].
  destruct (Z.leb_spec e (emax - prec)); [reflexivity | lia].
Qed.

Lemma binary_round_exact (p : positive) :
  Zpos p < 2 ^ 53 ->
  exists m e,
    binary_round prec emax false p 0 = S754_finite false m e
    /\ e <= 0 /\ Zpos m = Zpos p * 2 ^ (- e).
Proof.
  intros Hp.
  assert (Hd : 1 <= Zpos (digits2_pos p) <= 53).
  { split; [lia|]. apply (Zdigits2_le (Zpos p) 53); lia. }
  unfold binary_round, shl_align. rewrite Z.add_0_r, Z.sub_0_r.
  assert (Hf : fexp prec emax (Zpos (digits2_pos p))
               = Zpos (digits2_pos p) - 53)
    by (unfold fexp, SpecFloat.emin, prec, emax; lia).
  rewrite Hf.
  destruct (Zpos (digits2_pos p) - 53) as [|k|k] eqn:Hk; [ | lia | ].
  - (* already 53 digits *)
    exists p, 0. split; [|split; [lia | simpl; lia]].
    apply binary_round_aux_canonical; [|unfold emax, prec; lia].
    rewrite Z.add_0_r, Hf. reflexivity.
  - (* shifted left by [k] *)
    exists (Pos.iter xO p k), (Zneg k).
    split; [|split; [lia | rewrite iter_xO_val; reflexivity]].
    apply binary_round_aux_canonical; [|unfold emax, prec; lia].
    rewrite iter_xO_digits, Pos2Z.inj_add.
    replace (Zpos (digits2_pos p) + Zpos k + Zneg k)
      with (Zpos (digits2_pos p)) by lia.
    now rewrite Hf.
Qed.

Lemma Prim2SF_Z2float_pos (z : Z) :
  0 < z < 2 ^ 53 ->
  exists m e,
    Prim2SF (Z2float z) = S754_finite false m e
    /\ e <= 0 /\ Zpos m = z * 2 ^ (- e).
Proof.
  intros Hz. destruct z as [|p|p]; try lia.
  unfold Z2float. rewrite of_uint63_spec, Uint63.of_Z_spec.
  rewrite Z.mod_small.
  - apply binary_round_exact. lia.
  - split; [lia|]. change Uint63.wB with (2 ^ 63).
    assert (2 ^ 53 < 2 ^ 63) by (apply Z.pow_lt_mono_r; lia). lia.
Qed.

Lemma not_positive_at_most R x : not_positive x -> at_most R x.
Proof. destruct x as [[]|[]| |[] m e]; simpl; tauto. Qed.

Lemma binary_normalize_nonneg (z : Z) :
  0 <= z ->
  match binary_normalize prec emax z 0 false with
  | S754_zero s | S754_finite s _ _ | S754_infinity s => s = false
  | S754_nan => False
  end.
Proof.
  intros Hz. destruct z as [|p|p]; [reflexivity | | lia].
  unfold binary_normalize, binary_round.
  destruct (shl_align p 0 _) as [mz ez].
  apply binary_round_aux_sign. lia.
Qed.

Lemma Prim2SF_Z2float_nonpos (z : Z) :
  z <= 0 -> not_positive (Prim2SF (Z2float z)).
Proof.
  intros Hz. destruct z as [|p|p]; [exact I | lia |].
  unfold Z2float. rewrite opp_spec, of_uint63_spec.
  pose proof (binary_normalize_nonneg
                (Uint63.to_Z (Uint63.of_Z (Zpos p)))) as H.
  specialize (H (proj1 (Uint63.to_Z_bounded _))).
  destruct (binary_normalize prec emax _ 0 false) as [s|s| |s m e];
    simpl in *; subst; try tauto; exact I.
Qed.

(** ** Division *)
Lemma div_eucl_nonneg (n d : Z) :
  0 <= n -> 0 < d ->
  0 <= fst (Z.div_eucl n d) /\ fst (Z.div_eucl n d) * d <= n.
Proof.
  intros Hn Hd. pose proof (Z_div_mod n d ltac:(lia)) as H.
  destruct (Z.div_eucl n d) as [q r]. cbn [fst]. nia.
Qed.

Lemma SFdiv_core_binary_bounds (m1 m2 : positive) (e1 e2 : Z) :
  let e' :=
    Z.min (fexp prec emax
             (Zpos (digits2_pos m1) + e1 - (Zpos (digits2_pos m2) + e2)))
      (e1 - e2) in
  exists q l,
    SFdiv_core_binary prec emax (Zpos m1) e1 (Zpos m2) e2 = (q, e', l)
    /\ 0 <= q
    /\ q * Zpos m2 <= Zpos m1 * 2 ^ (e1 - e2 - e').
Proof.
  intros e'. unfold SFdiv_core_binary. cbn [Zdigits2]. fold e'.
  assert (Hs : 0 <= e1 - e2 - e') by (unfold e'; lia).
  set (m' := match e1 - e2 - e' with
             | 0 => Zpos m1
             | Zpos _ => Z.shiftl (Zpos m1) (e1 - e2 - e')
             | Zneg _ => 0
             end).
  assert (Hm' : m' = Zpos m1 * 2 ^ (e1 - e2 - e')).
  { unfold m'. destruct (e1 - e2 - e') as [|s|s] eqn:Es; [simpl; lia | | lia].
    rewrite Z.shiftl_mul_pow2 by lia. reflexivity. }
  assert (0 < 2 ^ (e1 - e2 - e')) by (apply Z.pow_pos_nonneg; lia).
  destruct (div_eucl_nonneg m' (Zpos m2)) as [Hq Hqm]; [nia | lia |].
  destruct (Z.div_eucl m' (Zpos m2)) as [q r]. cbn [fst] in Hq, Hqm.
  exists q, (new_location (Zpos m2) r). repeat split; [assumption | lia].
Qed.

Lemma SFdiv_at_most_1 (a : Z) (x : spec_float) (ma : positive) (ea : Z) :
  under a x -> ea <= 0 -> Zpos ma = a * 2 ^ (- ea) ->
  at_most 1 (SFdiv prec emax x (S754_finite false ma ea)).
Proof.
  intros Hx Hea Hma.
  destruct x as [s|[]| |[] mb eb]; simpl in Hx; try tauto;
    try exact I.
  - (* negative *)
    apply not_positive_at_most. unfold SFdiv.
    destruct (SFdiv_core_binary_bounds mb ma eb ea) as (q & l & -> & Hq & _).
    pose proof (binary_round_aux_sign (xorb true false) q
                  (Z.min (fexp prec emax
                            (Zpos (digits2_pos mb) + eb
                             - (Zpos (digits2_pos ma) + ea))) (eb - ea))
                  l Hq) as H.
    destruct (binary_round_aux _ _ _ _ _ _) as [s|s| |s m e];
      simpl in *; subst; tauto || exact I.
  - (* positive *)
    destruct Hx as (b & Hb & Heb & Hmb).
    unfold SFdiv.
    destruct (SFdiv_core_binary_bounds mb ma eb ea) as (q & l & -> & Hq & Hqm).
    set (e' := Z.min _ _) in *.
    assert (HA : 0 < 2 ^ (- eb)) by (apply Z.pow_pos_nonneg; lia).
    assert (HB : 0 < 2 ^ (- ea)) by (apply Z.pow_pos_nonneg; lia).
    assert (Hval : Zpos mb * 2 ^ (- ea) < Zpos ma * 2 ^ (- eb)).
    { rewrite Hmb, Hma. nia. }
    assert (He' : e' <= 0).
    { assert (HX : Zpos (digits2_pos mb) + eb - (Zpos (digits2_pos ma) + ea)
                   <= 0).
      { destruct (digits2_pos_bounds mb) as [Hlo _].
        destruct (digits2_pos_bounds ma) as [_ Hhi].
        assert (Hlt : 2 ^ (Zpos (digits2_pos mb) - 1 + - ea)
                      < 2 ^ (Zpos (digits2_pos ma) + - eb)).
        { rewrite !Z.pow_add_r by lia. nia. }
        apply Z.pow_lt_mono_r_iff in Hlt; lia. }
      pose proof (fexp_le_0 (Zpos (digits2_pos mb) + eb
                             - (Zpos (digits2_pos ma) + ea))).
      unfold e'. lia. }
    assert (HC : 0 < 2 ^ (- e')) by (apply Z.pow_pos_nonneg; lia).
    assert (Hs : 0 <= eb - ea - e') by (unfold e'; lia).
    assert (Hrel : 2 ^ (eb - ea - e') * 2 ^ (- eb) = 2 ^ (- ea) * 2 ^ (- e')).
    { rewrite <- !Z.pow_add_r by lia. f_equal. lia. }
    assert (Hlt : q < 1 * 2 ^ (- e')).
    { rewrite Z.mul_1_l.
      destruct (Z.lt_ge_cases q (2 ^ (- e'))) as [|Hge]; [assumption|].
      exfalso.
      assert (H1 : 2 ^ (- e') * Zpos ma <= Zpos mb * 2 ^ (eb - ea - e'))
        by nia.
      assert (H2 : 2 ^ (- e') * Zpos ma * 2 ^ (- eb)
                   <= Zpos mb * (2 ^ (eb - ea - e') * 2 ^ (- eb))) by nia.
      rewrite Hrel in H2. nia. }
    assert (HR : 1 <= 1 <= 2 ^ 52) by (split; [lia | discriminate]).
    pose proof (binary_round_aux_bound (xorb false false) q e' l 1 Hq He'
                  HR Hlt) as H.
    destruct (binary_round_aux _ _ _ _ _ _) as [s|s| |s m e];
      simpl in *; try tauto; try exact I.
    destruct H as (-> & H). exact H.
Qed.

(** ** Multiplication by 100 *)
Lemma Prim2SF_100 : Prim2SF 100%float = sf100.
Proof. vm_compute. reflexivity. Qed.

Lemma SFmul_100_at_most (x : spec_float) :
  valid_binary x = true -> at_most 1 x ->
  at_most 100 (SFmul prec emax x sf100).
Proof.
  intros Hv Hx.
  destruct x as [s|[]| |[] m e]; cbn [at_most not_positive] in Hx;
    try tauto; try exact I.
  - (* negative *)
    apply not_positive_at_most. unfold SFmul, sf100.
    pose proof (binary_round_aux_sign (xorb true false)
                  (Zpos (m * 7036874417766400)) (e + -46) loc_Exact
                  ltac:(lia)) as H.
    destruct (binary_round_aux _ _ _ _ _ _) as [s|s| |s m' e'];
      simpl in *; subst; tauto || exact I.
  - (* positive, at most 1 *)
    destruct Hx as [He Hm]. rewrite Z.mul_1_l in Hm.
    assert (HP : 0 < 2 ^ (- e)) by (apply Z.pow_pos_nonneg; lia).
    destruct (Z.eq_dec (Zpos m) (2 ^ (- e))) as [Heq|Hne].
    + (* exactly 1 *)
      simpl in Hv. apply andb_true_iff in Hv as [Hc _].
      unfold canonical_mantissa in Hc. apply Z.eqb_eq in Hc.
      destruct (digits2_pos_bounds m) as [Hlo Hhi]. rewrite Heq in Hlo, Hhi.
      apply Z.pow_le_mono_r_iff in Hlo; [|lia|lia].
      apply Z.pow_lt_mono_r_iff in Hhi; [|lia|lia].
      assert (Hd : Zpos (digits2_pos m) + e = 1) by lia.
      rewrite Hd in Hc. vm_compute in Hc. subst e.
      change (2 ^ (- -52)) with (Zpos 4503599627370496) in Heq.
      injection Heq as ->. vm_compute. split; discriminate.
    + (* under 1 *)
      unfold SFmul, sf100.
      assert (HR : 1 <= 100 <= 2 ^ 52) by (split; [lia | discriminate]).
      assert (Hlt : Zpos (m * 7036874417766400) < 100 * 2 ^ (- (e + -46))).
      { rewrite Pos2Z.inj_mul.
        replace (- (e + -46)) with (- e + 46) by lia.
        rewrite Z.pow_add_r by lia.
        change (2 ^ 46) with 70368744177664.
        change (Zpos 7036874417766400) with (100 * 70368744177664). nia. }
      pose proof (binary_round_aux_bound (xorb false false)
                    (Zpos (m * 7036874417766400)) (e + -46) loc_Exact 100
                    ltac:(lia) ltac:(lia) HR Hlt) as H.
      destruct (binary_round_aux _ _ _ _ _ _) as [s|s| |s m' e'];
        simpl in *; try tauto; try exact I.
      destruct H as (-> & H). exact H.
Qed.

(** ** Comparison with 100 *)
Lemma SFltb_100_not_positive (x : spec_float) :
  not_positive x -> SFltb sf100 x = false.
Proof. destruct x as [s|[]| |[] m e]; simpl; tauto || reflexivity. Qed.

Lemma ltb_100_Z2float_small (n : Z) :
  0 <= n <= 100 -> (100 <? Z2float n)%float = false.
Proof.
  intros Hn.
  assert (H : forallb (fun k => negb (100 <? Z2float (Z.of_nat k))%float)
                (seq 0 101) = true) by (vm_compute; reflexivity).
  rewrite forallb_forall in H.
  specialize (H (Z.to_nat n)). rewrite Z2Nat.id in H by lia.
  apply negb_true_iff, H, in_seq. lia.
Qed.

(** ** Rounding to an integer *)
Lemma Math_round_at_most_100 (y : float) :
  at_most 100 (Prim2SF y) -> (100 <? Math_round y)%float = false.
Proof.
  intros Hy. pose proof (Prim2SF_valid y) as Hv.
  unfold Math_round.
  destruct (Prim2SF y) as [s|s| |s m e] eqn:Ey.
  - rewrite ltb_spec, Prim2SF_100, Ey. reflexivity.
  - rewrite ltb_spec, Prim2SF_100, Ey. destruct s; [reflexivity | elim Hy].
  - elim Hy.
  - destruct (Z.leb_spec 0 e) as [He|He].
    + rewrite ltb_spec, Prim2SF_100, Ey.
      destruct s; [reflexivity|]. exfalso.
      cbn [at_most] in Hy. destruct Hy as [He0 Hm].
      assert (e = 0) by lia. subst e. change (2 ^ (- 0)) with 1 in Hm.
      simpl in Hv. apply andb_true_iff in Hv as [Hc _].
      unfold canonical_mantissa in Hc. apply Z.eqb_eq in Hc.
      rewrite Z.add_0_r in Hc.
      assert (Hd : Zpos (digits2_pos m) <= 7).
      { apply (Zdigits2_le (Zpos m) 7); [lia | lia |].
        change (2 ^ 7) with 128. lia. }
      unfold fexp, SpecFloat.emin, prec, emax in Hc. lia.
    + assert (HP : 0 < 2 ^ (- e)) by (apply Z.pow_pos_nonneg; lia).
      assert (HP2 : 2 ^ (1 - e) = 2 * 2 ^ (- e)).
      { replace (1 - e) with (Z.succ (- e)) by lia.
        now rewrite Z.pow_succ_r by lia. }
      destruct s.
      * (* negative *)
        set (n := (2 * Zneg m + 2 ^ (- e)) / 2 ^ (1 - e)).
        assert (Hn : n <= 0).
        { unfold n. rewrite HP2.
          assert ((2 * Zneg m + 2 ^ (- e)) / (2 * 2 ^ (- e)) < 1).
          { apply Z.div_lt_upper_bound; lia. }
          lia. }
        destruct (Z.eqb_spec n 0) as [_|Hn0]; [reflexivity|].
        rewrite ltb_spec, Prim2SF_100.
        apply SFltb_100_not_positive, Prim2SF_Z2float_nonpos. lia.
      * (* positive *)
        cbn [at_most] in Hy. destruct Hy as [_ Hm].
        set (n := (2 * Zpos m + 2 ^ (- e)) / 2 ^ (1 - e)).
        assert (Hn : 0 <= n <= 100).
        { unfold n. rewrite HP2. split.
          - apply Z.div_pos; lia.
          - assert ((2 * Zpos m + 2 ^ (- e)) / (2 * 2 ^ (- e)) < 101).
            { apply Z.div_lt_upper_bound; lia. }
            lia. }
        destruct (Z.eqb_spec n 0) as [_|Hn0]; [reflexivity|].
        now apply ltb_100_Z2float_small.
Qed.

(** ** The percentage of a part in a whole *)
Lemma percent_at_most_100 (a b : Z) :
  0 < a < 2 ^ 53 -> b < a ->
  (100 <? Math_round (Z2float b / Z2float a * 100))%float = false.
Proof.
  intros Ha Hb. apply Math_round_at_most_100.
  rewrite mul_spec, Prim2SF_100.
  apply SFmul_100_at_most; [apply Prim2SF_valid|].
  rewrite div_spec.
  destruct (Prim2SF_Z2float_pos a Ha) as (ma & ea & -> & Hea & Hma).
  apply (SFdiv_at_most_1 a); [|assumption|assumption].
  destruct (Z.lt_trichotomy b 0) as [Hneg|[->|Hpos]].
  - pose proof (Prim2SF_Z2float_nonpos b ltac:(lia)) as H.
    destruct (Prim2SF (Z2float b)) as [s|[]| |[] m e]; simpl in *; tauto.
  - exact I.
  - destruct (Prim2SF_Z2float_pos b ltac:(lia)) as (mb & eb & -> & Heb & Hmb).
    simpl. exists b. repeat split; (lia || assumption).
Qed.

End Binary64Facts.

(* ================================================================== *)
(** * Properties of the deterministic scorer *)

Section BasicScore.
Import Js Matching Examples.

(** Destructs every [match] and [if] of the goal. *)
Ltac split_cases :=
  repeat match goal with
         | |- context [match ?x with _ => _ end] => destruct x; simpl
         end.

(** ** What each block leaves untouched *)

Lemma salary_block_experienceMatch profile job a :
  experienceMatch (acc_details (salary_block profile job a))
  = experienceMatch (acc_details a).
Proof. unfold salary_block. split_cases; reflexivity. Qed.

Lemma location_block_experienceMatch profile job a :
  experienceMatch (acc_details (location_block profile job a))
  = experienceMatch (acc_details a).
Proof. unfold location_block. split_cases; reflexivity. Qed.

Lemma role_block_experienceMatch profile job a :
  experienceMatch (acc_details (role_block profile job a))
  = experienceMatch (acc_details a).
Proof. unfold role_block. split_cases; reflexivity. Qed.

Lemma location_block_salaryMatch profile job a :
  salaryMatch (acc_details (location_block profile job a))
  = salaryMatch (acc_details a).
Proof. unfold location_block. split_cases; reflexivity. Qed.

Lemma role_block_salaryMatch profile job a :
  salaryMatch (acc_details (role_block profile job a))
  = salaryMatch (acc_details a).
Proof. unfold role_block. split_cases; reflexivity. Qed.

(** The experience sub-score of the result is the one the experience block
    leaves. *)
Lemma experienceMatch_of_result profile job :
  experienceMatch (details (calculateBasicMatchScore profile job))
  = experienceMatch
      (acc_details
         (experience_block profile job (skills_block profile job initial))).
Proof.
  unfold calculateBasicMatchScore; cbn [details].
  now rewrite role_block_experienceMatch, location_block_experienceMatch,
    salary_block_experienceMatch.
Qed.

(** The salary sub-score of the result is the one the salary block
    leaves. *)
Lemma salaryMatch_of_result profile job :
  salaryMatch (details (calculateBasicMatchScore profile job))
  = salaryMatch
      (acc_details
         (salary_block profile job
            (experience_block profile job
               (skills_block profile job initial)))).
Proof.
  unfold calculateBasicMatchScore; cbn [details].
  now rewrite role_block_salaryMatch, location_block_salaryMatch.
Qed.

(** The salary block, by cases on the two figures. *)
Lemma salary_block_aligned profile job pmin jmax a :
  UserProfile.salaryMin profile = Some pmin ->
  Job.salaryMax job = Some jmax ->
  (pmin <= jmax)%Z ->
  salaryMatch (acc_details (salary_block profile job a))
  = if (pmin =? 0)%Z || (jmax =? 0)%Z
    then salaryMatch (acc_details a) else 100%float.
Proof.
  intros Hp Hj Hle. unfold salary_block, truthy_num. rewrite Hp, Hj.
  destruct (pmin =? 0)%Z; [reflexivity|].
  destruct (jmax =? 0)%Z; [reflexivity|].
  simpl. destruct (Z.leb_spec pmin jmax); [reflexivity | lia].
Qed.

(** The location block on a remote job whose location string is unrelated
    to the profile's. *)
Lemma location_block_remote profile job ploc jloc a :
  UserProfile.location profile = Some ploc ->
  Job.location job = Some jloc ->
  Job.locationType job = Some REMOTE ->
  ploc <> ""%string ->
  includes (toLowerCase jloc) (toLowerCase ploc) = false ->
  includes (toLowerCase ploc) (toLowerCase jloc) = false ->
  location_block profile job a
  = add_weighted 80%float 0.1%float
      (push "Remote position available"
         (with_details (set_locationMatch 80%float) a)).
Proof.
  intros Hp Hj Ht Hne H1 H2.
  unfold location_block. rewrite Hp, Hj, Ht.
  assert (Hj' : jloc <> ""%string).
  { intros ->. simpl in H2. destruct (toLowerCase ploc); discriminate. }
  unfold truthy_str.
  destruct (String.eqb_spec ploc ""); [contradiction|].
  destruct (String.eqb_spec jloc ""); [contradiction|].
  simpl negb. simpl andb. cbv zeta.
  destruct (String.eqb_spec (toLowerCase ploc) (toLowerCase jloc)) as [e|_].
  - rewrite e, includes_refl in H1. discriminate.
  - rewrite H1, H2. reflexivity.
Qed.

(** The experience block on an entry-level job. *)
Lemma experience_block_entry profile job years a :
  UserProfile.experienceYears profile = Some years ->
  Job.experienceLevel job = Some ENTRY ->
  experienceMatch (acc_details (experience_block profile job a))
  = if (years =? 0)%Z then experienceMatch (acc_details a)
    else if (0 <=? years)%Z then 100%float
    else Math_round (Z2float years / Z2float 0 * 100)%float.
Proof.
  intros Hy Hl. unfold experience_block, truthy_num. rewrite Hy, Hl.
  destruct (years =? 0)%Z; [reflexivity|].
  simpl. destruct (0 <=? years)%Z; reflexivity.
Qed.

(** ** The final score *)

(** C1 (the final score of [calculateBasicMatchScore] is an integer in
    [0, 100] for every profile and job).  The code does not keep to it: the
    skills block counts the profile's skills that match some requirement
    and divides by the number of requirements, so a profile listing "Java"
    and "JavaScript" against the single requirement "JavaScript" gets a
    skills sub-score of 200, and with the experience and salary sub-scores
    at 100 the final score is 120. *)
Theorem basic_score_above_100 :
  skillsMatch (details (calculateBasicMatchScore java_profile javascript_job))
  = 200%float
  /\ score (calculateBasicMatchScore java_profile javascript_job) = 120%float
  /\ (100 <? score (calculateBasicMatchScore java_profile javascript_job))%float
     = true.
Proof. vm_compute. repeat split. Qed.

(** C6: on the example scenario (skills JavaScript and React, four years
    of experience, minimum salary 80000, location "Remote", preferred role
    "Frontend Engineer"; a mid-level remote job titled "Frontend Engineer"
    requiring React and TypeScript and paying up to 90000, whose location
    string neither contains "remote" nor is contained in it, case folded),
    the sub-scores are skills 50, experience 100, salary 100, location 80,
    title bonus 100, and the final score is 78. *)
Theorem example_scenario_scores (profile : UserProfile.t) (job : Job.t)
    (jobLocation : string) :
  UserProfile.skills profile = Some ["JavaScript"; "React"]%string ->
  UserProfile.experienceYears profile = Some 4%Z ->
  UserProfile.salaryMin profile = Some 80000%Z ->
  UserProfile.location profile = Some "Remote"%string ->
  UserProfile.preferredRoles profile = Some ["Frontend Engineer"%string] ->
  Job.skillsRequired job = Some ["React"; "TypeScript"]%string ->
  Job.experienceLevel job = Some MID ->
  Job.salaryMax job = Some 90000%Z ->
  Job.locationType job = Some REMOTE ->
  Job.title job = "Frontend Engineer"%string ->
  Job.location job = Some jobLocation ->
  includes (toLowerCase jobLocation) "remote" = false ->
  includes "remote" (toLowerCase jobLocation) = false ->
  details (calculateBasicMatchScore profile job)
  = {| skillsMatch := 50%float; experienceMatch := 100%float;
       salaryMatch := 100%float; locationMatch := 80%float;
       overallFit := 100%float |}
  /\ score (calculateBasicMatchScore profile job) = 78%float.
Proof.
  intros Hs He Hm Hl Hr Hq Hv Hx Ht Hn Hj H1 H2.
  unfold calculateBasicMatchScore.
  rewrite (location_block_remote profile job "Remote" jobLocation);
    [ | assumption | assumption | assumption | discriminate
      | exact H1 | exact H2 ].
  destruct profile, job; simpl in Hs, He, Hm, Hl, Hr, Hq, Hv, Hx, Ht, Hn, Hj.
  subst. vm_compute. split; reflexivity.
Qed.

Lemma example_scenario_scores_witness :
  details (calculateBasicMatchScore scenario_profile (scenario_job "Berlin"))
  = {| skillsMatch := 50%float; experienceMatch := 100%float;
       salaryMatch := 100%float; locationMatch := 80%float;
       overallFit := 100%float |}
  /\ score (calculateBasicMatchScore scenario_profile (scenario_job "Berlin"))
     = 78%float.
Proof.
  apply (example_scenario_scores scenario_profile (scenario_job "Berlin")
           "Berlin"); reflexivity.
Defined.

(** ** The salary sub-score *)

(** Before the salary block, the salary sub-score is still zero. *)
Lemma salaryMatch_before_salary_block profile job :
  salaryMatch
    (acc_details
       (experience_block profile job (skills_block profile job initial)))
  = 0%float.
Proof. unfold experience_block, skills_block. split_cases; reflexivity. Qed.

(** The salary block when the profile's minimum exceeds the job's
    maximum. *)
Lemma salary_block_short profile job pmin jmax a :
  UserProfile.salaryMin profile = Some pmin ->
  Job.salaryMax job = Some jmax ->
  (jmax < pmin)%Z ->
  salaryMatch (acc_details (salary_block profile job a))
  = if (pmin =? 0)%Z || (jmax =? 0)%Z
    then salaryMatch (acc_details a)
    else Math_round (Z2float jmax / Z2float pmin * 100)%float.
Proof.
  intros Hp Hj Hlt. unfold salary_block, truthy_num. rewrite Hp, Hj.
  destruct (pmin =? 0)%Z; [reflexivity|].
  destruct (jmax =? 0)%Z; [reflexivity|].
  simpl. destruct (Z.leb_spec pmin jmax); [lia | reflexivity].
Qed.

(** The salary sub-score is not above 100 when the profile's minimum is
    at most the job's maximum, nor when it is a non-negative 32-bit
    integer. *)
Lemma salaryMatch_not_above_100 profile job pmin jmax :
  UserProfile.salaryMin profile = Some pmin ->
  Job.salaryMax job = Some jmax ->
  (pmin <= jmax \/ 0 <= pmin < 2 ^ 31)%Z ->
  (100 <? salaryMatch (details (calculateBasicMatchScore profile job)))%float
  = false.
Proof.
  intros Hp Hj Hdom. rewrite salaryMatch_of_result.
  destruct (Z.le_gt_cases pmin jmax) as [Hle|Hgt].
  - rewrite (salary_block_aligned profile job pmin jmax _ Hp Hj Hle).
    rewrite salaryMatch_before_salary_block.
    destruct ((pmin =? 0)%Z || (jmax =? 0)%Z); reflexivity.
  - rewrite (salary_block_short profile job pmin jmax _ Hp Hj Hgt).
    rewrite salaryMatch_before_salary_block.
    destruct (Z.eqb_spec pmin 0) as [|Hp0]; [reflexivity|].
    destruct (Z.eqb_spec jmax 0) as [|Hj0]; [reflexivity|].
    cbn [orb]. apply percent_at_most_100; [|lia].
    assert ((2 ^ 31 < 2 ^ 53)%Z) by reflexivity. lia.
Qed.

(** C7, as stated, does not hold: no profile and job get a salary
    sub-score above 100 when the job's maximum reaches or exceeds the
    profile's minimum, by whatever margin, nor when the profile's minimum
    is non-negative, as the validation of profiles requires it to be. *)
Lemma salary_not_above_100_for_admissible_figures :
  ~ (exists (profile : UserProfile.t) (job : Job.t) (pmin jmax : Z),
        UserProfile.salaryMin profile = Some pmin
        /\ Job.salaryMax job = Some jmax
        /\ (pmin <= jmax \/ 0 <= pmin < 2 ^ 31)%Z
        /\ (100 <? salaryMatch (details (calculateBasicMatchScore profile job)))%float
           = true).
Proof.
  intros (profile & job & pmin & jmax & Hp & Hj & Hdom & H).
  rewrite (salaryMatch_not_above_100 profile job pmin jmax Hp Hj Hdom) in H.
  discriminate H.
Qed.

(** C7, amended: when both salary figures are present and non-zero and the
    profile's minimum is at most the job's maximum, the salary sub-score is
    exactly 100, however far the maximum exceeds the minimum; and for every
    profile whose minimum is a non-negative 32-bit integer the sub-score is
    at most 100.  The quotient [round(job_max / profile_min * 100)] is
    computed only when the minimum exceeds the maximum; it is not clamped
    and does exceed 100 for some profile and job, with negative figures: a
    minimum of -1 against a maximum of -100 gives 10000. *)
Theorem salary_subscore_100_or_unclamped_quotient :
  (forall (profile : UserProfile.t) (job : Job.t) (pmin jmax : Z),
      UserProfile.salaryMin profile = Some pmin ->
      Job.salaryMax job = Some jmax ->
      pmin <> 0%Z -> jmax <> 0%Z -> (pmin <= jmax)%Z ->
      salaryMatch (details (calculateBasicMatchScore profile job))
      = 100%float)
  /\ (forall (profile : UserProfile.t) (job : Job.t) (pmin jmax : Z),
        UserProfile.salaryMin profile = Some pmin ->
        Job.salaryMax job = Some jmax ->
        (0 <= pmin < 2 ^ 31)%Z ->
        (100 <? salaryMatch
                  (details (calculateBasicMatchScore profile job)))%float
        = false)
  /\ salaryMatch
       (details
          (calculateBasicMatchScore negative_salary_profile
             negative_salary_job))
     = 10000%float.
Proof.
  split; [|split; [|vm_compute; reflexivity]].
  - intros profile job pmin jmax Hp Hj Hp0 Hj0 Hle.
    rewrite salaryMatch_of_result.
    rewrite (salary_block_aligned profile job pmin jmax _ Hp Hj Hle).
    apply Z.eqb_neq in Hp0, Hj0. now rewrite Hp0, Hj0.
  - intros profile job pmin jmax Hp Hj Hrange.
    apply (salaryMatch_not_above_100 profile job pmin jmax Hp Hj).
    now right.
Qed.

Lemma salary_subscore_100_witness :
  salaryMatch
    (details (calculateBasicMatchScore scenario_profile (scenario_job "Berlin")))
  = 100%float.
Proof.
  apply (proj1 salary_subscore_100_or_unclamped_quotient
           scenario_profile (scenario_job "Berlin") 80000%Z 90000%Z);
    [reflexivity | reflexivity | discriminate | discriminate | lia].
Defined.

(** ** The experience sub-score *)

(** C8 (for every profile, one with [experienceYears = 0] included, and
    every entry-level job, the experience sub-score is 100).  The code does
    not keep to it: the guard [profile.experienceYears && job.experienceLevel]
    takes the valid value 0 for an absent one and skips the block, so a
    profile with zero years of experience gets an experience sub-score of
    0, not 100, on an entry-level job, although the threshold of [ENTRY] is
    0 and the comparison inside the block is [>=]. *)
Lemma entry_level_zero_years_scores_0 :
  experienceMatch (details (calculateBasicMatchScore newcomer_profile entry_job))
  = 0%float
  /\ (experienceMatch
        (details (calculateBasicMatchScore newcomer_profile entry_job))
      =? 100)%float = false.
Proof. vm_compute. split; reflexivity. Qed.

(** Once the guard lets the block run, that is with at least one year of
    experience, an entry-level job gives the experience sub-score 100, as
    the threshold [ENTRY: 0] intends. *)
Theorem entry_level_experience_scores_100 (profile : UserProfile.t)
    (job : Job.t) (years : Z) :
  UserProfile.experienceYears profile = Some years ->
  (0 < years)%Z ->
  Job.experienceLevel job = Some ENTRY ->
  experienceMatch (details (calculateBasicMatchScore profile job))
  = 100%float.
Proof.
  intros Hy Hpos Hl.
  rewrite experienceMatch_of_result.
  rewrite (experience_block_entry profile job years _ Hy Hl).
  destruct (Z.eqb_spec years 0); [lia|].
  destruct (Z.leb_spec 0 years); [reflexivity | lia].
Qed.

Lemma entry_level_experience_scores_100_witness :
  experienceMatch
    (details (calculateBasicMatchScore scenario_profile entry_job))
  = 100%float.
Proof.
  apply (entry_level_experience_scores_100 scenario_profile entry_job 4%Z);
    [reflexivity | lia | reflexivity].
Defined.

End BasicScore.

(* ================================================================== *)
(** * Properties of the AI-backed scorer *)

Section AiScore.
Import Js Matching Examples.

Variable JSON_parse : string -> exn + value.
Variable StringToNumber : string -> float.
Variable ObjectToString : value -> string.

(** Each failure makes the [try] block throw. *)
Lemma ai_fails_throws response :
  ai_fails JSON_parse response -> exists e,
    ai_strategy JSON_parse StringToNumber ObjectToString response = inl e.
Proof.
  intros [e | r Hc | r text e Hc Hp | r text Hc Hp]; unfold ai_strategy; simpl.
  - now exists e.
  - rewrite Hc. now eexists.
  - rewrite Hc. simpl. destruct (negb (text =? "")%string); [|now eexists].
    rewrite Hp. now eexists.
  - rewrite Hc. simpl. destruct (negb (text =? "")%string); [|now eexists].
    rewrite Hp. now eexists.
Qed.

(** A document that is an object is never a failure, whatever fields it
    lacks: absent [reasons] and detail figures take their defaults. *)
Lemma object_document_is_returned r text fields profile job :
  first_content r = Some text -> text <> ""%string ->
  JSON_parse text = inr (VObj fields) ->
  calculateMatchScore JSON_parse StringToNumber ObjectToString (inr r)
    profile job
  = inr {| raw_score := Math_round (ToNumber StringToNumber ObjectToString
                                      (lookup "score" fields));
           raw_reasons := or_else (lookup "reasons" fields) (VArr []);
           raw_details :=
             let ds := lookup "details" fields in
             {| raw_skillsMatch :=
                  or_else (get_opt ds "skillsMatch") (VNum 0%float);
                raw_experienceMatch :=
                  or_else (get_opt ds "experienceMatch") (VNum 0%float);
                raw_salaryMatch :=
                  or_else (get_opt ds "salaryMatch") (VNum 0%float);
                raw_locationMatch :=
                  or_else (get_opt ds "locationMatch") (VNum 0%float);
                raw_overallFit :=
                  or_else (get_opt ds "overallFit") (VNum 0%float) |} |}.
Proof.
  intros Hc Hne Hp. unfold calculateMatchScore, ai_strategy. simpl.
  rewrite Hc. simpl.
  destruct (String.eqb_spec text ""); [contradiction|]. simpl.
  rewrite Hp. reflexivity.
Qed.

(** C2, amended: [calculateMatchScore] never rejects, and when the AI
    strategy fails because the external call raises, the response content
    is absent or empty, the content is not a JSON document, or the document
    is [null], it returns the result of [calculateBasicMatchScore]. *)
Theorem ai_failure_falls_back response profile job :
  (exists result, calculateMatchScore JSON_parse StringToNumber ObjectToString response
         profile job = inr result)
  /\ (ai_fails JSON_parse response ->
      calculateMatchScore JSON_parse StringToNumber ObjectToString response
         profile job
      = inr (raw_of (calculateBasicMatchScore profile job))).
Proof.
  split.
  - unfold calculateMatchScore. destruct (ai_strategy _ _ _ response); eauto.
  - intros Hf. destruct (ai_fails_throws response Hf) as [e He].
    unfold calculateMatchScore. now rewrite He.
Qed.

End AiScore.

Section AiScoreExamples.
Import Js Matching Examples.

Lemma ai_failure_falls_back_witness :
  calculateMatchScore parse_score_only no_string_to_number
    no_object_to_string (inl (Rejected "socket hang up"))
    scenario_profile (scenario_job "Berlin")
  = inr (raw_of (calculateBasicMatchScore scenario_profile
                   (scenario_job "Berlin"))).
Proof.
  apply (proj2 (ai_failure_falls_back parse_score_only no_string_to_number
                  no_object_to_string (inl (Rejected "socket hang up"))
                  scenario_profile (scenario_job "Berlin"))).
  apply call_rejected.
Defined.

(** C2, as stated, does not hold: when the content is the document
    [{"score": 85}], which lacks [reasons] and [details], the function
    returns the score 85 with the default reasons and details, not the
    result of [calculateBasicMatchScore]. *)
Lemma missing_fields_do_not_fall_back :
  calculateMatchScore parse_score_only no_string_to_number
    no_object_to_string (inr (response_with score_only_text))
    scenario_profile (scenario_job "Berlin")
  = inr {| raw_score := 85%float;
           raw_reasons := VArr [];
           raw_details :=
             {| raw_skillsMatch := VNum 0%float;
                raw_experienceMatch := VNum 0%float;
                raw_salaryMatch := VNum 0%float;
                raw_locationMatch := VNum 0%float;
                raw_overallFit := VNum 0%float |} |}
  /\ calculateMatchScore parse_score_only no_string_to_number
       no_object_to_string (inr (response_with score_only_text))
       scenario_profile (scenario_job "Berlin")
     <> inr (raw_of (calculateBasicMatchScore scenario_profile
                       (scenario_job "Berlin"))).
Proof.
  assert (H : calculateMatchScore parse_score_only no_string_to_number
                no_object_to_string (inr (response_with score_only_text))
                scenario_profile (scenario_job "Berlin")
              = inr {| raw_score := 85%float;
                       raw_reasons := VArr [];
                       raw_details :=
                         {| raw_skillsMatch := VNum 0%float;
                            raw_experienceMatch := VNum 0%float;
                            raw_salaryMatch := VNum 0%float;
                            raw_locationMatch := VNum 0%float;
                            raw_overallFit := VNum 0%float |} |})
    by (vm_compute; reflexivity).
  split; [exact H|].
  rewrite H. intros E.
  apply (f_equal (fun x => match x with
                           | inr y => raw_reasons y
                           | inl _ => VNull
                           end)) in E.
  vm_compute in E. discriminate E.
Qed.

End AiScoreExamples.

(* ================================================================== *)
(** * Properties of the store operations *)

Section StoreFacts.
Import Prisma.

Lemma find_app_none {A} (sel : A -> bool) (xs ys : list A) :
  find sel xs = None -> find sel (xs ++ ys) = find sel ys.
Proof.
  induction xs as [|x xs IH]; simpl; [reflexivity|].
  destruct (sel x); [discriminate | exact IH].
Qed.

Lemma find_none_existsb {A} (sel : A -> bool) (xs : list A) :
  find sel xs = None -> existsb sel xs = false.
Proof.
  induction xs as [|x xs IH]; simpl; [reflexivity|].
  destruct (sel x); [discriminate | exact IH].
Qed.

Lemma find_some_existsb {A} (sel : A -> bool) (xs : list A) (x : A) :
  find sel xs = Some x -> existsb sel xs = true.
Proof.
  induction xs as [|y xs IH]; simpl; [discriminate|].
  destruct (sel y); [reflexivity | exact IH].
Qed.

(** [update_first] succeeds exactly when [find] does. *)
Lemma update_first_find {A} (sel : A -> bool) (f : A -> A) (rows : list A)
    (r : A) :
  find sel rows = Some r -> exists rows', update_first sel f rows = Some rows'.
Proof.
  induction rows as [|x rows IH]; simpl; [discriminate|].
  destruct (sel x); [eauto|].
  intros H. destruct (IH H) as [rows' ->]. simpl. eauto.
Qed.

(** After [update_first], [find] returns the updated row, provided the
    update keeps the row selected. *)
Lemma find_update_first {A} (sel : A -> bool) (f : A -> A)
    (rows rows' : list A) (r : A) :
  (forall x, sel x = true -> sel (f x) = true) ->
  find sel rows = Some r ->
  update_first sel f rows = Some rows' ->
  find sel rows' = Some (f r).
Proof.
  intros Hsel. revert rows'.
  induction rows as [|x rows IH]; simpl; intros rows'; [discriminate|].
  destruct (sel x) eqn:Hx.
  - intros [= ->] [= <-]. simpl. now rewrite (Hsel _ Hx).
  - intros Hf. destruct (update_first sel f rows) as [rest|]; [|discriminate].
    intros [= <-]. simpl. rewrite Hx. now apply IH.
Qed.

(** An update that is the identity on the selected row changes nothing. *)
Lemma update_first_fixed {A} (sel : A -> bool) (f : A -> A) (rows : list A)
    (r : A) :
  find sel rows = Some r -> f r = r -> update_first sel f rows = Some rows.
Proof.
  induction rows as [|x rows IH]; simpl; [discriminate|].
  destruct (sel x).
  - intros [= ->] ->. reflexivity.
  - intros Hf Hr. now rewrite (IH Hf Hr).
Qed.

Lemma cache_key_refl (u j : string) (c : JobMatchCache.t) :
  JobMatchCache.userId c = u -> JobMatchCache.jobId c = j ->
  cache_key u j c = true.
Proof. intros <- <-. unfold cache_key. now rewrite !String.eqb_refl. Qed.

Lemma set_jobMatchCache_same (db : Database) :
  set_jobMatchCache (jobMatchCache db) db = db.
Proof. now destruct db. Qed.

End StoreFacts.

(* ================================================================== *)
(** * Properties of the job controller *)

Section JobControllerFacts.
Import Prisma Express JobController.

Variables (req : Request) (u : User) (job : Job.t) (db : Database).

Hypothesis authenticated : user req = Some u.
Hypothesis job_exists :
  find (fun j => (Job.id j =? params_id req)%string) (jobs db) = Some job.

(** The handlers on a pair that has a cache entry. *)
Lemma toggleFavorite_existing clock existing :
  find (cache_key (id u) (params_id req)) (jobMatchCache db) = Some existing ->
  exists rows,
    update_first (cache_key (id u) (params_id req))
      (set_isFavorite (negb (JobMatchCache.isFavorite existing)))
      (jobMatchCache db) = Some rows
    /\ toggleFavorite clock req db
       = (set_jobMatchCache rows db,
          inr {| favorite_message :=
                   if negb (JobMatchCache.isFavorite existing)
                   then "Job added to favorites"
                   else "Job removed from favorites";
                 isFavorite := negb (JobMatchCache.isFavorite existing) |}).
Proof.
  intros Hc.
  destruct (update_first_find _
              (set_isFavorite (negb (JobMatchCache.isFavorite existing)))
              _ _ Hc) as [rows Hu].
  exists rows. split; [exact Hu|].
  unfold toggleFavorite. rewrite authenticated.
  unfold bind, job_findUnique, jobMatchCache_findUnique, jobMatchCache_update,
    ret.
  rewrite job_exists; cbn beta iota. rewrite Hc; cbn beta iota.
  rewrite Hc, Hu. reflexivity.
Qed.

Lemma toggleFavorite_fresh clock :
  find (cache_key (id u) (params_id req)) (jobMatchCache db) = None ->
  toggleFavorite clock req db
  = (set_jobMatchCache
       (jobMatchCache db
        ++ [placeholder clock (id u) (params_id req) true false]) db,
     inr {| favorite_message := "Job added to favorites";
            isFavorite := true |}).
Proof.
  intros Hc. unfold toggleFavorite. rewrite authenticated.
  unfold bind, job_findUnique, jobMatchCache_findUnique, jobMatchCache_create,
    ret.
  rewrite job_exists; cbn beta iota. rewrite Hc; cbn beta iota.
  cbn [JobMatchCache.userId JobMatchCache.jobId placeholder].
  now rewrite (find_none_existsb _ _ Hc).
Qed.

Lemma hideJob_existing clock existing :
  find (cache_key (id u) (params_id req)) (jobMatchCache db) = Some existing ->
  exists rows,
    update_first (cache_key (id u) (params_id req)) (set_isHidden true)
      (jobMatchCache db) = Some rows
    /\ hideJob clock req db
       = (set_jobMatchCache rows db, inr "Job hidden successfully"%string).
Proof.
  intros Hc.
  destruct (update_first_find _ (set_isHidden true) _ _ Hc) as [rows Hu].
  exists rows. split; [exact Hu|].
  unfold hideJob. rewrite authenticated.
  unfold bind, job_findUnique, jobMatchCache_findUnique, jobMatchCache_update,
    ret.
  rewrite job_exists; cbn beta iota. rewrite Hc; cbn beta iota.
  rewrite Hc, Hu. reflexivity.
Qed.

Lemma hideJob_fresh clock :
  find (cache_key (id u) (params_id req)) (jobMatchCache db) = None ->
  hideJob clock req db
  = (set_jobMatchCache
       (jobMatchCache db
        ++ [placeholder clock (id u) (params_id req) false true]) db,
     inr "Job hidden successfully"%string).
Proof.
  intros Hc. unfold hideJob. rewrite authenticated.
  unfold bind, job_findUnique, jobMatchCache_findUnique, jobMatchCache_create,
    ret.
  rewrite job_exists; cbn beta iota. rewrite Hc; cbn beta iota.
  cbn [JobMatchCache.userId JobMatchCache.jobId placeholder].
  now rewrite (find_none_existsb _ _ Hc).
Qed.

End JobControllerFacts.

Section JobControllerClaims.
Import Prisma Express JobController.

Lemma cache_key_set_isHidden u j b c :
  cache_key u j (set_isHidden b c) = cache_key u j c.
Proof. reflexivity. Qed.

Lemma cache_key_set_isFavorite u j b c :
  cache_key u j (set_isFavorite b c) = cache_key u j c.
Proof. reflexivity. Qed.

(** Two keys select the same row only when they are the same pair. *)
Lemma cache_key_other u j u' j' c :
  (u', j') <> (u, j) -> cache_key u j c = true -> cache_key u' j' c = false.
Proof.
  intros Hne. unfold cache_key.
  destruct (String.eqb_spec (JobMatchCache.userId c) u);
    destruct (String.eqb_spec (JobMatchCache.jobId c) j);
    try discriminate.
  intros _.
  destruct (String.eqb_spec (JobMatchCache.userId c) u');
    destruct (String.eqb_spec (JobMatchCache.jobId c) j');
    try reflexivity.
  exfalso. apply Hne. congruence.
Qed.

(** [update_first] is invisible to a lookup that the update cannot
    affect. *)
Lemma find_update_first_other {A} (sel sel' : A -> bool) (f : A -> A)
    (rows rows' : list A) :
  (forall x, sel x = true -> sel' x = false) ->
  (forall x, sel' (f x) = sel' x) ->
  update_first sel f rows = Some rows' ->
  find sel' rows' = find sel' rows.
Proof.
  intros Hd Hf. revert rows'.
  induction rows as [|x rows IH]; simpl; intros rows'; [discriminate|].
  destruct (sel x) eqn:Hx.
  - intros [= <-]. simpl. now rewrite Hf, (Hd x Hx).
  - destruct (update_first sel f rows) as [rest|]; [|discriminate].
    intros [= <-]. simpl. destruct (sel' x); [reflexivity|]. now apply IH.
Qed.

(** Hiding twice is hiding once, whether or not the pair had an entry. *)
Lemma hideJob_idempotent clock clock' req u job db :
  user req = Some u ->
  find (fun j => (Job.id j =? params_id req)%string) (jobs db) = Some job ->
  hideJob clock' req (fst (hideJob clock req db))
  = (fst (hideJob clock req db), inr "Job hidden successfully"%string).
Proof.
  intros Hu Hj.
  destruct (find (cache_key (id u) (params_id req)) (jobMatchCache db))
    as [existing|] eqn:Hc.
  - destruct (hideJob_existing req u job db Hu Hj clock existing Hc)
      as (rows & Hup & ->).
    cbn [fst].
    assert (Hc' : find (cache_key (id u) (params_id req)) rows
                  = Some (set_isHidden true existing)).
    { apply (find_update_first _ _ (jobMatchCache db)); auto. }
    destruct (hideJob_existing req u job (set_jobMatchCache rows db) Hu Hj
                clock' _ Hc') as (rows' & Hup' & ->).
    cbn [jobMatchCache set_jobMatchCache] in Hup'.
    rewrite (update_first_fixed _ _ _ _ Hc' eq_refl) in Hup'.
    now injection Hup' as <-.
  - rewrite (hideJob_fresh req u job db Hu Hj clock Hc). cbn [fst].
    set (row := placeholder clock (id u) (params_id req) false true).
    assert (Hc' : find (cache_key (id u) (params_id req))
                    (jobMatchCache db ++ [row]) = Some row).
    { rewrite (find_app_none _ _ _ Hc). simpl.
      now rewrite (cache_key_refl (id u) (params_id req) row). }
    destruct (hideJob_existing req u job
                (set_jobMatchCache (jobMatchCache db ++ [row]) db) Hu Hj
                clock' _ Hc') as (rows' & Hup' & ->).
    cbn [jobMatchCache set_jobMatchCache] in Hup'.
    rewrite (update_first_fixed _ _ _ _ Hc' eq_refl) in Hup'.
    now injection Hup' as <-.
Qed.

(** C9: for a user and a job with no match-cache entry, two successive
    calls of [toggleFavorite] leave an entry with [isFavorite = false] and
    [matchScore = 0]: the first call creates a placeholder of score zero
    with [isFavorite = true], the second negates the flag and leaves the
    score. *)
Theorem toggleFavorite_twice_on_unscored (clock clock' : Clock)
    (req : Request) (u : User) (job : Job.t) (db : Database) :
  user req = Some u ->
  find (fun j => (Job.id j =? params_id req)%string) (jobs db) = Some job ->
  find (cache_key (id u) (params_id req)) (jobMatchCache db) = None ->
  let db1 := fst (toggleFavorite clock req db) in
  let db2 := fst (toggleFavorite clock' req db1) in
  find (cache_key (id u) (params_id req)) (jobMatchCache db1)
  = Some (placeholder clock (id u) (params_id req) true false)
  /\ exists entry,
       find (cache_key (id u) (params_id req)) (jobMatchCache db2)
       = Some entry
       /\ entry = placeholder clock (id u) (params_id req) false false
       /\ JobMatchCache.isFavorite entry = false
       /\ JobMatchCache.matchScore entry = 0%Z.
Proof.
  intros Hu Hj Hc db1 db2.
  set (row := placeholder clock (id u) (params_id req) true false).
  assert (E1 : db1 = set_jobMatchCache (jobMatchCache db ++ [row]) db).
  { unfold db1. now rewrite (toggleFavorite_fresh req u job db Hu Hj clock Hc). }
  assert (Hc1 : find (cache_key (id u) (params_id req)) (jobMatchCache db1)
                = Some row).
  { rewrite E1. cbn [jobMatchCache set_jobMatchCache].
    rewrite (find_app_none _ _ _ Hc). simpl.
    now rewrite (cache_key_refl (id u) (params_id req) row). }
  split; [exact Hc1|].
  assert (Hj1 : find (fun j => (Job.id j =? params_id req)%string) (jobs db1)
                = Some job) by now rewrite E1.
  destruct (toggleFavorite_existing req u job db1 Hu Hj1 clock' row Hc1)
    as (rows & Hup & E2).
  exists (placeholder clock (id u) (params_id req) false false).
  repeat split.
  unfold db2. rewrite E2. cbn [fst jobMatchCache set_jobMatchCache].
  change (placeholder clock (id u) (params_id req) false false)
    with (set_isFavorite (negb (JobMatchCache.isFavorite row)) row).
  apply (find_update_first _ _ (jobMatchCache db1) rows row); auto.
Qed.

(** C10: for every user and every existing job, [hideJob] marks the cache
    entry of the pair hidden and changes nothing else.  When the pair has an
    entry, that entry keeps its [matchScore], [isFavorite] and
    [matchDetails] and no entry is added; when it has none, one entry is
    added for it, hidden, with score 0 and the defaults of the other
    columns.  Either way the call returns its message, the entries of the
    other pairs and the other tables are as before, and a second call
    leaves the store as the first one left it. *)
Theorem hideJob_sets_only_isHidden (clock clock' : Clock) (req : Request)
    (u : User) (job : Job.t) (db : Database) :
  user req = Some u ->
  find (fun j => (Job.id j =? params_id req)%string) (jobs db) = Some job ->
  let db1 := fst (hideJob clock req db) in
  snd (hideJob clock req db) = inr "Job hidden successfully"%string
  /\ match find (cache_key (id u) (params_id req)) (jobMatchCache db) with
     | Some existing =>
         (exists entry,
             find (cache_key (id u) (params_id req)) (jobMatchCache db1)
             = Some entry
             /\ entry = set_isHidden true existing
             /\ JobMatchCache.isHidden entry = true
             /\ JobMatchCache.matchScore entry
                = JobMatchCache.matchScore existing
             /\ JobMatchCache.isFavorite entry
                = JobMatchCache.isFavorite existing
             /\ JobMatchCache.matchDetails entry
                = JobMatchCache.matchDetails existing)
         /\ List.length (jobMatchCache db1) = List.length (jobMatchCache db)
     | None =>
         (exists entry,
             find (cache_key (id u) (params_id req)) (jobMatchCache db1)
             = Some entry
             /\ JobMatchCache.isHidden entry = true
             /\ JobMatchCache.matchScore entry = 0%Z
             /\ JobMatchCache.isFavorite entry = false
             /\ JobMatchCache.matchDetails entry = None
             /\ jobMatchCache db1 = jobMatchCache db ++ [entry])
     end
  /\ (forall u' j', (u', j') <> (id u, params_id req) ->
        find (cache_key u' j') (jobMatchCache db1)
        = find (cache_key u' j') (jobMatchCache db))
  /\ applications db1 = applications db
  /\ jobs db1 = jobs db
  /\ userPreferences db1 = userPreferences db
  /\ hideJob clock' req db1 = (db1, inr "Job hidden successfully"%string).
Proof.
  intros Hu Hj db1.
  assert (Hagain : hideJob clock' req db1
                   = (db1, inr "Job hidden successfully"%string)).
  { unfold db1. now apply (hideJob_idempotent clock clock' req u job db). }
  destruct (find (cache_key (id u) (params_id req)) (jobMatchCache db))
    as [existing|] eqn:Hc.
  - destruct (hideJob_existing req u job db Hu Hj clock existing Hc)
      as (rows & Hup & E).
    assert (E1 : db1 = set_jobMatchCache rows db)
      by (unfold db1; now rewrite E).
    split; [now rewrite E|].
    split; [split|split; [|split; [|split; [|split]]]].
    + exists (set_isHidden true existing). repeat split.
      rewrite E1. cbn [jobMatchCache set_jobMatchCache].
      apply (find_update_first _ _ (jobMatchCache db)); auto.
    + rewrite E1. cbn [jobMatchCache set_jobMatchCache].
      clear - Hup. revert rows Hup.
      induction (jobMatchCache db) as [|x xs IH]; simpl; intros rows;
        [discriminate|].
      destruct (cache_key (id u) (params_id req) x).
      * now intros [= <-].
      * destruct (update_first _ _ xs) as [rest|]; [|discriminate].
        intros [= <-]. simpl. f_equal. now apply IH.
    + intros u' j' Hne. rewrite E1. cbn [jobMatchCache set_jobMatchCache].
      apply (find_update_first_other (cache_key (id u) (params_id req)) _
               (set_isHidden true) (jobMatchCache db)); auto.
      intros x. now apply cache_key_other.
    + now rewrite E1.
    + now rewrite E1.
    + now rewrite E1.
    + exact Hagain.
  - pose proof (hideJob_fresh req u job db Hu Hj clock Hc) as E.
    set (row := placeholder clock (id u) (params_id req) false true) in E.
    assert (E1 : db1 = set_jobMatchCache (jobMatchCache db ++ [row]) db)
      by (unfold db1; now rewrite E).
    split; [now rewrite E|].
    split; [|split; [|split; [|split; [|split]]]].
    + exists row. rewrite E1. cbn [jobMatchCache set_jobMatchCache].
      repeat split.
      rewrite (find_app_none _ _ _ Hc). simpl.
      now rewrite (cache_key_refl (id u) (params_id req) row).
    + intros u' j' Hne. rewrite E1. cbn [jobMatchCache set_jobMatchCache].
      assert (Hrow : cache_key u' j' row = false).
      { unfold cache_key, row. cbn [JobMatchCache.userId JobMatchCache.jobId
                                      placeholder].
        apply andb_false_iff.
        destruct (String.eqb_spec (id u) u') as [Hu'|]; [|now left].
        right. apply String.eqb_neq. intros Hj'. apply Hne.
        now rewrite <- Hu', <- Hj'. }
      clear - Hrow.
      induction (jobMatchCache db) as [|x xs IH]; simpl.
      * now rewrite Hrow.
      * destruct (cache_key u' j' x); [reflexivity | exact IH].
    + now rewrite E1.
    + now rewrite E1.
    + now rewrite E1.
    + exact Hagain.
Qed.

End JobControllerClaims.

(* ================================================================== *)
(** * Properties of the application controller *)

Section OrderBy.
Import Prisma.

Lemma insert_desc_perm c rows : Permutation (c :: rows) (insert_desc c rows).
Proof.
  induction rows as [|r rows IH]; simpl; [reflexivity|].
  destruct (_ <? _)%Z; [|reflexivity].
  rewrite perm_swap. now constructor.
Qed.

Lemma orderBy_perm rows : Permutation rows (orderBy_matchScore_desc rows).
Proof.
  induction rows as [|r rows IH]; simpl; [constructor|].
  rewrite <- insert_desc_perm. now constructor.
Qed.

Lemma insert_desc_sorted c rows :
  StronglySorted score_desc rows ->
  StronglySorted score_desc (insert_desc c rows).
Proof.
  induction rows as [|r rows IH]; simpl; intros Hs.
  - repeat constructor.
  - inversion Hs as [|? ? Hrest Hall]; subst.
    destruct (Z.ltb_spec (JobMatchCache.matchScore c)
                (JobMatchCache.matchScore r)) as [Hlt|Hge].
    + constructor; [now apply IH|].
      apply Forall_forall. intros x Hx.
      apply (Permutation_in _ (Permutation_sym (insert_desc_perm c rows)))
        in Hx.
      destruct Hx as [<-|Hx]; [unfold score_desc; lia|].
      now apply (proj1 (Forall_forall _ _) Hall).
    + constructor; [exact Hs|].
      constructor; [exact Hge|].
      apply Forall_forall. intros x Hx.
      pose proof (proj1 (Forall_forall _ _) Hall x Hx) as Hxr.
      unfold score_desc in *. lia.
Qed.

Lemma orderBy_sorted rows :
  StronglySorted score_desc (orderBy_matchScore_desc rows).
Proof.
  induction rows as [|r rows IH]; simpl; [constructor|].
  now apply insert_desc_sorted.
Qed.

Lemma firstn_sorted {A} (R : A -> A -> Prop) n (xs : list A) :
  StronglySorted R xs -> StronglySorted R (firstn n xs).
Proof.
  revert n. induction xs as [|x xs IH]; intros [|n] Hs; simpl;
    try constructor.
  - inversion Hs; subst. now apply IH.
  - inversion Hs as [|? ? _ Hall]; subst.
    apply Forall_forall. intros y Hy.
    apply (proj1 (Forall_forall _ _) Hall).
    revert Hy. clear. revert n.
    induction xs as [|z xs IH]; intros [|n]; simpl; try contradiction.
    intros [->|H]; [now left | right; eauto].
Qed.

Lemma firstn_In {A} n (xs : list A) x : In x (firstn n xs) -> In x xs.
Proof.
  revert n. induction xs as [|z xs IH]; intros [|n]; simpl; try contradiction.
  intros [->|H]; [now left | right; eauto].
Qed.

End OrderBy.

Section ApplicationControllerFacts.
Import Prisma Express ApplicationController.

Lemma application_key_pair u j a :
  application_key u j a = true <-> application_pair a = (u, j).
Proof.
  unfold application_key, application_pair.
  rewrite andb_true_iff, !String.eqb_eq. split.
  - now intros [-> ->].
  - now intros [= -> ->].
Qed.

Lemma existsb_key_false_notin u j apps :
  existsb (application_key u j) apps = false ->
  ~ In (u, j) (map application_pair apps).
Proof.
  intros He Hin. apply in_map_iff in Hin as (a & Ha & Hin).
  apply application_key_pair in Ha.
  assert (existsb (application_key u j) apps = true)
    by (apply existsb_exists; eauto).
  congruence.
Qed.

(** A row accepted by [application_create] keeps the pairs distinct. *)
Lemma unique_after_create row apps :
  NoDup (map application_pair apps) ->
  existsb (application_key (Application.userId row) (Application.jobId row))
    apps = false ->
  NoDup (map application_pair (apps ++ [row])).
Proof.
  intros Hn He. rewrite map_app. simpl.
  apply NoDup_app; [exact Hn | repeat constructor; intros [] |].
  intros x Hx [<-|[]]. revert Hx. now apply existsb_key_false_notin.
Qed.

(** The pair of a row, absent from a longer table, is absent from the
    shorter one. *)
Lemma existsb_app_false {A} (p : A -> bool) xs ys :
  existsb p (xs ++ ys) = false -> existsb p xs = false.
Proof. rewrite existsb_app. now intros [? _]%orb_false_iff. Qed.

(** One turn of the loop over [jobsToApply]. *)
Lemma create_applications_cons clock userId m rest created db :
  create_applications clock userId (m :: rest) created db
  = if existsb
         (application_key userId (JobMatchCache.jobId (fst m)))
         (applications db)
    then (db, inl (PrismaClientKnownRequestError "P2002"))
    else
      match update_first
              (fun j => (Job.id j =? JobMatchCache.jobId (fst m))%string)
              increment_applicationCount (Prisma.jobs db) with
      | Some rows =>
          create_applications clock userId rest
            (created ++ [new_application clock userId (fst m)])
            (set_jobs rows
               (set_applications
                  (applications db ++ [new_application clock userId (fst m)])
                  db))
      | None =>
          (set_applications
             (applications db ++ [new_application clock userId (fst m)]) db,
           inl (PrismaClientKnownRequestError "P2025"))
      end.
Proof.
  simpl. unfold bind, application_create, job_update_increment.
  cbn [Application.userId Application.jobId new_application].
  destruct (existsb _ (applications db)); [reflexivity|].
  cbn [Prisma.jobs set_applications].
  destruct (update_first _ increment_applicationCount (Prisma.jobs db));
    reflexivity.
Qed.

(** What a run of the loop over [jobsToApply] does to the store: it
    appends to [applications] the rows of a prefix of the list (the whole
    list when it returns), each of a pair that had no application, and it
    touches neither the cache nor the preferences. *)
Lemma create_applications_run clock userId jobsToApply :
  forall created db,
  exists k,
    (k <= List.length jobsToApply)%nat
    /\ applications (fst (create_applications clock userId jobsToApply
                            created db))
       = applications db
         ++ map (fun m : Match => new_application clock userId (fst m))
              (firstn k jobsToApply)
    /\ jobMatchCache (fst (create_applications clock userId jobsToApply
                             created db))
       = jobMatchCache db
    /\ userPreferences (fst (create_applications clock userId jobsToApply
                               created db))
       = userPreferences db
    /\ Forall
         (fun a =>
            existsb
              (application_key (Application.userId a) (Application.jobId a))
              (applications db) = false)
         (map (fun m : Match => new_application clock userId (fst m))
            (firstn k jobsToApply))
    /\ (applications_unique db ->
        applications_unique
          (fst (create_applications clock userId jobsToApply created db)))
    /\ (forall apps,
          snd (create_applications clock userId jobsToApply created db)
          = inr apps ->
          k = List.length jobsToApply
          /\ apps
             = created
               ++ map (fun m : Match => new_application clock userId (fst m))
                    jobsToApply).
Proof.
  induction jobsToApply as [|m rest IH]; intros created db.
  - exists 0%nat. simpl. rewrite !app_nil_r. repeat split; auto.
    congruence.
  - rewrite create_applications_cons.
    set (row := new_application clock userId (fst m)).
    destruct (existsb _ (applications db)) eqn:Hex.
    + exists 0%nat. simpl. rewrite app_nil_r.
      repeat split; auto; try lia; discriminate.
    + destruct (update_first _ increment_applicationCount (Prisma.jobs db))
        as [rows|].
      * set (db2 := set_jobs rows
                      (set_applications (applications db ++ [row]) db)).
        destruct (IH (created ++ [row]) db2)
          as (k & Hk & Happs & Hcache & Hprefs & Hnew & Huniq & Hret).
        exists (S k). cbn [firstn map List.length].
        split; [lia|].
        split; [rewrite Happs; unfold db2; simpl; now rewrite <- app_assoc|].
        split; [now rewrite Hcache|].
        split; [now rewrite Hprefs|].
        split.
        { constructor; [exact Hex|].
          eapply Forall_impl; [|exact Hnew].
          intros a Ha. unfold db2 in Ha. simpl in Ha.
          now apply existsb_app_false in Ha. }
        split.
        { intros Hu. apply Huniq. unfold applications_unique, db2. simpl.
          now apply unique_after_create. }
        intros apps Hs. destruct (Hret apps Hs) as [-> ->].
        split; [reflexivity|]. now rewrite <- app_assoc.
      * exists 1%nat. cbn [firstn map List.length fst snd].
        split; [lia|].
        repeat split; auto; try discriminate.
        intros Hu. unfold applications_unique. simpl.
        now apply unique_after_create.
Qed.

(** Building the response leaves the store as it is. *)
Lemma summaries_store jobsToApply db : fst (summaries jobsToApply db) = db.
Proof.
  revert db. induction jobsToApply as [|[c [j|]] rest IH]; intros db;
    simpl; try reflexivity.
  unfold bind. specialize (IH db).
  destruct (summaries rest db) as [db' [e|more]]; simpl in *; congruence.
Qed.

(** The handler past its two preconditions. *)
Lemma autoApply_passes clock req u preferences db :
  user req = Some u ->
  find (fun p => (UserPreferences.userId p =? id u)%string)
    (userPreferences db) = Some preferences ->
  UserPreferences.autoApplyEnabled preferences = true ->
  (dailyCount_on clock (id u) db
   < UserPreferences.autoApplyMaxPerDay preferences)%Z ->
  autoApply clock req db
  = (applications <~
       create_applications clock (id u)
         (jobsToApply_on clock (id u) preferences db) [] ;;
     jobs <~ summaries (jobsToApply_on clock (id u) preferences db) ;;
     ret {| applicationsCreated := List.length applications;
            jobs := jobs |}) db.
Proof.
  intros Hu Hp He Hlt. unfold autoApply. rewrite Hu.
  unfold bind at 1. unfold userPreferences_findUnique. rewrite Hp, He.
  cbn [negb]. unfold bind at 1. unfold application_count.
  fold (dailyCount_on clock (id u) db).
  destruct (Z.leb_spec (UserPreferences.autoApplyMaxPerDay preferences)
              (dailyCount_on clock (id u) db)); [lia|].
  unfold bind at 1. unfold jobMatchCache_findMany_desc.
  unfold bind at 1. unfold application_findMany.
  reflexivity.
Qed.

(** The store after the handler, past its two preconditions, is the store
    after the loop. *)
Lemma autoApply_passes_store clock req u preferences db :
  user req = Some u ->
  find (fun p => (UserPreferences.userId p =? id u)%string)
    (userPreferences db) = Some preferences ->
  UserPreferences.autoApplyEnabled preferences = true ->
  (dailyCount_on clock (id u) db
   < UserPreferences.autoApplyMaxPerDay preferences)%Z ->
  fst (autoApply clock req db)
  = fst (create_applications clock (id u)
           (jobsToApply_on clock (id u) preferences db) [] db).
Proof.
  intros Hu Hp He Hlt.
  rewrite (autoApply_passes clock req u preferences db Hu Hp He Hlt).
  unfold bind at 1.
  destruct (create_applications _ _ _ _ db) as [db' [e|apps]];
    [reflexivity|].
  unfold bind. cbn [fst].
  pose proof (summaries_store (jobsToApply_on clock (id u) preferences db) db')
    as Hs.
  destruct (summaries _ db') as [db'' [e|js]]; simpl in *; congruence.
Qed.

(** A failed precondition leaves the store as it is; otherwise the store is
    the one the loop leaves. *)
Lemma autoApply_store clock req db :
  fst (autoApply clock req db) = db
  \/ exists u preferences,
       user req = Some u
       /\ find (fun p => (UserPreferences.userId p =? id u)%string)
            (userPreferences db) = Some preferences
       /\ UserPreferences.autoApplyEnabled preferences = true
       /\ (dailyCount_on clock (id u) db
           < UserPreferences.autoApplyMaxPerDay preferences)%Z.
Proof.
  destruct (user req) as [u|] eqn:Hu;
    [|left; unfold autoApply; now rewrite Hu].
  destruct (find (fun p => (UserPreferences.userId p =? id u)%string)
              (userPreferences db)) as [preferences|] eqn:Hp;
    [|left; unfold autoApply, bind, userPreferences_findUnique;
      now rewrite Hu, Hp].
  destruct (UserPreferences.autoApplyEnabled preferences) eqn:He;
    [|left; unfold autoApply, bind, userPreferences_findUnique;
      now rewrite Hu, Hp, He].
  destruct (Z.ltb_spec (dailyCount_on clock (id u) db)
              (UserPreferences.autoApplyMaxPerDay preferences)) as [Hlt|Hge].
  - right. now exists u, preferences.
  - left. unfold autoApply. rewrite Hu.
    unfold bind at 1. unfold userPreferences_findUnique. rewrite Hp, He.
    cbn [negb]. unfold bind at 1. unfold application_count.
    fold (dailyCount_on clock (id u) db).
    destruct (Z.leb_spec (UserPreferences.autoApplyMaxPerDay preferences)
                (dailyCount_on clock (id u) db)); [reflexivity | lia].
Qed.

End ApplicationControllerFacts.

Section ApplicationControllerClaims.
Import Prisma Express ApplicationController Examples.

(** The rows returned by the [matchedJobs] query: at most [take] of them,
    by decreasing score, each an eligible row of the cache. *)
Lemma matchedJobs_on_spec clock userId preferences db :
  let remaining :=
    (UserPreferences.autoApplyMaxPerDay preferences
     - dailyCount_on clock userId db)%Z in
  let matchedJobs := matchedJobs_on clock userId preferences db in
  jobMatchCache_findMany_desc
    (eligible userId (UserPreferences.autoApplyThreshold preferences))
    remaining db
  = (db, inr matchedJobs)
  /\ ((0 <= remaining)%Z ->
      (Z.of_nat (List.length matchedJobs) <= remaining)%Z)
  /\ StronglySorted score_desc (map fst matchedJobs)
  /\ Forall
       (fun c =>
          In c (jobMatchCache db)
          /\ JobMatchCache.userId c = userId
          /\ (UserPreferences.autoApplyThreshold preferences
              <= JobMatchCache.matchScore c)%Z
          /\ JobMatchCache.isHidden c = false)
       (map fst matchedJobs).
Proof.
  intros remaining matchedJobs.
  assert (Hfst : map fst matchedJobs
                 = firstn (Z.to_nat remaining)
                     (orderBy_matchScore_desc
                        (filter
                           (eligible userId
                              (UserPreferences.autoApplyThreshold preferences))
                           (jobMatchCache db)))).
  { unfold matchedJobs, matchedJobs_on. rewrite map_map. simpl.
    now rewrite map_id. }
  split; [reflexivity|]. split; [|split].
  - intros Hr.
    pose proof (f_equal (@List.length _) Hfst) as Hl.
    rewrite length_map, length_firstn in Hl. unfold Match in *. lia.
  - rewrite Hfst. apply firstn_sorted, orderBy_sorted.
  - rewrite Hfst. apply Forall_forall. intros c Hc.
    apply firstn_In in Hc.
    apply (Permutation_in _ (Permutation_sym (orderBy_perm _))) in Hc.
    apply filter_In in Hc as [Hin He]. unfold eligible in He.
    apply andb_true_iff in He as [He Hh].
    apply andb_true_iff in He as [Hu Ht].
    apply String.eqb_eq in Hu. apply Z.leb_le in Ht.
    apply negb_true_iff in Hh. auto.
Qed.

(** C5: when the user's preferences record is missing or has
    [autoApplyEnabled = false], [autoApply] fails with the error of code
    [AUTO_APPLY_DISABLED], whatever the match cache holds, and the store is
    as it was: no application is created. *)
Theorem autoApply_disabled (clock : Clock) (req : Request) (u : User)
    (db : Database) :
  user req = Some u ->
  match find (fun p => (UserPreferences.userId p =? id u)%string)
          (userPreferences db) with
  | Some preferences => UserPreferences.autoApplyEnabled preferences = false
  | None => True
  end ->
  autoApply clock req db
  = (db, inl (ApiError 400 "Auto-apply is not enabled" "AUTO_APPLY_DISABLED")).
Proof.
  intros Hu Hp. unfold autoApply. rewrite Hu.
  unfold bind, userPreferences_findUnique.
  destruct (find _ (userPreferences db)) as [preferences|];
    [now rewrite Hp | reflexivity].
Qed.

Lemma autoApply_disabled_witness :
  autoApply morning (request_of_alice "") (store false)
  = (store false,
     inl (ApiError 400 "Auto-apply is not enabled" "AUTO_APPLY_DISABLED")).
Proof.
  apply (autoApply_disabled morning (request_of_alice "") alice (store false));
    reflexivity.
Defined.

(** C3: in every store, a call of [autoApply] only appends rows to
    [applications], none of them for a (user, job) pair that had an
    application before the call; so if the pairs of the applications were
    distinct before the call, they are distinct after it. *)
Theorem autoApply_no_second_application (clock : Clock) (req : Request)
    (db : Database) :
  exists created,
    applications (fst (autoApply clock req db)) = applications db ++ created
    /\ Forall
         (fun a =>
            ~ In (application_pair a)
                (map application_pair (applications db)))
         created
    /\ (applications_unique db ->
        applications_unique (fst (autoApply clock req db))).
Proof.
  destruct (autoApply_store clock req db)
    as [-> | (u & preferences & Hu & Hp & He & Hlt)].
  - exists []. rewrite app_nil_r. repeat split; auto.
  - rewrite (autoApply_passes_store clock req u preferences db Hu Hp He Hlt).
    destruct (create_applications_run clock (id u)
                (jobsToApply_on clock (id u) preferences db) [] db)
      as (k & _ & Happs & _ & _ & Hnew & Huniq & _).
    eexists. split; [exact Happs|]. split; [|exact Huniq].
    eapply Forall_impl; [|exact Hnew].
    intros a Ha. now apply existsb_key_false_notin.
Qed.

Lemma autoApply_no_second_application_witness :
  applications_unique (fst (autoApply morning (request_of_alice "") (store true))).
Proof.
  destruct (autoApply_no_second_application morning (request_of_alice "")
              (store true)) as (created & _ & _ & Huniq).
  apply Huniq. unfold applications_unique. simpl.
  repeat constructor; simpl; intuition discriminate.
Defined.

(** C4: when the preferences are enabled and the count of the user's
    auto-applied applications created since the start of the day is under
    [autoApplyMaxPerDay], the candidate query returns at most
    [autoApplyMaxPerDay - todayCount] rows, ordered by decreasing score,
    each a non-hidden cache entry of the user that reaches the threshold;
    and the call appends at most that many applications, each made from
    one of these rows. *)
Theorem autoApply_within_daily_quota (clock : Clock) (req : Request)
    (u : User) (preferences : UserPreferences.t) (db : Database) :
  user req = Some u ->
  find (fun p => (UserPreferences.userId p =? id u)%string)
    (userPreferences db) = Some preferences ->
  UserPreferences.autoApplyEnabled preferences = true ->
  (dailyCount_on clock (id u) db
   < UserPreferences.autoApplyMaxPerDay preferences)%Z ->
  let remaining :=
    (UserPreferences.autoApplyMaxPerDay preferences
     - dailyCount_on clock (id u) db)%Z in
  let matchedJobs := matchedJobs_on clock (id u) preferences db in
  jobMatchCache_findMany_desc
    (eligible (id u) (UserPreferences.autoApplyThreshold preferences))
    remaining db
  = (db, inr matchedJobs)
  /\ (Z.of_nat (List.length matchedJobs) <= remaining)%Z
  /\ StronglySorted score_desc (map fst matchedJobs)
  /\ Forall
       (fun c =>
          In c (jobMatchCache db)
          /\ JobMatchCache.userId c = id u
          /\ (UserPreferences.autoApplyThreshold preferences
              <= JobMatchCache.matchScore c)%Z
          /\ JobMatchCache.isHidden c = false)
       (map fst matchedJobs)
  /\ exists created,
       applications (fst (autoApply clock req db))
       = applications db ++ created
       /\ (Z.of_nat (List.length created) <= remaining)%Z
       /\ Forall
            (fun a =>
               exists m,
                 In m matchedJobs
                 /\ a = new_application clock (id u) (fst m))
            created.
Proof.
  intros Hu Hp He Hlt remaining matchedJobs.
  destruct (matchedJobs_on_spec clock (id u) preferences db)
    as (Hq & Hlen & Hsorted & Hall).
  fold remaining in Hq, Hlen. fold matchedJobs in Hq, Hlen, Hsorted, Hall.
  assert (Hlen' : (Z.of_nat (List.length matchedJobs) <= remaining)%Z)
    by (apply Hlen; unfold remaining; lia).
  split; [exact Hq|]. split; [exact Hlen'|].
  split; [exact Hsorted|]. split; [exact Hall|].
  rewrite (autoApply_passes_store clock req u preferences db Hu Hp He Hlt).
  destruct (create_applications_run clock (id u)
              (jobsToApply_on clock (id u) preferences db) [] db)
    as (k & Hk & Happs & _).
  eexists. split; [exact Happs|].
  assert (Hsub : forall m,
             In m (jobsToApply_on clock (id u) preferences db) ->
             In m matchedJobs).
  { intros m Hm. unfold jobsToApply_on in Hm.
    now apply filter_In in Hm as [Hm _]. }
  assert (Hle : (List.length (jobsToApply_on clock (id u) preferences db)
                 <= List.length matchedJobs)%nat).
  { unfold jobsToApply_on. apply filter_length_le. }
  split.
  - rewrite length_map, length_firstn. lia.
  - apply Forall_forall. intros a Ha.
    apply in_map_iff in Ha as (m & <- & Hm).
    exists m. split; [|reflexivity].
    apply Hsub. now apply firstn_In in Hm.
Qed.

Lemma autoApply_within_daily_quota_witness :
  exists created,
    applications (fst (autoApply morning (request_of_alice "") (store true)))
    = applications (store true) ++ created
    /\ (Z.of_nat (List.length created) <= 2)%Z.
Proof.
  destruct (autoApply_within_daily_quota morning (request_of_alice "") alice
              (preferences_of_alice true) (store true))
    as (_ & _ & _ & _ & created & Happs & Hlen & _);
    [reflexivity | reflexivity | reflexivity | vm_compute; reflexivity |].
  exists created. split; [exact Happs | exact Hlen].
Defined.

End ApplicationControllerClaims.

Section JobControllerExamples.
Import Prisma Express JobController Examples.

Lemma toggleFavorite_twice_on_unscored_witness :
  exists entry,
    find (cache_key "user-1" "job-5")
      (jobMatchCache
         (fst (toggleFavorite evening (request_of_alice "job-5")
                 (fst (toggleFavorite morning (request_of_alice "job-5")
                         (store true))))))
    = Some entry
    /\ JobMatchCache.isFavorite entry = false
    /\ JobMatchCache.matchScore entry = 0%Z.
Proof.
  destruct (toggleFavorite_twice_on_unscored morning evening
              (request_of_alice "job-5") alice
              (job_row "job-5" "Test Engineer") (store true))
    as (_ & entry & Hfind & _ & Hfav & Hscore);
    [reflexivity | reflexivity | reflexivity |].
  exists entry. repeat split; assumption.
Defined.

Lemma hideJob_sets_only_isHidden_witness :
  hideJob evening (request_of_alice "job-2")
    (fst (hideJob morning (request_of_alice "job-2") (store true)))
  = (fst (hideJob morning (request_of_alice "job-2") (store true)),
     inr "Job hidden successfully"%string)
  /\ hideJob evening (request_of_alice "job-5")
       (fst (hideJob morning (request_of_alice "job-5") (store true)))
     = (fst (hideJob morning (request_of_alice "job-5") (store true)),
        inr "Job hidden successfully"%string).
Proof.
  split.
  - apply (hideJob_sets_only_isHidden morning evening
             (request_of_alice "job-2") alice
             (job_row "job-2" "Backend Engineer") (store true));
      reflexivity.
  - apply (hideJob_sets_only_isHidden morning evening
             (request_of_alice "job-5") alice
             (job_row "job-5" "Test Engineer") (store true));
      reflexivity.
Defined.

End JobControllerExamples.

(* ================================================================== *)
(** * Auto-apply on a store that respects the schema *)

Section AutoApplySucceeds.
Import Prisma Express ApplicationController.










End AutoApplySucceeds.

(* ================================================================== *)
(** * Properties of the basic scorer: percentages *)

Section PercentageFacts.
Import Js Binary64 Percentage.
Local Open Scope Z_scope.

Lemma within_of_at_most R x : at_most R x -> unsigned x -> within R x.
Proof.
  destruct x as [[]|[]| |[] m e]; simpl; intros H1 H2;
    try discriminate; try tauto.
Qed.

Lemma Prim2SF_0 : Prim2SF 0%float = S754_zero false.
Proof. reflexivity. Qed.

(** A quotient of two positive numbers has its sign bit clear. *)
Lemma SFdiv_unsigned (m1 m2 : positive) (e1 e2 : Z) :
  unsigned (SFdiv prec emax (S754_finite false m1 e1) (S754_finite false m2 e2)).
Proof.
  unfold SFdiv.
  destruct (SFdiv_core_binary_bounds m1 m2 e1 e2) as (q & l & -> & Hq & _).
  pose proof (binary_round_aux_sign (xorb false false) q
                (Z.min (fexp prec emax
                          (Zpos (digits2_pos m1) + e1
                           - (Zpos (digits2_pos m2) + e2))) (e1 - e2))
                l Hq) as H.
  destruct (binary_round_aux _ _ _ _ _ _); simpl in *; assumption.
Qed.

Lemma SFmul_100_unsigned (x : spec_float) :
  within 1 x -> unsigned (SFmul prec emax x sf100).
Proof.
  destruct x as [[]|[]| |[] m e]; simpl; try tauto; intros _.
  pose proof (binary_round_aux_sign (xorb false false)
                (Zpos (m * 7036874417766400)) (e + -46) loc_Exact
                ltac:(lia)) as H.
  destruct (binary_round_aux _ _ _ _ _ _); simpl in *; assumption.
Qed.

Lemma within_at_most R x : within R x -> at_most R x.
Proof. destruct x as [[]|[]| |[] m e]; simpl; tauto. Qed.

(** A number divided by itself. *)
Lemma SFdiv_self (m : positive) (e : Z) :
  SFdiv prec emax (S754_finite false m e) (S754_finite false m e)
  = S754_finite false 4503599627370496 (-52).
Proof.
  unfold SFdiv, SFdiv_core_binary. cbn [Zdigits2].
  replace (Zpos (digits2_pos m) + e - (Zpos (digits2_pos m) + e)) with 0
    by lia.
  replace (e - e) with 0 by lia.
  change (Z.min (fexp prec emax 0) 0) with (-53).
  change (0 - -53) with 53.
  rewrite Z.shiftl_mul_pow2 by lia.
  assert (H : Z.div_eucl (Zpos m * 2 ^ 53) (Zpos m) = (2 ^ 53, 0)).
  { pose proof (Z_div_mod (Zpos m * 2 ^ 53) (Zpos m) ltac:(lia)) as H.
    destruct (Z.div_eucl (Zpos m * 2 ^ 53) (Zpos m)) as [q r].
    assert (q = 2 ^ 53) by nia. f_equal; nia. }
  rewrite H. unfold new_location.
  destruct (Z.even (Zpos m)); reflexivity.
Qed.

Lemma Z2float_div_self (a : Z) :
  0 < a < 2 ^ 53 -> (Z2float a / Z2float a)%float = 1%float.
Proof.
  intros Ha. apply Prim2SF_inj. rewrite div_spec.
  destruct (Prim2SF_Z2float_pos a Ha) as (m & e & -> & _).
  apply SFdiv_self.
Qed.

Lemma Z2float_0_div (a : Z) :
  0 < a < 2 ^ 53 -> (Z2float 0 / Z2float a)%float = 0%float.
Proof.
  intros Ha. apply Prim2SF_inj. rewrite div_spec.
  destruct (Prim2SF_Z2float_pos a Ha) as (m & e & -> & _).
  reflexivity.
Qed.

(** [Math.round] of a number from 0 to 100 is a whole number from 0 to
    100. *)
Lemma Math_round_within_100 (y : float) :
  within 100 (Prim2SF y) -> percentage (Math_round y).
Proof.
  intros Hy. pose proof (Prim2SF_valid y) as Hv.
  unfold Math_round.
  destruct (Prim2SF y) as [[]|[]| |[] m e] eqn:Ey; cbn [within] in Hy; try tauto.
  - exists 0. split; [lia|].
    apply Prim2SF_inj. rewrite Ey. reflexivity.
  - destruct Hy as [He0 Hm].
    destruct (Z.leb_spec 0 e) as [He|He].
    + exfalso. assert (e = 0) by lia. subst e.
      change (2 ^ (- 0)) with 1 in Hm.
      simpl in Hv. apply andb_true_iff in Hv as [Hc _].
      unfold canonical_mantissa in Hc. apply Z.eqb_eq in Hc.
      rewrite Z.add_0_r in Hc.
      assert (Hd : Zpos (digits2_pos m) <= 7).
      { apply (Zdigits2_le (Zpos m) 7); [lia | lia |].
        change (2 ^ 7) with 128. lia. }
      unfold fexp, SpecFloat.emin, prec, emax in Hc. lia.
    + assert (HP : 0 < 2 ^ (- e)) by (apply Z.pow_pos_nonneg; lia).
      assert (HP2 : 2 ^ (1 - e) = 2 * 2 ^ (- e)).
      { replace (1 - e) with (Z.succ (- e)) by lia.
        now rewrite Z.pow_succ_r by lia. }
      set (n := (2 * Zpos m + 2 ^ (- e)) / 2 ^ (1 - e)).
      assert (Hn : 0 <= n <= 100).
      { unfold n. rewrite HP2. split.
        - apply Z.div_pos; lia.
        - assert ((2 * Zpos m + 2 ^ (- e)) / (2 * 2 ^ (- e)) < 101).
          { apply Z.div_lt_upper_bound; lia. }
          lia. }
      destruct (Z.eqb_spec n 0) as [Hn0|Hn0].
      * exists 0. split; [lia | reflexivity].
      * exists n. split; [assumption | reflexivity].
Qed.

(** The percentage of a part in a whole is a whole number from 0 to 100. *)
Lemma percent_percentage (a b : Z) :
  0 < a < 2 ^ 53 -> 0 <= b <= a ->
  percentage (Math_round (Z2float b / Z2float a * 100)).
Proof.
  intros Ha Hb.
  destruct (Z.eq_dec b 0) as [->|Hb0].
  { rewrite Z2float_0_div by assumption.
    exists 0. split; [lia | vm_compute; reflexivity]. }
  destruct (Z.eq_dec b a) as [->|Hba].
  { rewrite Z2float_div_self by assumption.
    exists 100. split; [lia | vm_compute; reflexivity]. }
  apply Math_round_within_100.
  rewrite mul_spec, Prim2SF_100.
  assert (Hq : within 1 (Prim2SF (Z2float b / Z2float a))).
  { rewrite div_spec.
    destruct (Prim2SF_Z2float_pos a Ha) as (ma & ea & -> & Hea & Hma).
    destruct (Prim2SF_Z2float_pos b ltac:(lia)) as (mb & eb & Eb & Heb & Hmb).
    apply within_of_at_most.
    - apply (SFdiv_at_most_1 a); [|assumption|assumption].
      rewrite Eb. simpl. exists b. repeat split; (lia || assumption).
    - rewrite Eb. apply SFdiv_unsigned. }
  apply within_of_at_most.
  - apply SFmul_100_at_most; [apply Prim2SF_valid|].
    apply within_at_most, Hq.
  - apply SFmul_100_unsigned, Hq.
Qed.

(** A number in range, seen through its image. *)
Lemma in_range_within (x : float) :
  in_range x = true -> within 100 (Prim2SF x).
Proof.
  unfold in_range. intros H. apply andb_true_iff in H as [H0 H100].
  apply orb_true_iff in H0 as [H0|H0].
  { apply FloatAxioms.Leibniz.eqb_spec in H0. subst x. exact I. }
  pose proof (Prim2SF_valid x) as Hv.
  rewrite ltb_spec, Prim2SF_0 in H0.
  rewrite leb_spec, Prim2SF_100 in H100.
  destruct (Prim2SF x) as [[]|[]| |[] m e]; try discriminate.
  unfold SFleb, SFcompare, sf100 in H100.
  simpl in Hv. apply andb_true_iff in Hv as [Hc _].
  unfold canonical_mantissa in Hc. apply Z.eqb_eq in Hc.
  assert (Hd : Zpos (digits2_pos m) <= 53).
  { unfold fexp, SpecFloat.emin, prec, emax in Hc. lia. }
  destruct (digits2_pos_bounds m) as [_ Hhi].
  assert (Hm : Zpos m < 2 ^ 53).
  { eapply Z.lt_le_trans; [exact Hhi|]. apply Z.pow_le_mono_r; lia. }
  cbn [within].
  destruct (Z.compare_spec e (-46)) as [He|He|He]; try discriminate.
  - subst e. split; [lia|].
    change (100 * 2 ^ (- -46)) with (Zpos 7036874417766400).
    pose proof (Pos.compare_spec m 7036874417766400%positive) as H.
    unfold Pos.compare in H.
    destruct H as [H|H|H];
      [subst m; apply Z.le_refl | apply Z.lt_le_incl; exact H
      | discriminate H100].
  - split; [lia|].
    assert (2 ^ 47 <= 2 ^ (- e)) by (apply Z.pow_le_mono_r; lia).
    change (2 ^ 53) with (64 * 2 ^ 47) in Hm. lia.
Qed.

Lemma forallb5_spec {A} (f : A -> A -> A -> A -> A -> bool)
    (l1 l2 l3 l4 l5 : list A) :
  forallb5 f l1 l2 l3 l4 l5 = true ->
  forall a b c d e,
    In a l1 -> In b l2 -> In c l3 -> In d l4 -> In e l5 ->
    f a b c d e = true.
Proof.
  unfold forallb5. intros H a b c d e Ha Hb Hc Hd He.
  rewrite forallb_forall in H. specialize (H a Ha).
  rewrite forallb_forall in H. specialize (H b Hb).
  rewrite forallb_forall in H. specialize (H c Hc).
  rewrite forallb_forall in H. specialize (H d Hd).
  rewrite forallb_forall in H. exact (H e He).
Qed.

(** Every sum the blocks can reach is in range. *)
Lemma sums_in_range :
  forallb5 sum_in_range percentages percentages percentages
    location_outcomes role_outcomes = true.
Proof. vm_compute. reflexivity. Qed.

Lemma weighted_sum_percentage s e sal loc fit :
  In s percentages -> In e percentages -> In sal percentages ->
  In loc location_outcomes -> In fit role_outcomes ->
  percentage (Math_round (weighted_sum s e sal loc fit)).
Proof.
  intros Hs He Hsal Hloc Hfit.
  apply Math_round_within_100, in_range_within.
  exact (forallb5_spec _ _ _ _ _ _ sums_in_range s e sal loc fit
           Hs He Hsal Hloc Hfit).
Qed.

Lemma percentage_in (x : float) : percentage x -> In (Some x) percentages.
Proof.
  intros (n & Hn & ->). right.
  apply in_map_iff. exists (Z.to_nat n). split.
  - rewrite Z2Nat.id by lia. reflexivity.
  - apply in_seq. lia.
Qed.

End PercentageFacts.

(* ================================================================== *)
(** * Properties of the basic scorer: range of the score, reasons *)

Section BasicScoreRange.
Import Js Matching Percentage Examples.

Lemma percentage_0 : percentage 0%float.
Proof. exists 0%Z. split; [lia | reflexivity]. Qed.

Lemma percentage_80 : percentage 80%float.
Proof. exists 80%Z. split; [lia | vm_compute; reflexivity]. Qed.

Lemma percentage_100 : percentage 100%float.
Proof. exists 100%Z. split; [lia | vm_compute; reflexivity]. Qed.

Lemma in_percentages (x : float) : In (Some x) percentages -> percentage x.
Proof.
  intros [H|H]; [discriminate|].
  apply in_map_iff in H as (n & [= <-] & Hn). apply in_seq in Hn.
  exists (Z.of_nat n). split; [lia | reflexivity].
Qed.

Lemma in_location_outcomes (x : float) :
  In (Some x) location_outcomes -> percentage x.
Proof.
  intros [H|[[= <-]|[[= <-]|[[= <-]|[]]]]]; [discriminate| | |].
  - exact percentage_0.
  - exact percentage_80.
  - exact percentage_100.
Qed.

Lemma in_role_outcomes (x : float) :
  In (Some x) role_outcomes -> percentage x.
Proof.
  intros [H|[[= <-]|[[= <-]|[]]]]; [discriminate| |].
  - exact percentage_0.
  - exact percentage_100.
Qed.

(** ** What each block does *)

Lemma skills_block_step profile job a :
  (forall ps reqs,
      UserProfile.skills profile = Some ps ->
      Job.skillsRequired job = Some reqs ->
      (List.length (filter (skill_matches reqs) ps) <= List.length reqs)%nat
      /\ (Z.of_nat (List.length reqs) < 2 ^ 32)%Z) ->
  block_step 0.4 set_skillsMatch percentages a (skills_block profile job a).
Proof.
  intros H. unfold skills_block.
  destruct (UserProfile.skills profile) as [ps|];
    [|exists None; simpl; auto].
  destruct (Job.skillsRequired job) as [reqs|];
    [|exists None; rewrite andb_false_r; simpl; auto].
  destruct (H ps reqs eq_refl eq_refl) as [Hle Hlen].
  destruct (truthy_len (Some ps) && truthy_len (Some reqs)) eqn:Et;
    [|exists None; simpl; auto].
  apply andb_true_iff in Et as [_ Er].
  assert (Hpos : (0 < List.length reqs)%nat)
    by (destruct reqs; [discriminate | simpl; lia]).
  set (m := Math_round _).
  assert (Hm : percentage m).
  { apply percent_percentage; [|lia].
    assert (2 ^ 32 < 2 ^ 53)%Z by (apply Z.pow_lt_mono_r; lia). lia. }
  exists (Some m). split; [apply percentage_in, Hm|].
  destruct (0 <? List.length (filter (skill_matches reqs) ps))%nat;
    split; reflexivity.
Qed.

Lemma experience_block_step profile job a :
  (forall years, UserProfile.experienceYears profile = Some years ->
     (0 <= years)%Z) ->
  block_step 0.2 set_experienceMatch percentages a
    (experience_block profile job a).
Proof.
  intros H. unfold experience_block.
  destruct (UserProfile.experienceYears profile) as [years|];
    [|exists None; simpl; auto].
  specialize (H years eq_refl).
  destruct (Job.experienceLevel job) as [level|];
    [|exists None; simpl; auto].
  destruct (truthy_num (Some years)) eqn:Ey; [|exists None; simpl; auto].
  simpl in Ey. apply negb_true_iff, Z.eqb_neq in Ey.
  set (requiredExp := if truthy_num (Some (expMap level)) then expMap level
                      else 0%Z).
  assert (Hreq : (0 <= requiredExp <= 8)%Z)
    by (unfold requiredExp; destruct level; simpl; lia).
  destruct (Z.leb_spec requiredExp years) as [Hge|Hlt].
  - exists (Some 100%float).
    split; [apply percentage_in, percentage_100 | split; reflexivity].
  - set (m := Math_round _).
    assert (Hm : percentage m).
    { apply percent_percentage; [|lia].
      assert (8 < 2 ^ 53)%Z by reflexivity. lia. }
    exists (Some m). split; [apply percentage_in, Hm | split; reflexivity].
Qed.

Lemma salary_block_step profile job a :
  (forall pmin, UserProfile.salaryMin profile = Some pmin ->
     (0 <= pmin < 2 ^ 31)%Z) ->
  (forall jmax, Job.salaryMax job = Some jmax -> (0 <= jmax)%Z) ->
  block_step 0.2 set_salaryMatch percentages a (salary_block profile job a).
Proof.
  intros Hp Hj. unfold salary_block.
  destruct (UserProfile.salaryMin profile) as [pmin|];
    [|exists None; simpl; auto].
  specialize (Hp pmin eq_refl).
  destruct (Job.salaryMax job) as [jmax|]; [|exists None; simpl; auto].
  specialize (Hj jmax eq_refl).
  destruct (truthy_num (Some pmin) && truthy_num (Some jmax)) eqn:Et;
    [|exists None; simpl; auto].
  destruct (Z.leb_spec pmin jmax) as [Hle|Hlt].
  - exists (Some 100%float).
    split; [apply percentage_in, percentage_100 | split; reflexivity].
  - set (m := Math_round _).
    assert (Hm : percentage m).
    { apply percent_percentage; [|lia].
      assert (2 ^ 31 < 2 ^ 53)%Z by (apply Z.pow_lt_mono_r; lia). lia. }
    exists (Some m). split; [apply percentage_in, Hm | split; reflexivity].
Qed.

Lemma set_locationMatch_same d :
  locationMatch d = 0%float -> set_locationMatch 0 d = d.
Proof. destruct d; simpl; intros ->; reflexivity. Qed.

Lemma set_overallFit_same d :
  overallFit d = 0%float -> set_overallFit 0 d = d.
Proof. destruct d; simpl; intros ->; reflexivity. Qed.

Lemma location_block_step profile job a :
  locationMatch (acc_details a) = 0%float ->
  block_step 0.1 set_locationMatch location_outcomes a
    (location_block profile job a).
Proof.
  intros H0. unfold location_block.
  destruct (UserProfile.location profile) as [ploc|];
    [|exists None; simpl; auto].
  destruct (Job.location job) as [jloc|]; [|exists None; simpl; auto].
  destruct (truthy_str (Some ploc) && truthy_str (Some jloc));
    [|exists None; simpl; auto].
  destruct ((toLowerCase ploc =? toLowerCase jloc)%string
            || includes (toLowerCase jloc) (toLowerCase ploc)
            || includes (toLowerCase ploc) (toLowerCase jloc)).
  - exists (Some 100%float). simpl. auto 6.
  - assert (Hskip :
      block_step 0.1 set_locationMatch location_outcomes a
        (add_weighted (locationMatch (acc_details a)) 0.1 a)).
    { exists (Some 0%float). simpl. rewrite H0.
      rewrite set_locationMatch_same by assumption. auto. }
    destruct (Job.locationType job) as [[]|]; try exact Hskip.
    exists (Some 80%float). simpl. auto 6.
Qed.

Lemma role_block_step profile job a :
  overallFit (acc_details a) = 0%float ->
  block_step 0.1 set_overallFit role_outcomes a (role_block profile job a).
Proof.
  intros H0. unfold role_block.
  destruct (UserProfile.preferredRoles profile) as [[|role roles]|];
    [exists None; simpl; auto| |exists None; simpl; auto].
  destruct (existsb _ _).
  - exists (Some 100%float). simpl. auto 6.
  - exists (Some 0%float). simpl. rewrite H0.
    rewrite set_overallFit_same by assumption. auto.
Qed.

(** ** The score and the sub-scores *)

Lemma percentages_only_set_skillsMatch v d :
  percentage v -> percentages_only d -> percentages_only (set_skillsMatch v d).
Proof. unfold percentages_only. simpl. tauto. Qed.

Lemma percentages_only_set_experienceMatch v d :
  percentage v -> percentages_only d ->
  percentages_only (set_experienceMatch v d).
Proof. unfold percentages_only. simpl. tauto. Qed.

Lemma percentages_only_set_salaryMatch v d :
  percentage v -> percentages_only d -> percentages_only (set_salaryMatch v d).
Proof. unfold percentages_only. simpl. tauto. Qed.

Lemma percentages_only_set_locationMatch v d :
  percentage v -> percentages_only d ->
  percentages_only (set_locationMatch v d).
Proof. unfold percentages_only. simpl. tauto. Qed.

Lemma percentages_only_set_overallFit v d :
  percentage v -> percentages_only d -> percentages_only (set_overallFit v d).
Proof. unfold percentages_only. simpl. tauto. Qed.

Lemma percentages_only_initial : percentages_only (acc_details initial).
Proof. repeat split; exact percentage_0. Qed.

Lemma percentages_only_step w set outcomes a a' :
  (forall v d, percentage v -> percentages_only d ->
     percentages_only (set v d)) ->
  (forall v, In (Some v) outcomes -> percentage v) ->
  block_step w set outcomes a a' ->
  percentages_only (acc_details a) -> percentages_only (acc_details a').
Proof.
  intros Hset Hout (x & Hx & _ & ->) Ha.
  destruct x as [v|]; [apply Hset; auto | assumption].
Qed.

(** X1: for a profile and a job whose folded strings are in the ASCII
    range: when no more profile skills match than the job requires skills,
    and the years of experience and the salary figures are not negative
    (the minimum a 32-bit integer, the list of requirements a JavaScript
    array), the score of [calculateBasicMatchScore] and its five sub-scores
    are whole numbers from 0 to 100. *)
Theorem basic_score_is_percentage (profile : UserProfile.t) (job : Job.t) :
  AsciiRange.ascii_profile profile = true ->
  AsciiRange.ascii_job job = true ->
  (forall ps reqs,
      UserProfile.skills profile = Some ps ->
      Job.skillsRequired job = Some reqs ->
      (List.length (filter (skill_matches reqs) ps) <= List.length reqs)%nat
      /\ (Z.of_nat (List.length reqs) < 2 ^ 32)%Z) ->
  (forall years, UserProfile.experienceYears profile = Some years ->
     (0 <= years)%Z) ->
  (forall pmin, UserProfile.salaryMin profile = Some pmin ->
     (0 <= pmin < 2 ^ 31)%Z) ->
  (forall jmax, Job.salaryMax job = Some jmax -> (0 <= jmax)%Z) ->
  percentage (score (calculateBasicMatchScore profile job))
  /\ percentages_only (details (calculateBasicMatchScore profile job)).
Proof.
  intros _ _ Hs He Hp Hj.
  unfold calculateBasicMatchScore. cbn [score details].
  pose proof (skills_block_step profile job initial Hs) as B1.
  set (a1 := skills_block profile job initial) in *.
  pose proof (experience_block_step profile job a1 He) as B2.
  set (a2 := experience_block profile job a1) in *.
  pose proof (salary_block_step profile job a2 Hp Hj) as B3.
  set (a3 := salary_block profile job a2) in *.
  assert (D3 : locationMatch (acc_details a3) = 0%float
               /\ overallFit (acc_details a3) = 0%float).
  { destruct B1 as (x1 & _ & _ & D1), B2 as (x2 & _ & _ & D2),
      B3 as (x3 & _ & _ & D3).
    rewrite D3, D2, D1.
    destruct x3, x2, x1; split; reflexivity. }
  pose proof (location_block_step profile job a3 (proj1 D3)) as B4.
  set (a4 := location_block profile job a3) in *.
  assert (D4 : overallFit (acc_details a4) = 0%float).
  { destruct B4 as (x4 & _ & _ & D4). rewrite D4.
    destruct x4; [exact (proj2 D3) | exact (proj2 D3)]. }
  pose proof (role_block_step profile job a4 D4) as B5.
  set (a5 := role_block profile job a4) in *.
  split.
  - destruct B1 as (x1 & I1 & S1 & _), B2 as (x2 & I2 & S2 & _),
      B3 as (x3 & I3 & S3 & _), B4 as (x4 & I4 & S4 & _),
      B5 as (x5 & I5 & S5 & _).
    rewrite S5, S4, S3, S2, S1.
    exact (weighted_sum_percentage x1 x2 x3 x4 x5 I1 I2 I3 I4 I5).
  - apply (percentages_only_step _ _ _ _ _
             percentages_only_set_overallFit in_role_outcomes B5).
    apply (percentages_only_step _ _ _ _ _
             percentages_only_set_locationMatch in_location_outcomes B4).
    apply (percentages_only_step _ _ _ _ _
             percentages_only_set_salaryMatch in_percentages B3).
    apply (percentages_only_step _ _ _ _ _
             percentages_only_set_experienceMatch in_percentages B2).
    apply (percentages_only_step _ _ _ _ _
             percentages_only_set_skillsMatch in_percentages B1).
    exact percentages_only_initial.
Qed.

Lemma basic_score_is_percentage_witness :
  percentage
    (score (calculateBasicMatchScore scenario_profile (scenario_job "Berlin"))).
Proof.
  apply (basic_score_is_percentage scenario_profile (scenario_job "Berlin")).
  - reflexivity.
  - reflexivity.
  - intros ps reqs [= <-] [= <-]. split; [vm_compute; lia | reflexivity].
  - intros years [= <-]. lia.
  - intros pmin [= <-]. split; [lia | reflexivity].
  - intros jmax [= <-]. lia.
Defined.

(** X2: a profile with nothing to match on (no skills, no or zero years of
    experience, no or a zero minimum salary, no location, no preferred
    role) scores 0 on every job, with all sub-scores 0 and the single
    reason "General profile match". *)
Theorem basic_score_of_blank_profile (profile : UserProfile.t) (job : Job.t) :
  truthy_len (UserProfile.skills profile) = false ->
  truthy_num (UserProfile.experienceYears profile) = false ->
  truthy_num (UserProfile.salaryMin profile) = false ->
  truthy_str (UserProfile.location profile) = false ->
  truthy_len (UserProfile.preferredRoles profile) = false ->
  calculateBasicMatchScore profile job
  = {| score := 0%float;
       reasons := ["General profile match"%string];
       details :=
         {| skillsMatch := 0%float; experienceMatch := 0%float;
            salaryMatch := 0%float; locationMatch := 0%float;
            overallFit := 0%float |} |}.
Proof.
  intros Hs He Hp Hl Hr.
  assert (B1 : forall a, skills_block profile job a = a).
  { intros a. unfold skills_block. rewrite Hs. reflexivity. }
  assert (B2 : forall a, experience_block profile job a = a).
  { intros a. unfold experience_block.
    destruct (UserProfile.experienceYears profile); [|reflexivity].
    rewrite He. destruct (Job.experienceLevel job); reflexivity. }
  assert (B3 : forall a, salary_block profile job a = a).
  { intros a. unfold salary_block.
    destruct (UserProfile.salaryMin profile); [|reflexivity].
    rewrite Hp. destruct (Job.salaryMax job); reflexivity. }
  assert (B4 : forall a, location_block profile job a = a).
  { intros a. unfold location_block.
    destruct (UserProfile.location profile); [|reflexivity].
    rewrite Hl. destruct (Job.location job); reflexivity. }
  assert (B5 : forall a, role_block profile job a = a).
  { intros a. unfold role_block.
    destruct (UserProfile.preferredRoles profile) as [[|r rs]|];
      [reflexivity | discriminate | reflexivity]. }
  unfold calculateBasicMatchScore. rewrite B1, B2, B3, B4, B5.
  reflexivity.
Qed.

Lemma basic_score_of_blank_profile_witness :
  score (calculateBasicMatchScore newcomer_profile (scenario_job "Berlin"))
  = 0%float.
Proof.
  rewrite (basic_score_of_blank_profile newcomer_profile
             (scenario_job "Berlin")); reflexivity.
Defined.

(** ** The reasons *)

Ltac split_matches :=
  repeat match goal with
         | |- context [match ?x with _ => _ end] => destruct x
         | |- context [if ?x then _ else _] => destruct x
         end.

Lemma skills_block_reasons profile job a :
  (List.length (acc_reasons a)
   <= List.length (acc_reasons (skills_block profile job a))
   <= S (List.length (acc_reasons a)))%nat.
Proof.
  unfold skills_block. split_matches; simpl;
    rewrite ?List.length_app; simpl; lia.
Qed.

Lemma experience_block_reasons profile job a :
  (List.length (acc_reasons a)
   <= List.length (acc_reasons (experience_block profile job a))
   <= S (List.length (acc_reasons a)))%nat.
Proof.
  unfold experience_block. split_matches; simpl;
    rewrite ?List.length_app; simpl; lia.
Qed.

Lemma salary_block_reasons profile job a :
  (List.length (acc_reasons a)
   <= List.length (acc_reasons (salary_block profile job a))
   <= S (List.length (acc_reasons a)))%nat.
Proof.
  unfold salary_block. split_matches; simpl;
    rewrite ?List.length_app; simpl; lia.
Qed.

Lemma location_block_reasons profile job a :
  (List.length (acc_reasons a)
   <= List.length (acc_reasons (location_block profile job a))
   <= S (List.length (acc_reasons a)))%nat.
Proof.
  unfold location_block. split_matches; simpl;
    rewrite ?List.length_app; simpl; lia.
Qed.

Lemma role_block_reasons profile job a :
  (List.length (acc_reasons a)
   <= List.length (acc_reasons (role_block profile job a))
   <= S (List.length (acc_reasons a)))%nat.
Proof.
  unfold role_block. split_matches; simpl;
    rewrite ?List.length_app; simpl; lia.
Qed.

(** X3: [calculateBasicMatchScore] always gives at least one reason and at
    most five. *)
Theorem basic_reasons_between_1_and_5 (profile : UserProfile.t)
    (job : Job.t) :
  (1 <= List.length (reasons (calculateBasicMatchScore profile job)) <= 5)%nat.
Proof.
  unfold calculateBasicMatchScore. cbn [reasons].
  pose proof (skills_block_reasons profile job initial) as H1.
  set (a1 := skills_block profile job initial) in *.
  pose proof (experience_block_reasons profile job a1) as H2.
  set (a2 := experience_block profile job a1) in *.
  pose proof (salary_block_reasons profile job a2) as H3.
  set (a3 := salary_block profile job a2) in *.
  pose proof (location_block_reasons profile job a3) as H4.
  set (a4 := location_block profile job a3) in *.
  pose proof (role_block_reasons profile job a4) as H5.
  set (a5 := role_block profile job a4) in *.
  change (acc_reasons initial) with (@nil string) in H1.
  simpl in H1.
  destruct (acc_reasons a5); simpl in *; lia.
Qed.

End BasicScoreRange.

(* ================================================================== *)
(** * Properties of the basic scorer: letter case and order *)

Section BasicScoreUpToCase.
Import Js Matching UpToCase Examples.

Lemma toLowerCase_empty (s : string) :
  (toLowerCase s =? "")%string = (s =? "")%string.
Proof. destruct s; reflexivity. Qed.

Lemma existsb_map {A B} (f : B -> bool) (g : A -> B) (xs : list A) :
  existsb f (map g xs) = existsb (fun x => f (g x)) xs.
Proof. induction xs as [|x xs IH]; simpl; [reflexivity | now rewrite IH]. Qed.

Lemma existsb_Permutation {A} (f : A -> bool) (xs ys : list A) :
  Permutation xs ys -> existsb f xs = existsb f ys.
Proof.
  induction 1 as [|x xs ys _ IH|x y xs|xs ys zs _ IH1 _ IH2]; simpl.
  - reflexivity.
  - now rewrite IH.
  - destruct (f x), (f y); reflexivity.
  - now rewrite IH1.
Qed.

Lemma filter_length_Permutation {A} (f : A -> bool) (xs ys : list A) :
  Permutation xs ys ->
  List.length (filter f xs) = List.length (filter f ys).
Proof.
  induction 1 as [|x xs ys _ IH|x y xs|xs ys zs _ IH1 _ IH2]; simpl.
  - reflexivity.
  - destruct (f x); simpl; now rewrite IH.
  - destruct (f x), (f y); reflexivity.
  - now rewrite IH1.
Qed.

Lemma skill_matches_lowered (required : list string) (skill : string) :
  skill_matches required skill
  = matches_lowered (map toLowerCase required) (toLowerCase skill).
Proof. unfold skill_matches, matches_lowered. now rewrite existsb_map. Qed.

Lemma matching_skills_lowered (required skills : list string) :
  List.length (filter (skill_matches required) skills)
  = List.length
      (filter (matches_lowered (map toLowerCase required))
         (map toLowerCase skills)).
Proof.
  induction skills as [|s skills IH]; simpl; [reflexivity|].
  rewrite skill_matches_lowered.
  destruct (matches_lowered _ _); simpl; now rewrite IH.
Qed.

Lemma matching_skills_same (reqs reqs' ps ps' : list string) :
  Permutation (map toLowerCase reqs) (map toLowerCase reqs') ->
  Permutation (map toLowerCase ps) (map toLowerCase ps') ->
  List.length (filter (skill_matches reqs) ps)
  = List.length (filter (skill_matches reqs') ps').
Proof.
  intros Hr Hp. rewrite !matching_skills_lowered.
  rewrite (filter_length_Permutation _ _ _ Hp).
  f_equal. apply filter_ext. intros s.
  apply existsb_Permutation, Hr.
Qed.

Lemma same_strings_length (xs ys : list string) :
  Permutation (map toLowerCase xs) (map toLowerCase ys) ->
  List.length xs = List.length ys.
Proof.
  intros H. apply Permutation_length in H. now rewrite !length_map in H.
Qed.

Lemma skills_block_same p p' j j' a :
  same_strings (UserProfile.skills p) (UserProfile.skills p') ->
  same_strings (Job.skillsRequired j) (Job.skillsRequired j') ->
  skills_block p j a = skills_block p' j' a.
Proof.
  unfold skills_block, same_strings. intros Hp Hj.
  destruct (UserProfile.skills p) as [ps|],
    (UserProfile.skills p') as [ps'|]; try contradiction;
    [|reflexivity].
  destruct (Job.skillsRequired j) as [reqs|],
    (Job.skillsRequired j') as [reqs'|]; try contradiction;
    [|now rewrite !andb_false_r].
  rewrite (matching_skills_same reqs reqs' ps ps' Hj Hp).
  pose proof (same_strings_length _ _ Hp) as Lp.
  pose proof (same_strings_length _ _ Hj) as Lj.
  rewrite Lj.
  replace (truthy_len (Some ps)) with (truthy_len (Some ps'))
    by (destruct ps, ps'; simpl in *; congruence).
  replace (truthy_len (Some reqs)) with (truthy_len (Some reqs'))
    by (destruct reqs, reqs'; simpl in *; congruence).
  reflexivity.
Qed.

Lemma experience_block_same p p' j j' a :
  UserProfile.experienceYears p = UserProfile.experienceYears p' ->
  Job.experienceLevel j = Job.experienceLevel j' ->
  experience_block p j a = experience_block p' j' a.
Proof. unfold experience_block. intros -> ->. reflexivity. Qed.

Lemma salary_block_same p p' j j' a :
  UserProfile.salaryMin p = UserProfile.salaryMin p' ->
  Job.salaryMax j = Job.salaryMax j' ->
  salary_block p j a = salary_block p' j' a.
Proof. unfold salary_block. intros -> ->. reflexivity. Qed.

Lemma location_block_same p p' j j' a :
  option_map toLowerCase (UserProfile.location p)
  = option_map toLowerCase (UserProfile.location p') ->
  option_map toLowerCase (Job.location j)
  = option_map toLowerCase (Job.location j') ->
  Job.locationType j = Job.locationType j' ->
  location_block p j a = location_block p' j' a.
Proof.
  unfold location_block. intros Hp Hj <-.
  destruct (UserProfile.location p) as [ploc|],
    (UserProfile.location p') as [ploc'|]; try discriminate;
    [|reflexivity].
  destruct (Job.location j) as [jloc|],
    (Job.location j') as [jloc'|]; try discriminate; [|reflexivity].
  injection Hp as Hp. injection Hj as Hj.
  unfold truthy_str.
  rewrite <- (toLowerCase_empty ploc), <- (toLowerCase_empty jloc),
    <- (toLowerCase_empty ploc'), <- (toLowerCase_empty jloc').
  rewrite Hp, Hj. reflexivity.
Qed.

Lemma role_block_same p p' j j' a :
  same_strings (UserProfile.preferredRoles p) (UserProfile.preferredRoles p') ->
  toLowerCase (Job.title j) = toLowerCase (Job.title j') ->
  role_block p j a = role_block p' j' a.
Proof.
  unfold role_block, same_strings. intros Hp Ht.
  destruct (UserProfile.preferredRoles p) as [roles|],
    (UserProfile.preferredRoles p') as [roles'|]; try contradiction;
    [|reflexivity].
  pose proof (same_strings_length _ _ Hp) as Lp.
  assert (He :
    existsb (fun role => includes (toLowerCase (Job.title j))
                           (toLowerCase role)) roles
    = existsb (fun role => includes (toLowerCase (Job.title j'))
                             (toLowerCase role)) roles').
  { rewrite <- Ht.
    rewrite <- (existsb_map (includes (toLowerCase (Job.title j)))
                  toLowerCase roles).
    rewrite <- (existsb_map (includes (toLowerCase (Job.title j)))
                  toLowerCase roles').
    apply existsb_Permutation, Hp. }
  destruct roles as [|r rs], roles' as [|r' rs']; try discriminate;
    [reflexivity|].
  rewrite He. reflexivity.
Qed.

(** X4: on strings of the ASCII range, matching ignores the case of the
    letters and the order of the lists: two profiles, and two jobs, whose
    skills, roles, locations and title are in that range and are the same
    once lower-cased, the lists in any order, get the same result from
    [calculateBasicMatchScore]. *)
Theorem basic_score_ignores_case_and_order (p p' : UserProfile.t)
    (j j' : Job.t) :
  AsciiRange.ascii_profile p = true -> AsciiRange.ascii_profile p' = true ->
  AsciiRange.ascii_job j = true -> AsciiRange.ascii_job j' = true ->
  same_profile p p' -> same_job j j' ->
  calculateBasicMatchScore p j = calculateBasicMatchScore p' j'.
Proof.
  intros _ _ _ _ (Hs & He & Hp & Hl & Hr) (Hq & Hv & Hx & Hjl & Ht & Hti).
  unfold calculateBasicMatchScore.
  rewrite (skills_block_same p p' j j' initial Hs Hq).
  rewrite (experience_block_same p p' j j' _ He Hv).
  rewrite (salary_block_same p p' j j' _ Hp Hx).
  rewrite (location_block_same p p' j j' _ Hl Hjl Ht).
  rewrite (role_block_same p p' j j' _ Hr Hti).
  reflexivity.
Qed.

Lemma basic_score_ignores_case_and_order_witness :
  calculateBasicMatchScore scenario_profile (scenario_job "Berlin")
  = calculateBasicMatchScore shouting_profile (scenario_job "Berlin").
Proof.
  apply basic_score_ignores_case_and_order;
    [reflexivity | reflexivity | reflexivity | reflexivity | |].
  - repeat split; try reflexivity.
    + simpl. apply perm_swap.
    + simpl. apply Permutation_refl.
  - repeat split; try reflexivity. simpl. apply Permutation_refl.
Defined.

End BasicScoreUpToCase.

(* ================================================================== *)
(** * Properties of the batch scorer *)

Section ResultMapFacts.
Import Js Matching MatchingBatch.

Lemma Map_set_keys key value m k :
  In k (map fst (Map_set key value m)) <-> k = key \/ In k (map fst m).
Proof.
  induction m as [|[k' v'] m IH]; simpl.
  - intuition.
  - destruct (String.eqb_spec k' key) as [->|Hne]; simpl.
    + intuition.
    + rewrite IH. intuition.
Qed.

Lemma Map_set_NoDup key value m :
  NoDup (map fst m) -> NoDup (map fst (Map_set key value m)).
Proof.
  induction m as [|[k' v'] m IH]; simpl; intros Hnd.
  - constructor; [intros [] | constructor].
  - inversion Hnd as [|? ? Hnin Hnd']; subst.
    destruct (String.eqb_spec k' key) as [->|Hne]; simpl.
    + constructor; assumption.
    + constructor; [|auto].
      rewrite Map_set_keys. intros [->|H]; [now elim Hne | contradiction].
Qed.

Lemma Map_set_length_new key value m :
  ~ In key (map fst m) ->
  List.length (Map_set key value m) = S (List.length m).
Proof.
  induction m as [|[k' v'] m IH]; simpl; intros Hnin; [reflexivity|].
  destruct (String.eqb_spec k' key) as [->|Hne]; [intuition|].
  simpl. rewrite IH; intuition.
Qed.

Lemma Map_get_set_same key value m :
  Map_get key (Map_set key value m) = Some value.
Proof.
  induction m as [|[k' v'] m IH]; simpl.
  - now rewrite String.eqb_refl.
  - destruct (String.eqb_spec k' key) as [->|Hne]; simpl.
    + now rewrite String.eqb_refl.
    + destruct (String.eqb_spec k' key); [contradiction | exact IH].
Qed.

Lemma Map_get_set_other key key' value m :
  key' <> key -> Map_get key (Map_set key' value m) = Map_get key m.
Proof.
  intros Hne. induction m as [|[k' v'] m IH]; simpl.
  - destruct (String.eqb_spec key' key); [contradiction | reflexivity].
  - destruct (String.eqb_spec k' key') as [->|Hne']; simpl.
    + destruct (String.eqb_spec key' key); [contradiction | reflexivity].
    + now rewrite IH.
Qed.

End ResultMapFacts.

Section Batch.
Import Js Matching MatchingBatch.

Variable JSON_parse : string -> exn + value.
Variable StringToNumber : string -> float.
Variable ObjectToString : value -> string.
Variable completions_create : nat -> exn + ChatCompletion.
Variable settle_order : nat -> list (nat * Job.t) -> list (nat * Job.t).
Variable profile : UserProfile.t.

Local Abbreviation score_of :=
  (MatchingBatch.score_of JSON_parse StringToNumber ObjectToString
     completions_create profile).
Local Abbreviation set_all :=
  (MatchingBatch.set_all JSON_parse StringToNumber ObjectToString
     completions_create profile).

Lemma calculateMatchScore_fulfilled k job :
  calculateMatchScore JSON_parse StringToNumber ObjectToString
    (completions_create k) profile job
  = inr (score_of k job).
Proof.
  unfold calculateMatchScore, score_of, MatchingBatch.score_of.
  destruct (ai_strategy _ _ _ _); reflexivity.
Qed.

Lemma run_callbacks_fulfilled settled results :
  run_callbacks JSON_parse StringToNumber ObjectToString completions_create
    profile settled results
  = inr (set_all settled results).
Proof.
  revert results. induction settled as [|[k job] rest IH]; intros results.
  - reflexivity.
  - cbn [run_callbacks]. rewrite calculateMatchScore_fulfilled. apply IH.
Qed.

Lemma set_all_app xs ys results :
  set_all (xs ++ ys) results = set_all ys (set_all xs results).
Proof. apply fold_left_app. Qed.

Lemma set_all_keys settled results k :
  In k (map fst (set_all settled results))
  <-> In k (map fst results) \/ In k (map job_id settled).
Proof.
  revert results. induction settled as [|c rest IH]; intros results.
  - simpl. intuition.
  - change (set_all (c :: rest) results)
      with (set_all rest (Map_set (Job.id (snd c))
                            (score_of (fst c) (snd c)) results)).
    rewrite IH, Map_set_keys. simpl. unfold job_id at 2. intuition.
Qed.

Lemma set_all_NoDup settled results :
  NoDup (map fst results) -> NoDup (map fst (set_all settled results)).
Proof.
  revert results. induction settled as [|c rest IH]; intros results Hnd.
  - exact Hnd.
  - apply IH, Map_set_NoDup, Hnd.
Qed.

Lemma set_all_length settled results :
  NoDup (map job_id settled) ->
  (forall c, In c settled -> ~ In (job_id c) (map fst results)) ->
  List.length (set_all settled results)
  = (List.length results + List.length settled)%nat.
Proof.
  revert results. induction settled as [|c rest IH]; intros results Hnd Hnew.
  - simpl. lia.
  - inversion Hnd as [|? ? Hnin Hnd']; subst.
    change (set_all (c :: rest) results)
      with (set_all rest (Map_set (Job.id (snd c))
                            (score_of (fst c) (snd c)) results)).
    rewrite IH; [| assumption |].
    + rewrite Map_set_length_new by (apply Hnew; now left). simpl. lia.
    + intros c' Hc'. rewrite Map_set_keys. intros [Heq|Hin].
      * apply Hnin. unfold job_id at 1. rewrite <- Heq.
        now apply (in_map job_id).
      * revert Hin. apply Hnew. now right.
Qed.

Lemma set_all_get_other settled results key :
  ~ In key (map job_id settled) ->
  Map_get key (set_all settled results) = Map_get key results.
Proof.
  revert results. induction settled as [|c rest IH]; intros results Hnin.
  - reflexivity.
  - change (set_all (c :: rest) results)
      with (set_all rest (Map_set (Job.id (snd c))
                            (score_of (fst c) (snd c)) results)).
    rewrite IH by (simpl in Hnin; intuition).
    apply Map_get_set_other. simpl in Hnin. unfold job_id in Hnin at 1.
    intuition.
Qed.

Lemma set_all_get settled results k job :
  NoDup (map job_id settled) ->
  In (k, job) settled ->
  Map_get (Job.id job) (set_all settled results) = Some (score_of k job).
Proof.
  revert results. induction settled as [|c rest IH]; intros results Hnd Hin.
  - elim Hin.
  - inversion Hnd as [|? ? Hnin Hnd']; subst.
    change (set_all (c :: rest) results)
      with (set_all rest (Map_set (Job.id (snd c))
                            (score_of (fst c) (snd c)) results)).
    destruct Hin as [->|Hin].
    + rewrite set_all_get_other by exact Hnin.
      apply Map_get_set_same.
    + now apply IH.
Qed.

(** ** The loop *)

Lemma pauses_step (n i : nat) :
  (i < n)%nat ->
  ((n - i - 1) / 5
   = (if (i + 5 <? n)%nat then 1 else 0) + (n - (i + 5) - 1) / 5)%nat.
Proof.
  intros Hi. destruct (Nat.ltb_spec (i + 5) n) as [Hlt|Hge].
  - replace (n - i - 1)%nat with (1 * 5 + (n - (i + 5) - 1))%nat by lia.
    rewrite Nat.div_add_l by lia. reflexivity.
  - rewrite !Nat.div_small by lia. reflexivity.
Qed.

Lemma batch_loop_runs (jobs : list (nat * Job.t)) :
  forall fuel i results pauses,
    (List.length jobs <= i + fuel)%nat ->
    (forall i batch, Permutation (settle_order i batch) batch) ->
    exists settled,
      Permutation settled (skipn i jobs)
      /\ batch_loop JSON_parse StringToNumber ObjectToString
           completions_create settle_order fuel profile jobs i results pauses
         = Some (inr (set_all settled results,
                      (pauses + (List.length jobs - i - 1) / 5)%nat)).
Proof.
  induction fuel as [|fuel IH]; intros i results pauses Hfuel Hperm.
  - exists []. split.
    + rewrite skipn_all2 by lia. constructor.
    + cbn [batch_loop].
      destruct (Nat.ltb_spec i (List.length jobs)) as [Hlt|Hge]; [lia|].
      rewrite Nat.div_small by lia. rewrite Nat.add_0_r. reflexivity.
  - cbn [batch_loop].
    destruct (Nat.ltb_spec i (List.length jobs)) as [Hlt|Hge].
    + rewrite run_callbacks_fulfilled.
      set (batch := slice i (i + batchSize) jobs).
      destruct (IH (i + batchSize)%nat (set_all (settle_order i batch) results)
                  (if (i + batchSize <? List.length jobs)%nat then S pauses
                   else pauses))
        as (settled & Hs & ->); [unfold batchSize; lia | assumption |].
      exists (settle_order i batch ++ settled). split.
      * rewrite <- (firstn_skipn batchSize (skipn i jobs)).
        apply Permutation_app.
        -- unfold batch, slice.
           replace (i + batchSize - i)%nat with batchSize by lia.
           apply Hperm.
        -- rewrite skipn_skipn. rewrite (Nat.add_comm batchSize i).
           exact Hs.
      * rewrite set_all_app. do 3 f_equal.
        rewrite (pauses_step (List.length jobs) i Hlt). unfold batchSize.
        destruct (i + 5 <? List.length jobs)%nat; lia.
    + exists []. split.
      * rewrite skipn_all2 by lia. constructor.
      * rewrite Nat.div_small by lia. rewrite Nat.add_0_r. reflexivity.
Qed.

(** ** The positions *)

Lemma indexed_jobs (s : nat) (jobs : list Job.t) :
  map snd (combine (seq s (List.length jobs)) jobs) = jobs.
Proof.
  revert s. induction jobs as [|j jobs IH]; intros s; simpl;
    [reflexivity | now rewrite IH].
Qed.

Lemma indexed_length (jobs : list Job.t) :
  List.length (indexed jobs) = List.length jobs.
Proof.
  unfold indexed. rewrite length_combine, length_seq. lia.
Qed.

Lemma indexed_nth (s : nat) (jobs : list Job.t) k job :
  nth_error jobs k = Some job ->
  In ((s + k)%nat, job) (combine (seq s (List.length jobs)) jobs).
Proof.
  revert s k. induction jobs as [|j jobs IH]; intros s k Hk.
  - destruct k; discriminate.
  - destruct k as [|k]; simpl in *.
    + injection Hk as ->. left. f_equal. lia.
    + right. replace (s + S k)%nat with (S s + k)%nat by lia. now apply IH.
Qed.

Lemma batch_runs (jobs : list Job.t) :
  (forall i batch, Permutation (settle_order i batch) batch) ->
  exists settled,
    Permutation settled (indexed jobs)
    /\ batchCalculateMatchScores JSON_parse StringToNumber ObjectToString
         completions_create settle_order profile jobs
       = Some (inr (set_all settled [],
                    ((List.length jobs - 1) / 5)%nat)).
Proof.
  intros Hperm. unfold batchCalculateMatchScores.
  destruct (batch_loop_runs (indexed jobs) (List.length jobs) 0 [] 0)
    as (settled & Hs & ->); [rewrite indexed_length; lia | assumption |].
  exists settled. split; [exact Hs|].
  rewrite indexed_length, Nat.sub_0_r. reflexivity.
Qed.

(** X5: however the requests of a batch are ordered when they settle,
    [batchCalculateMatchScores] is fulfilled, never rejected; its map holds
    one entry for each job id of the list and no other; and it pauses once
    between two batches of five, [(n - 1) / 5] times for [n] jobs. *)
Theorem batch_scores_every_job_id (jobs : list Job.t) :
  (forall i batch, Permutation (settle_order i batch) batch) ->
  exists results pauses,
    batchCalculateMatchScores JSON_parse StringToNumber ObjectToString
      completions_create settle_order profile jobs
    = Some (inr (results, pauses))
    /\ (forall key, In key (map fst results) <-> In key (map Job.id jobs))
    /\ NoDup (map fst results)
    /\ pauses = ((List.length jobs - 1) / 5)%nat.
Proof.
  intros Hperm. destruct (batch_runs jobs Hperm) as (settled & Hs & ->).
  exists (set_all settled []), ((List.length jobs - 1) / 5)%nat.
  split; [reflexivity|]. split; [|split; [|reflexivity]].
  - intros key. rewrite set_all_keys. simpl.
    assert (Hmap : Permutation (map job_id settled) (map Job.id jobs)).
    { replace (map Job.id jobs) with (map job_id (indexed jobs)).
      - apply Permutation_map, Hs.
      - unfold job_id. rewrite <- map_map. unfold indexed.
        now rewrite indexed_jobs. }
    split.
    + intros [[]|H]. eapply Permutation_in; eassumption.
    + intros H. right. eapply Permutation_in; [symmetry|]; eassumption.
  - apply set_all_NoDup. constructor.
Qed.

(** X6: when the jobs of the list have distinct ids, the map of
    [batchCalculateMatchScores] holds as many entries as there are jobs,
    and the entry of each job is the result of [calculateMatchScore] for
    that job, however the requests of a batch are ordered when they
    settle. *)
Theorem batch_scores_each_job (jobs : list Job.t) :
  (forall i batch, Permutation (settle_order i batch) batch) ->
  NoDup (map Job.id jobs) ->
  exists results pauses,
    batchCalculateMatchScores JSON_parse StringToNumber ObjectToString
      completions_create settle_order profile jobs
    = Some (inr (results, pauses))
    /\ List.length results = List.length jobs
    /\ forall k job,
         nth_error jobs k = Some job ->
         exists result,
           calculateMatchScore JSON_parse StringToNumber ObjectToString
             (completions_create k) profile job = inr result
           /\ Map_get (Job.id job) results = Some result.
Proof.
  intros Hperm Hnd. destruct (batch_runs jobs Hperm) as (settled & Hs & ->).
  exists (set_all settled []), ((List.length jobs - 1) / 5)%nat.
  split; [reflexivity|].
  assert (Hmap : Permutation (map job_id settled) (map Job.id jobs)).
  { replace (map Job.id jobs) with (map job_id (indexed jobs)).
    - apply Permutation_map, Hs.
    - unfold job_id. rewrite <- map_map. unfold indexed.
      now rewrite indexed_jobs. }
  assert (Hnd' : NoDup (map job_id settled)).
  { eapply Permutation_NoDup; [symmetry; exact Hmap | exact Hnd]. }
  split.
  - rewrite set_all_length; [| exact Hnd' | intros c _ []].
    simpl. rewrite (Permutation_length Hs). apply indexed_length.
  - intros k job Hk. exists (score_of k job).
    split; [apply calculateMatchScore_fulfilled|].
    apply set_all_get; [exact Hnd'|].
    eapply Permutation_in; [symmetry; exact Hs|].
    exact (indexed_nth 0 jobs k job Hk).
Qed.

End Batch.

Section BatchExamplesFacts.
Import Js Matching MatchingBatch Examples BatchExamples.

Lemma last_first_rearranges i (batch : list (nat * Job.t)) :
  Permutation (last_first i batch) batch.
Proof. symmetry. apply Permutation_rev. Qed.

Lemma batch_scores_every_job_id_witness :
  exists results pauses,
    batchCalculateMatchScores parse_score_only no_string_to_number
      no_object_to_string all_rejected last_first scenario_profile three_jobs
    = Some (inr (results, pauses))
    /\ (forall key,
          In key (map fst results) <-> In key (map Job.id three_jobs))
    /\ NoDup (map fst results)
    /\ pauses = ((List.length three_jobs - 1) / 5)%nat.
Proof.
  apply (batch_scores_every_job_id parse_score_only no_string_to_number
           no_object_to_string all_rejected last_first scenario_profile
           three_jobs).
  exact last_first_rearranges.
Defined.

Lemma batch_scores_each_job_witness :
  exists results pauses,
    batchCalculateMatchScores parse_score_only no_string_to_number
      no_object_to_string all_rejected last_first scenario_profile three_jobs
    = Some (inr (results, pauses))
    /\ List.length results = List.length three_jobs
    /\ forall k job,
         nth_error three_jobs k = Some job ->
         exists result,
           calculateMatchScore parse_score_only no_string_to_number
             no_object_to_string (all_rejected k) scenario_profile job
           = inr result
           /\ Map_get (Job.id job) results = Some result.
Proof.
  apply (batch_scores_each_job parse_score_only no_string_to_number
           no_object_to_string all_rejected last_first scenario_profile
           three_jobs).
  - exact last_first_rearranges.
  - repeat constructor; simpl; intuition discriminate.
Defined.

End BatchExamplesFacts.

(* ================================================================== *)
(** * Properties of the match cache and of the effects of auto-apply *)

Section CacheEntries.
Import Prisma Express JobController StoreStates Examples.

Lemma update_first_twice {A} (sel : A -> bool) (f g : A -> A)
    (rows rows' : list A) :
  (forall x, sel (f x) = sel x) ->
  update_first sel f rows = Some rows' ->
  update_first sel g rows' = update_first sel (fun x => g (f x)) rows.
Proof.
  intros Hsel. revert rows'.
  induction rows as [|r rows IH]; intros rows' H; simpl in *.
  - discriminate.
  - destruct (sel r) eqn:Hr.
    + injection H as <-. simpl. now rewrite Hsel, Hr.
    + destruct (update_first sel f rows) as [rows1|]; [|discriminate].
      injection H as <-. simpl. rewrite Hr. now rewrite (IH rows1 eq_refl).
Qed.

Lemma update_first_map {A B} (sel : A -> bool) (f : A -> A) (h : A -> B)
    (rows rows' : list A) :
  (forall x, h (f x) = h x) ->
  update_first sel f rows = Some rows' -> map h rows' = map h rows.
Proof.
  intros Hh. revert rows'.
  induction rows as [|r rows IH]; intros rows' H; simpl in *.
  - discriminate.
  - destruct (sel r).
    + injection H as <-. simpl. now rewrite Hh.
    + destruct (update_first sel f rows) as [rows1|]; [|discriminate].
      injection H as <-. simpl. now rewrite (IH rows1 eq_refl).
Qed.

Lemma find_app_some {A} (sel : A -> bool) (xs ys : list A) (x : A) :
  find sel xs = Some x -> find sel (xs ++ ys) = Some x.
Proof.
  induction xs as [|a xs IH]; simpl; [discriminate|].
  destruct (sel a); auto.
Qed.

Lemma cache_key_pair u j c :
  cache_key u j c = true <-> cache_pair c = (u, j).
Proof.
  unfold cache_key, cache_pair.
  rewrite andb_true_iff, !String.eqb_eq. split.
  - now intros [-> ->].
  - now intros [= -> ->].
Qed.

Lemma find_cache_none_notin u j rows :
  find (cache_key u j) rows = None -> ~ In (u, j) (map cache_pair rows).
Proof.
  intros Hf Hin. apply in_map_iff in Hin as (c & Hc & Hin).
  apply cache_key_pair in Hc.
  apply find_none with (x := c) in Hf; [congruence | assumption].
Qed.

Lemma set_jobMatchCache_twice rows rows' db :
  set_jobMatchCache rows' (set_jobMatchCache rows db)
  = set_jobMatchCache rows' db.
Proof. reflexivity. Qed.

Lemma set_isFavorite_back c :
  set_isFavorite (JobMatchCache.isFavorite c)
    (set_isFavorite (negb (JobMatchCache.isFavorite c)) c) = c.
Proof. destruct c; reflexivity. Qed.

(** The handlers on a request they turn down. *)
Lemma toggleFavorite_unauthenticated clock req db :
  user req = None ->
  toggleFavorite clock req db
  = (db, inl (ApiError 401 "Authentication required" "UNAUTHORIZED")).
Proof. intros H. unfold toggleFavorite. now rewrite H. Qed.

Lemma hideJob_unauthenticated clock req db :
  user req = None ->
  hideJob clock req db
  = (db, inl (ApiError 401 "Authentication required" "UNAUTHORIZED")).
Proof. intros H. unfold hideJob. now rewrite H. Qed.

Lemma toggleFavorite_unknown_job clock req u db :
  user req = Some u ->
  find (fun j => (Job.id j =? params_id req)%string) (jobs db) = None ->
  toggleFavorite clock req db
  = (db, inl (ApiError 404 "Job not found" "NOT_FOUND")).
Proof.
  intros Hu Hj. unfold toggleFavorite. rewrite Hu.
  unfold bind at 1. unfold job_findUnique. now rewrite Hj.
Qed.

Lemma hideJob_unknown_job clock req u db :
  user req = Some u ->
  find (fun j => (Job.id j =? params_id req)%string) (jobs db) = None ->
  hideJob clock req db
  = (db, inl (ApiError 404 "Job not found" "NOT_FOUND")).
Proof.
  intros Hu Hj. unfold hideJob. rewrite Hu.
  unfold bind at 1. unfold job_findUnique. now rewrite Hj.
Qed.

(** X7: on a job that has a cache entry, two successive calls of
    [toggleFavorite] leave the store as it was: the first answers with the
    flag negated, the second with the flag as it was. *)
Theorem toggleFavorite_twice_restores (clock clock' : Clock) (req : Request)
    (u : User) (job : Job.t) (existing : JobMatchCache.t) (db : Database) :
  user req = Some u ->
  find (fun j => (Job.id j =? params_id req)%string) (jobs db) = Some job ->
  find (cache_key (id u) (params_id req)) (jobMatchCache db) = Some existing ->
  let first := toggleFavorite clock req db in
  let second := toggleFavorite clock' req (fst first) in
  fst second = db
  /\ (exists r, snd first = inr r
        /\ isFavorite r = negb (JobMatchCache.isFavorite existing))
  /\ (exists r, snd second = inr r
        /\ isFavorite r = JobMatchCache.isFavorite existing).
Proof.
  intros Hu Hj He first second.
  destruct (toggleFavorite_existing req u job db Hu Hj clock existing He)
    as (rows & Hrows & Hfirst).
  assert (Hfound : find (cache_key (id u) (params_id req)) rows
                   = Some (set_isFavorite
                             (negb (JobMatchCache.isFavorite existing))
                             existing)).
  { apply (find_update_first _ _ (jobMatchCache db)); auto. }
  destruct (toggleFavorite_existing req u job (set_jobMatchCache rows db)
              Hu Hj clock' _ Hfound) as (rows2 & Hrows2 & Hsecond).
  cbn [JobMatchCache.isFavorite set_isFavorite] in Hrows2, Hsecond.
  rewrite negb_involutive in Hrows2, Hsecond.
  rewrite (update_first_twice _ _ _ _ _
             (fun x => cache_key_set_isFavorite _ _ _ x) Hrows) in Hrows2.
  rewrite (update_first_fixed _ _ _ existing He) in Hrows2
    by apply set_isFavorite_back.
  injection Hrows2 as <-.
  unfold second, first. rewrite Hfirst. cbn [fst snd]. rewrite Hsecond.
  cbn [fst snd]. split; [|split].
  - rewrite set_jobMatchCache_twice. apply set_jobMatchCache_same.
  - eexists. split; reflexivity.
  - eexists. split; reflexivity.
Qed.

Lemma toggleFavorite_twice_restores_witness :
  fst (toggleFavorite evening (request_of_alice "job-2")
         (fst (toggleFavorite morning (request_of_alice "job-2")
                 (store true))))
  = store true.
Proof.
  apply (toggleFavorite_twice_restores morning evening
           (request_of_alice "job-2") alice
           (job_row "job-2" "Backend Engineer")
           (cache_row "job-2" 8000%Z false) (store true));
    reflexivity.
Defined.

(** The cache table after the two handlers. *)
Lemma toggleFavorite_cache clock req db :
  jobMatchCache (fst (toggleFavorite clock req db)) = jobMatchCache db
  \/ exists u,
       user req = Some u
       /\ ((exists existing rows,
              find (cache_key (id u) (params_id req)) (jobMatchCache db)
              = Some existing
              /\ update_first (cache_key (id u) (params_id req))
                   (set_isFavorite (negb (JobMatchCache.isFavorite existing)))
                   (jobMatchCache db) = Some rows
              /\ jobMatchCache (fst (toggleFavorite clock req db)) = rows)
           \/ (find (cache_key (id u) (params_id req)) (jobMatchCache db)
               = None
               /\ jobMatchCache (fst (toggleFavorite clock req db))
                  = jobMatchCache db
                    ++ [placeholder clock (id u) (params_id req) true false])).
Proof.
  destruct (user req) as [u|] eqn:Hu;
    [|left; now rewrite toggleFavorite_unauthenticated].
  destruct (find (fun j => (Job.id j =? params_id req)%string) (jobs db))
    as [job|] eqn:Hj;
    [|left; now rewrite (toggleFavorite_unknown_job clock req u db)].
  right. exists u. split; [reflexivity|].
  destruct (find (cache_key (id u) (params_id req)) (jobMatchCache db))
    as [existing|] eqn:He.
  - left.
    destruct (toggleFavorite_existing req u job db Hu Hj clock existing He)
      as (rows & Hrows & ->).
    now exists existing, rows.
  - right. rewrite (toggleFavorite_fresh req u job db Hu Hj clock He).
    split; reflexivity.
Qed.

Lemma hideJob_cache clock req db :
  jobMatchCache (fst (hideJob clock req db)) = jobMatchCache db
  \/ exists u,
       user req = Some u
       /\ ((exists existing rows,
              find (cache_key (id u) (params_id req)) (jobMatchCache db)
              = Some existing
              /\ update_first (cache_key (id u) (params_id req))
                   (set_isHidden true) (jobMatchCache db) = Some rows
              /\ jobMatchCache (fst (hideJob clock req db)) = rows)
           \/ (find (cache_key (id u) (params_id req)) (jobMatchCache db)
               = None
               /\ jobMatchCache (fst (hideJob clock req db))
                  = jobMatchCache db
                    ++ [placeholder clock (id u) (params_id req) false true])).
Proof.
  destruct (user req) as [u|] eqn:Hu;
    [|left; now rewrite hideJob_unauthenticated].
  destruct (find (fun j => (Job.id j =? params_id req)%string) (jobs db))
    as [job|] eqn:Hj;
    [|left; now rewrite (hideJob_unknown_job clock req u db)].
  right. exists u. split; [reflexivity|].
  destruct (find (cache_key (id u) (params_id req)) (jobMatchCache db))
    as [existing|] eqn:He.
  - left.
    destruct (hideJob_existing req u job db Hu Hj clock existing He)
      as (rows & Hrows & ->).
    now exists existing, rows.
  - right. rewrite (hideJob_fresh req u job db Hu Hj clock He).
    split; reflexivity.
Qed.

Lemma autoApply_cache clock req db :
  jobMatchCache (fst (ApplicationController.autoApply clock req db))
  = jobMatchCache db.
Proof.
  destruct (autoApply_store clock req db)
    as [->|(u & preferences & Hu & Hp & He & Hlt)]; [reflexivity|].
  rewrite (autoApply_passes_store clock req u preferences db Hu Hp He Hlt).
  destruct (create_applications_run clock (id u)
              (ApplicationController.jobsToApply_on clock (id u) preferences
                 db) [] db) as (k & _ & _ & Hc & _).
  exact Hc.
Qed.

(** A row updated in place, seen from a key. *)
Lemma hidden_after_update u j u0 j0 (f : JobMatchCache.t -> JobMatchCache.t)
    rows rows' c :
  (forall x, cache_key u0 j0 (f x) = cache_key u0 j0 x) ->
  (forall x, cache_key u j (f x) = cache_key u j x) ->
  (forall x, JobMatchCache.isHidden x = true ->
     JobMatchCache.isHidden (f x) = true) ->
  update_first (cache_key u0 j0) f rows = Some rows' ->
  find (cache_key u j) rows = Some c ->
  JobMatchCache.isHidden c = true ->
  exists c', find (cache_key u j) rows' = Some c'
             /\ JobMatchCache.isHidden c' = true.
Proof.
  intros Hk0 Hk Hh Hup Hc Hhid.
  destruct (string_dec u u0) as [->|Hu];
    [destruct (string_dec j j0) as [->|Hj]|].
  - exists (f c). split; [|auto].
    apply (find_update_first _ _ rows); auto.
    intros x Hx. now rewrite Hk0.
  - exists c. split; [|assumption].
    rewrite (find_update_first_other (cache_key u0 j0) (cache_key u0 j) f
               rows rows'); auto.
    intros x Hx. apply (cache_key_other u0 j0); [congruence | assumption].
  - exists c. split; [|assumption].
    rewrite (find_update_first_other (cache_key u0 j0) (cache_key u j) f
               rows rows'); auto.
    intros x Hx. apply (cache_key_other u0 j0); [congruence | assumption].
Qed.

(** X8: a job a user has hidden stays hidden: after [toggleFavorite],
    [hideJob] or [autoApply], called by anyone on any job, the cache entry
    of the pair is still there and still marked hidden. *)
Theorem hidden_jobs_stay_hidden (clock : Clock) (req : Request)
    (db : Database) (userId jobId : string) :
  hidden_in db userId jobId ->
  hidden_in (fst (toggleFavorite clock req db)) userId jobId
  /\ hidden_in (fst (hideJob clock req db)) userId jobId
  /\ hidden_in (fst (ApplicationController.autoApply clock req db))
       userId jobId.
Proof.
  intros (c & Hc & Hhid). unfold hidden_in. split; [|split].
  - destruct (toggleFavorite_cache clock req db)
      as [->|(u & _ & [(existing & rows & _ & Hrows & ->)|(_ & ->)])].
    + now exists c.
    + apply (hidden_after_update userId jobId (id u) (params_id req)
               (set_isFavorite (negb (JobMatchCache.isFavorite existing)))
               (jobMatchCache db) rows c); auto.
    + exists c. split; [now apply find_app_some | assumption].
  - destruct (hideJob_cache clock req db)
      as [->|(u & _ & [(existing & rows & _ & Hrows & ->)|(_ & ->)])].
    + now exists c.
    + apply (hidden_after_update userId jobId (id u) (params_id req)
               (set_isHidden true) (jobMatchCache db) rows c); auto.
    + exists c. split; [now apply find_app_some | assumption].
  - rewrite autoApply_cache. now exists c.
Qed.

Lemma hidden_jobs_stay_hidden_witness :
  hidden_in
    (fst (toggleFavorite morning (request_of_alice "job-3") (store true)))
    "user-1" "job-3".
Proof.
  apply (hidden_jobs_stay_hidden morning (request_of_alice "job-3")
           (store true) "user-1" "job-3").
  eexists. split; reflexivity.
Defined.

Lemma toggleFavorite_unique clock req db :
  cache_unique db -> cache_unique (fst (toggleFavorite clock req db)).
Proof.
  unfold cache_unique. intros Hn.
  destruct (toggleFavorite_cache clock req db)
    as [->|(u & _ & [(existing & rows & _ & Hrows & ->)|(Hnone & ->)])].
  - exact Hn.
  - rewrite (update_first_map (cache_key (id u) (params_id req))
               (set_isFavorite (negb (JobMatchCache.isFavorite existing)))
               cache_pair _ _ (fun x => eq_refl) Hrows). exact Hn.
  - rewrite map_app. simpl.
    apply NoDup_app; [exact Hn | repeat constructor; intros [] |].
    intros x Hx [<-|[]]. revert Hx. now apply find_cache_none_notin.
Qed.

Lemma hideJob_unique clock req db :
  cache_unique db -> cache_unique (fst (hideJob clock req db)).
Proof.
  unfold cache_unique. intros Hn.
  destruct (hideJob_cache clock req db)
    as [->|(u & _ & [(existing & rows & _ & Hrows & ->)|(Hnone & ->)])].
  - exact Hn.
  - rewrite (update_first_map (cache_key (id u) (params_id req))
               (set_isHidden true) cache_pair _ _ (fun x => eq_refl) Hrows).
    exact Hn.
  - rewrite map_app. simpl.
    apply NoDup_app; [exact Hn | repeat constructor; intros [] |].
    intros x Hx [<-|[]]. revert Hx. now apply find_cache_none_notin.
Qed.

(** X9: [toggleFavorite] and [hideJob] keep the cache entries of distinct
    (user, job) pairs distinct: neither adds a second entry for a pair. *)
Theorem cache_entries_stay_unique (clock : Clock) (req : Request)
    (db : Database) :
  cache_unique db ->
  cache_unique (fst (toggleFavorite clock req db))
  /\ cache_unique (fst (hideJob clock req db)).
Proof.
  intros Hn. split.
  - now apply toggleFavorite_unique.
  - now apply hideJob_unique.
Qed.

Lemma cache_entries_stay_unique_witness :
  cache_unique
    (fst (toggleFavorite morning (request_of_alice "job-5") (store true)))
  /\ cache_unique
       (fst (hideJob morning (request_of_alice "job-5") (store true))).
Proof.
  apply (cache_entries_stay_unique morning (request_of_alice "job-5")
           (store true)).
  unfold cache_unique. simpl.
  repeat constructor; simpl; intuition discriminate.
Defined.

End CacheEntries.

Section AutoApplyEffects.
Import Prisma Express ApplicationController JobController StoreStates Examples.

(** The applications a call creates, and the cache rows they come from. *)
Lemma autoApply_created clock req db :
  exists created,
    applications (fst (autoApply clock req db)) = applications db ++ created
    /\ (created = []
        \/ exists u preferences,
             user req = Some u
             /\ find (fun p => (UserPreferences.userId p =? id u)%string)
                  (userPreferences db) = Some preferences
             /\ (Z.of_nat (List.length created)
                 <= UserPreferences.autoApplyMaxPerDay preferences
                    - dailyCount_on clock (id u) db)%Z
             /\ Forall
                  (fun a =>
                     exists c,
                       In c (jobMatchCache db)
                       /\ JobMatchCache.userId c = id u
                       /\ JobMatchCache.isHidden c = false
                       /\ a = new_application clock (id u) c)
                  created).
Proof.
  destruct (autoApply_store clock req db)
    as [->|(u & preferences & Hu & Hp & He & Hlt)].
  { exists []. rewrite app_nil_r. auto. }
  rewrite (autoApply_passes_store clock req u preferences db Hu Hp He Hlt).
  destruct (create_applications_run clock (id u)
              (jobsToApply_on clock (id u) preferences db) [] db)
    as (k & Hk & Happs & _).
  eexists. split; [exact Happs|]. right. exists u, preferences.
  split; [exact Hu|]. split; [exact Hp|].
  destruct (matchedJobs_on_spec clock (id u) preferences db)
    as (_ & Hlen & _ & Hall).
  assert (Hsub : forall m,
             In m (jobsToApply_on clock (id u) preferences db) ->
             In m (matchedJobs_on clock (id u) preferences db)).
  { intros m Hm. unfold jobsToApply_on in Hm.
    now apply filter_In in Hm as [Hm _]. }
  assert (Hle : (List.length (jobsToApply_on clock (id u) preferences db)
                 <= List.length (matchedJobs_on clock (id u) preferences db))%nat).
  { unfold jobsToApply_on. apply filter_length_le. }
  split.
  - rewrite length_map, length_firstn.
    specialize (Hlen ltac:(lia)). unfold Match in *. lia.
  - apply Forall_forall. intros a Ha.
    apply in_map_iff in Ha as (m & <- & Hm).
    apply firstn_In, Hsub in Hm.
    rewrite Forall_forall in Hall.
    destruct (Hall (fst m)) as (Hin & Hus & _ & Hhid);
      [now apply in_map|].
    exists (fst m). auto.
Qed.

Lemma filter_none {A} (p : A -> bool) (l : list A) :
  (forall x, In x l -> p x = false) -> filter p l = [].
Proof.
  induction l as [|a l IH]; simpl; intros H; [reflexivity|].
  rewrite (H a (or_introl eq_refl)). apply IH. auto.
Qed.

Lemma NoDup_map_eq {A B} (f : A -> B) (l : list A) (x y : A) :
  NoDup (map f l) -> In x l -> In y l -> f x = f y -> x = y.
Proof.
  induction l as [|a l IH]; simpl; intros Hn Hx Hy Hf; [contradiction|].
  inversion Hn as [|? ? Hnot Hrest]; subst.
  destruct Hx as [->|Hx], Hy as [->|Hy]; auto.
  - elim Hnot. rewrite Hf. now apply in_map.
  - elim Hnot. rewrite <- Hf. now apply in_map.
Qed.

(** [hideJob], when it returns, leaves the pair hidden and the other
    tables as they were. *)
Lemma hideJob_returns clock req db msg :
  snd (hideJob clock req db) = inr msg ->
  exists u,
    user req = Some u
    /\ hidden_in (fst (hideJob clock req db)) (id u) (params_id req)
    /\ applications (fst (hideJob clock req db)) = applications db.
Proof.
  intros Hret.
  destruct (user req) as [u|] eqn:Hu;
    [|rewrite hideJob_unauthenticated in Hret by assumption; discriminate].
  destruct (find (fun j => (Job.id j =? params_id req)%string) (Prisma.jobs db))
    as [job|] eqn:Hj;
    [|rewrite (hideJob_unknown_job clock req u db) in Hret by assumption;
      discriminate].
  exists u. split; [reflexivity|].
  destruct (find (cache_key (id u) (params_id req)) (jobMatchCache db))
    as [existing|] eqn:He.
  - destruct (hideJob_existing req u job db Hu Hj clock existing He)
      as (rows & Hrows & ->).
    split; [|reflexivity].
    exists (set_isHidden true existing). split; [|reflexivity].
    apply (find_update_first _ _ (jobMatchCache db)); auto.
  - rewrite (hideJob_fresh req u job db Hu Hj clock He).
    split; [|reflexivity].
    exists (placeholder clock (id u) (params_id req) false true).
    split; [|reflexivity].
    cbn [fst jobMatchCache set_jobMatchCache].
    rewrite (find_app_none _ _ _ He). simpl.
    unfold cache_key. simpl. now rewrite !String.eqb_refl.
Qed.

(** X10: once [hideJob] has returned for a user and a job, [autoApply]
    creates no application of that user to that job, whoever calls it and
    whenever: the applications of the pair stay what they were. *)
Theorem hidden_job_is_not_auto_applied (clock clock' : Clock)
    (req req' : Request) (u : User) (db : Database) (msg : string) :
  user req = Some u ->
  cache_unique db ->
  snd (hideJob clock req db) = inr msg ->
  applications_to (fst (autoApply clock' req' (fst (hideJob clock req db))))
    (id u) (params_id req)
  = applications_to db (id u) (params_id req).
Proof.
  intros Hu Huniq Hret.
  destruct (hideJob_returns clock req db msg Hret)
    as (u0 & Hu0 & (h & Hh & Hhid) & Happs).
  assert (u0 = u) by congruence. subst u0.
  pose proof (hideJob_unique clock req db Huniq) as Huniq1.
  set (db1 := fst (hideJob clock req db)) in *.
  unfold applications_to.
  destruct (autoApply_created clock' req' db1) as (created & -> & Hc).
  rewrite filter_app, Happs.
  replace (filter (application_key (id u) (params_id req)) created)
    with (@nil Application.t); [now rewrite app_nil_r|].
  destruct Hc as [->|(u' & preferences & _ & _ & _ & Hall)];
    [reflexivity|].
  symmetry. apply filter_none. intros a Ha.
  rewrite Forall_forall in Hall.
  destruct (Hall a Ha) as (c & Hin & Hus & Hvis & ->).
  destruct (application_key (id u) (params_id req)
              (new_application clock' (id u') c)) eqn:Hk; [|reflexivity].
  exfalso.
  apply application_key_pair in Hk. unfold application_pair in Hk.
  cbn [Application.userId Application.jobId new_application] in Hk.
  injection Hk as Hk1 Hk2.
  apply find_some in Hh as [Hhin Hhk]. apply cache_key_pair in Hhk.
  assert (c = h).
  { apply (NoDup_map_eq cache_pair (jobMatchCache db1)); auto.
    rewrite Hhk. unfold cache_pair. congruence. }
  congruence.
Qed.

Lemma hidden_job_is_not_auto_applied_witness :
  applications_to
    (fst (autoApply evening (request_of_alice "")
            (fst (hideJob morning (request_of_alice "job-2") (store true)))))
    "user-1" "job-2"
  = [].
Proof.
  apply (hidden_job_is_not_auto_applied morning evening
           (request_of_alice "job-2") (request_of_alice "") alice
           (store true) "Job hidden successfully").
  - reflexivity.
  - unfold cache_unique. simpl.
    repeat constructor; simpl; intuition discriminate.
  - reflexivity.
Defined.

(** ** The daily quota *)

Lemma startOfToday_le clock : (startOfToday clock <= now clock)%Z.
Proof.
  unfold startOfToday.
  pose proof (Z.mod_pos_bound (now clock + timezoneOffset clock) 86400000
                ltac:(lia)).
  lia.
Qed.

Lemma filter_all {A} (p : A -> bool) (l : list A) :
  (forall x, In x l -> p x = true) -> filter p l = l.
Proof.
  induction l as [|a l IH]; simpl; intros H; [reflexivity|].
  rewrite (H a (or_introl eq_refl)). f_equal. apply IH. auto.
Qed.

(** X11: every application [autoApply] creates counts towards the day's
    quota of its user: the count of the day grows by the number created,
    and a count that was within [autoApplyMaxPerDay] before the call is
    within it after, so that repeated calls do not go past the maximum. *)
Theorem autoApply_counts_towards_quota (clock : Clock) (req : Request)
    (u : User) (db : Database) :
  user req = Some u ->
  exists created,
    applications (fst (autoApply clock req db)) = applications db ++ created
    /\ dailyCount_on clock (id u) (fst (autoApply clock req db))
       = (dailyCount_on clock (id u) db + Z.of_nat (List.length created))%Z
    /\ forall preferences,
         find (fun p => (UserPreferences.userId p =? id u)%string)
           (userPreferences db) = Some preferences ->
         (dailyCount_on clock (id u) db
          <= UserPreferences.autoApplyMaxPerDay preferences)%Z ->
         (dailyCount_on clock (id u) (fst (autoApply clock req db))
          <= UserPreferences.autoApplyMaxPerDay preferences)%Z.
Proof.
  intros Hu.
  destruct (autoApply_created clock req db) as (created & Happs & Hc).
  exists created. split; [exact Happs|].
  assert (Hcount :
    dailyCount_on clock (id u) (fst (autoApply clock req db))
    = (dailyCount_on clock (id u) db + Z.of_nat (List.length created))%Z).
  { unfold dailyCount_on. rewrite Happs, filter_app, length_app.
    destruct Hc as [->|(u' & preferences & Hu' & _ & _ & Hall)];
      [simpl; lia|].
    assert (u' = u) by congruence. subst u'.
    rewrite (filter_all _ created); [lia|].
    intros a Ha. rewrite Forall_forall in Hall.
    destruct (Hall a Ha) as (c & _ & _ & _ & ->).
    unfold auto_applied_today.
    cbn [Application.userId Application.isAutoApplied Application.createdAt
         new_application].
    rewrite String.eqb_refl. simpl.
    apply Z.leb_le, startOfToday_le. }
  split; [exact Hcount|].
  intros preferences Hp Hle. rewrite Hcount.
  destruct Hc as [->|(u' & preferences' & Hu' & Hp' & Hlen & _)];
    [simpl; lia|].
  assert (u' = u) by congruence. subst u'.
  assert (preferences' = preferences) by congruence. subst preferences'.
  lia.
Qed.

Lemma autoApply_counts_towards_quota_witness :
  exists created,
    applications (fst (autoApply morning (request_of_alice "") (store true)))
    = applications (store true) ++ created
    /\ dailyCount_on morning "user-1"
         (fst (autoApply morning (request_of_alice "") (store true)))
       = (dailyCount_on morning "user-1" (store true)
          + Z.of_nat (List.length created))%Z.
Proof.
  destruct (autoApply_counts_towards_quota morning (request_of_alice "")
              alice (store true) eq_refl) as (created & H1 & H2 & _).
  exists created. split; assumption.
Defined.

(** ** The top matches *)

Lemma top_rows_outranked (rows : list JobMatchCache.t) (n : nat)
    (c : JobMatchCache.t) :
  StronglySorted score_desc rows -> In c (firstn n rows) ->
  (outranking c rows < n)%nat.
Proof.
  unfold outranking. revert n.
  induction rows as [|r rows IH]; intros [|n] Hs Hc; simpl in Hc;
    try contradiction.
  inversion Hs as [|? ? Hrest Hall]; subst. cbn [filter].
  destruct Hc as [->|Hc].
  - rewrite Z.ltb_irrefl.
    rewrite filter_none; [simpl; lia|].
    intros x Hx. apply Z.ltb_ge.
    exact (proj1 (Forall_forall _ _) Hall x Hx).
  - specialize (IH n Hrest Hc).
    destruct (_ <? _)%Z; simpl; lia.
Qed.

(** Whichever way the rows of equal score are ordered, a row among the
    first [n] of the eligible entries is outranked by fewer than [n]. *)
Lemma taken_rows_outranked userId preferences db rows n c :
  Permutation rows (eligible_entries userId preferences db) ->
  StronglySorted score_desc rows ->
  In c (firstn n rows) ->
  In c (eligible_entries userId preferences db)
  /\ (outranking c (eligible_entries userId preferences db) < n)%nat.
Proof.
  intros Hperm Hs Hc. split.
  - apply (Permutation_in _ Hperm). now apply firstn_In in Hc.
  - unfold outranking.
    rewrite <- (filter_length_Permutation _ _ _ Hperm).
    now apply top_rows_outranked.
Qed.

(** X12: [autoApply] looks at the best [autoApplyMaxPerDay - dailyCount]
    eligible cache entries only.  When every eligible entry the user has not
    applied to is outranked by at least that many eligible entries of a
    strictly higher score, the rows the query returns are all applied to
    already, however rows of equal score are ordered; the call creates
    nothing, leaves the store as it is and answers with a count of 0,
    although eligible entries without an application may be there. *)
Theorem autoApply_stalls_on_applied_top_matches (clock : Clock)
    (req : Request) (u : User) (preferences : UserPreferences.t)
    (db : Database) :
  user req = Some u ->
  find (fun p => (UserPreferences.userId p =? id u)%string)
    (userPreferences db) = Some preferences ->
  UserPreferences.autoApplyEnabled preferences = true ->
  (dailyCount_on clock (id u) db
   < UserPreferences.autoApplyMaxPerDay preferences)%Z ->
  (forall c, In c (eligible_entries (id u) preferences db) ->
     existsb (application_key (id u) (JobMatchCache.jobId c))
       (applications db) = false ->
     (remaining_quota clock (id u) preferences db
      <= outranking c (eligible_entries (id u) preferences db))%nat) ->
  autoApply clock req db
  = (db, inr {| applicationsCreated := 0; ApplicationController.jobs := [] |})
  /\ (forall rows,
        Permutation rows (eligible_entries (id u) preferences db) ->
        StronglySorted score_desc rows ->
        forall c,
          In c (firstn (remaining_quota clock (id u) preferences db) rows) ->
          existsb (application_key (id u) (JobMatchCache.jobId c))
            (applications db) = true).
Proof.
  intros Hu Hp He Hlt Hout.
  assert (Htaken : forall rows,
             Permutation rows (eligible_entries (id u) preferences db) ->
             StronglySorted score_desc rows ->
             forall c,
               In c (firstn (remaining_quota clock (id u) preferences db)
                       rows) ->
               existsb (application_key (id u) (JobMatchCache.jobId c))
                 (applications db) = true).
  { intros rows Hperm Hs c Hc.
    destruct (taken_rows_outranked _ _ _ _ _ _ Hperm Hs Hc) as [Hin Hfew].
    destruct (existsb (application_key (id u) (JobMatchCache.jobId c))
                (applications db)) eqn:Hex; [reflexivity|].
    specialize (Hout c Hin Hex). lia. }
  split; [|exact Htaken].
  rewrite (autoApply_passes clock req u preferences db Hu Hp He Hlt).
  assert (Hnone : jobsToApply_on clock (id u) preferences db = []).
  { unfold jobsToApply_on. apply filter_none. intros m Hm.
    apply negb_false_iff.
    assert (Hall : existsb
                     (application_key (id u) (JobMatchCache.jobId (fst m)))
                     (applications db) = true).
    { unfold matchedJobs_on in Hm.
      apply in_map_iff in Hm as (c & <- & Hc). cbn [fst].
      apply (Htaken _ (Permutation_sym (orderBy_perm _)) (orderBy_sorted _)).
      exact Hc. }
    apply existsb_exists in Hall as (a & Ha & Hk).
    unfold application_key in Hk. apply andb_true_iff in Hk as [Hku Hkj].
    apply existsb_exists. exists (Application.jobId a). split.
    - apply in_map. apply filter_In. split; [exact Ha|].
      unfold applied_among. rewrite Hku. simpl.
      apply existsb_exists. exists (JobMatchCache.jobId (fst m)). split.
      + now apply (in_map (fun m0 : Match => JobMatchCache.jobId (fst m0))).
      + exact Hkj.
    - apply String.eqb_eq. apply String.eqb_eq in Hkj. now symmetry. }
  rewrite Hnone. reflexivity.
Qed.

Lemma autoApply_stalls_on_applied_top_matches_witness :
  autoApply morning (request_of_alice "") store_one_a_day
  = (store_one_a_day,
     inr {| applicationsCreated := 0; ApplicationController.jobs := [] |})
  /\ eligible "user-1" 5000%Z (cache_row "job-2" 8000%Z false) = true
  /\ existsb (application_key "user-1" "job-2")
       (applications store_one_a_day) = false.
Proof.
  split; [|split; reflexivity].
  apply (autoApply_stalls_on_applied_top_matches morning
           (request_of_alice "") alice
           {| UserPreferences.userId := "user-1";
              UserPreferences.autoApplyEnabled := true;
              UserPreferences.autoApplyThreshold := 5000%Z;
              UserPreferences.autoApplyMaxPerDay := 1%Z |}
           store_one_a_day).
  - reflexivity.
  - reflexivity.
  - reflexivity.
  - reflexivity.
  - intros c Hc Hfree. vm_compute in Hc.
    destruct Hc as [<-|[<-|[]]].
    + vm_compute. lia.
    + vm_compute in Hfree. discriminate Hfree.
Defined.

(** ** The other tables *)

Lemma create_applications_jobs_frame {B} (h : Job.t -> B) clock userId
    jobsToApply :
  (forall j, h (increment_applicationCount j) = h j) ->
  forall created db,
    map h (Prisma.jobs (fst (create_applications clock userId jobsToApply
                               created db)))
    = map h (Prisma.jobs db).
Proof.
  intros Hh. induction jobsToApply as [|m rest IH]; intros created db.
  - reflexivity.
  - rewrite create_applications_cons.
    destruct (existsb _ (applications db)); [reflexivity|].
    destruct (update_first _ increment_applicationCount (Prisma.jobs db))
      as [rows|] eqn:Hrows; [|reflexivity].
    rewrite IH. cbn [Prisma.jobs set_jobs].
    exact (update_first_map _ _ h _ _ Hh Hrows).
Qed.

(** X13: [autoApply] writes to the applications and to the counters of
    applications of the jobs, and to nothing else: the match cache and the
    preferences are as they were, no job is added or removed, and every
    modelled column of a job other than its counter is as it was. *)
Theorem autoApply_leaves_other_tables (clock : Clock) (req : Request)
    (db : Database) :
  jobMatchCache (fst (autoApply clock req db)) = jobMatchCache db
  /\ userPreferences (fst (autoApply clock req db)) = userPreferences db
  /\ map without_count (Prisma.jobs (fst (autoApply clock req db)))
     = map without_count (Prisma.jobs db).
Proof.
  split; [apply autoApply_cache|].
  destruct (autoApply_store clock req db)
    as [->|(u & preferences & Hu & Hp & He & Hlt)]; [split; reflexivity|].
  rewrite (autoApply_passes_store clock req u preferences db Hu Hp He Hlt).
  split.
  - destruct (create_applications_run clock (id u)
                (jobsToApply_on clock (id u) preferences db) [] db)
      as (k & _ & _ & _ & Hprefs & _).
    exact Hprefs.
  - apply create_applications_jobs_frame. reflexivity.
Qed.

(** ** The counters of applications *)





End AutoApplyEffects.

(* ================================================================== *)
(** * Properties of the auto-apply switch *)

Section AutoApplySwitch.
Import Prisma Express ApplicationController PreferenceController Examples.

Lemma set_autoApplyEnabled_back p :
  set_autoApplyEnabled (UserPreferences.autoApplyEnabled p)
    (set_autoApplyEnabled (negb (UserPreferences.autoApplyEnabled p)) p) = p.
Proof. destruct p; reflexivity. Qed.

(** The handler on a user who has preferences. *)
Lemma toggleAutoApply_found req u preferences db :
  user req = Some u ->
  find (preferences_of (id u)) (userPreferences db) = Some preferences ->
  exists rows,
    update_first (preferences_of (id u))
      (set_autoApplyEnabled
         (negb (UserPreferences.autoApplyEnabled preferences)))
      (userPreferences db) = Some rows
    /\ find (preferences_of (id u)) rows
       = Some (set_autoApplyEnabled
                 (negb (UserPreferences.autoApplyEnabled preferences))
                 preferences)
    /\ toggleAutoApply req db
       = (set_userPreferences rows db,
          inr {| toggle_message :=
                   if negb (UserPreferences.autoApplyEnabled preferences)
                   then "Auto-apply enabled" else "Auto-apply disabled";
                 autoApplyEnabled :=
                   negb (UserPreferences.autoApplyEnabled preferences) |}).
Proof.
  intros Hu Hp.
  destruct (update_first_find (preferences_of (id u))
              (set_autoApplyEnabled
                 (negb (UserPreferences.autoApplyEnabled preferences)))
              _ _ Hp) as [rows Hrows].
  exists rows. split; [exact Hrows|]. split.
  - apply (find_update_first _ _ (userPreferences db)); auto.
  - unfold toggleAutoApply. rewrite Hu.
    unfold bind at 1. unfold userPreferences_findUnique.
    change (fun p : UserPreferences.t =>
              (UserPreferences.userId p =? id u)%string)
      with (preferences_of (id u)).
    rewrite Hp. unfold bind, userPreferences_update. rewrite Hp, Hrows.
    reflexivity.
Qed.

(** X15: for a user who has preferences, two successive calls of
    [toggleAutoApply] leave the switch and the other settings as they
    were: the first answers with the switch negated, the second with the
    switch as it was. *)
Theorem toggleAutoApply_twice_restores (req : Request) (u : User)
    (preferences : UserPreferences.t) (db : Database) :
  user req = Some u ->
  find (preferences_of (id u)) (userPreferences db) = Some preferences ->
  let first := toggleAutoApply req db in
  let second := toggleAutoApply req (fst first) in
  fst second = db
  /\ (exists r, snd first = inr r
        /\ autoApplyEnabled r
           = negb (UserPreferences.autoApplyEnabled preferences))
  /\ (exists r, snd second = inr r
        /\ autoApplyEnabled r = UserPreferences.autoApplyEnabled preferences).
Proof.
  intros Hu Hp first second.
  destruct (toggleAutoApply_found req u preferences db Hu Hp)
    as (rows & Hrows & Hfound & Hfirst).
  destruct (toggleAutoApply_found req u _ (set_userPreferences rows db)
              Hu Hfound) as (rows2 & Hrows2 & _ & Hsecond).
  cbn [UserPreferences.autoApplyEnabled set_autoApplyEnabled
       userPreferences set_userPreferences] in Hrows2, Hsecond.
  rewrite negb_involutive in Hrows2, Hsecond.
  rewrite (update_first_twice (preferences_of (id u))
             (set_autoApplyEnabled
                (negb (UserPreferences.autoApplyEnabled preferences)))
             _ _ _ (fun x => eq_refl) Hrows) in Hrows2.
  rewrite (update_first_fixed _ _ _ preferences Hp) in Hrows2
    by apply set_autoApplyEnabled_back.
  injection Hrows2 as <-.
  unfold second, first. rewrite Hfirst. cbn [fst snd]. rewrite Hsecond.
  cbn [fst snd]. split; [|split].
  - destruct db; reflexivity.
  - eexists. split; reflexivity.
  - eexists. split; reflexivity.
Qed.

Lemma toggleAutoApply_twice_restores_witness :
  fst (toggleAutoApply (request_of_alice "")
         (fst (toggleAutoApply (request_of_alice "") (store true))))
  = store true.
Proof.
  apply (toggleAutoApply_twice_restores (request_of_alice "") alice
           (preferences_of_alice true) (store true)); reflexivity.
Defined.

(** What the loop and the summaries of [autoApply] can throw. *)
Lemma create_applications_throws clock userId jobsToApply :
  forall created db e,
    snd (create_applications clock userId jobsToApply created db) = inl e ->
    exists code, e = PrismaClientKnownRequestError code.
Proof.
  induction jobsToApply as [|m rest IH]; intros created db e.
  - discriminate.
  - rewrite create_applications_cons.
    destruct (existsb _ (applications db)); [intros [= <-]; eauto|].
    destruct (update_first _ increment_applicationCount (Prisma.jobs db));
      [apply IH | intros [= <-]; eauto].
Qed.

Lemma summaries_throws jobsToApply :
  forall db e,
    snd (summaries jobsToApply db) = inl e -> exists x, e = Thrown x.
Proof.
  induction jobsToApply as [|[c [j|]] rest IH]; intros db e; simpl.
  - discriminate.
  - unfold bind. specialize (IH db).
    destruct (summaries rest db) as [db' [e'|more]]; simpl in *.
    + intros [= <-]. now apply IH.
    + discriminate.
  - intros [= <-]. eauto.
Qed.

(** With the switch on, the handler does not answer that it is off. *)
Lemma autoApply_enabled clock req u preferences db :
  user req = Some u ->
  find (fun p => (UserPreferences.userId p =? id u)%string)
    (userPreferences db) = Some preferences ->
  UserPreferences.autoApplyEnabled preferences = true ->
  snd (autoApply clock req db)
  <> inl (ApiError 400 "Auto-apply is not enabled" "AUTO_APPLY_DISABLED").
Proof.
  intros Hu Hp He.
  destruct (Z.ltb_spec (dailyCount_on clock (id u) db)
              (UserPreferences.autoApplyMaxPerDay preferences)) as [Hlt|Hge].
  - rewrite (autoApply_passes clock req u preferences db Hu Hp He Hlt).
    unfold bind at 1.
    pose proof (create_applications_throws clock (id u)
                  (jobsToApply_on clock (id u) preferences db) [] db) as Hc.
    destruct (create_applications _ _ _ _ db) as [db' [e|apps]].
    + destruct (Hc e eq_refl) as [code ->]. discriminate.
    + unfold bind.
      pose proof (summaries_throws
                    (jobsToApply_on clock (id u) preferences db) db') as Hs.
      destruct (summaries _ db') as [db'' [e|js]].
      * destruct (Hs e eq_refl) as [x ->]. discriminate.
      * discriminate.
  - unfold autoApply. rewrite Hu.
    unfold bind at 1. unfold userPreferences_findUnique. rewrite Hp, He.
    cbn [negb]. unfold bind at 1. unfold application_count.
    fold (dailyCount_on clock (id u) db).
    destruct (Z.leb_spec (UserPreferences.autoApplyMaxPerDay preferences)
                (dailyCount_on clock (id u) db)); [discriminate | lia].
Qed.

Lemma autoApply_switched_off clock req u preferences db :
  user req = Some u ->
  find (fun p => (UserPreferences.userId p =? id u)%string)
    (userPreferences db) = Some preferences ->
  UserPreferences.autoApplyEnabled preferences = false ->
  autoApply clock req db
  = (db, inl (ApiError 400 "Auto-apply is not enabled" "AUTO_APPLY_DISABLED")).
Proof.
  intros Hu Hp He. unfold autoApply. rewrite Hu.
  unfold bind at 1. unfold userPreferences_findUnique. now rewrite Hp, He.
Qed.

(** X16: [autoApply] follows the switch [toggleAutoApply] sets: after a
    call that answers "disabled", [autoApply] of the same user is refused
    with 400 [AUTO_APPLY_DISABLED] and writes nothing; after a call that
    answers "enabled", it is not refused for that reason. *)
Theorem autoApply_follows_the_switch (clock : Clock) (req req' : Request)
    (u : User) (db : Database) (r : ToggleResponse) :
  user req = Some u -> user req' = Some u ->
  snd (toggleAutoApply req db) = inr r ->
  let db1 := fst (toggleAutoApply req db) in
  (autoApplyEnabled r = false ->
   autoApply clock req' db1
   = (db1,
      inl (ApiError 400 "Auto-apply is not enabled" "AUTO_APPLY_DISABLED")))
  /\ (autoApplyEnabled r = true ->
      snd (autoApply clock req' db1)
      <> inl (ApiError 400 "Auto-apply is not enabled"
                "AUTO_APPLY_DISABLED")).
Proof.
  intros Hu Hu' Hret db1.
  destruct (find (preferences_of (id u)) (userPreferences db))
    as [preferences|] eqn:Hp.
  - destruct (toggleAutoApply_found req u preferences db Hu Hp)
      as (rows & Hrows & Hfound & Htoggle).
    unfold db1. rewrite Htoggle in Hret |- *. cbn [fst snd] in Hret |- *.
    injection Hret as <-. cbn [autoApplyEnabled].
    split; intros He.
    + apply (autoApply_switched_off clock req' u
               (set_autoApplyEnabled
                  (negb (UserPreferences.autoApplyEnabled preferences))
                  preferences)); auto.
    + apply (autoApply_enabled clock req' u
               (set_autoApplyEnabled
                  (negb (UserPreferences.autoApplyEnabled preferences))
                  preferences)); auto.
  - exfalso. revert Hret. unfold toggleAutoApply. rewrite Hu.
    unfold bind at 1. unfold userPreferences_findUnique.
    change (fun p : UserPreferences.t =>
              (UserPreferences.userId p =? id u)%string)
      with (preferences_of (id u)).
    rewrite Hp. discriminate.
Qed.

Lemma autoApply_follows_the_switch_witness :
  autoApply morning (request_of_alice "")
    (fst (toggleAutoApply (request_of_alice "") (store true)))
  = (fst (toggleAutoApply (request_of_alice "") (store true)),
     inl (ApiError 400 "Auto-apply is not enabled" "AUTO_APPLY_DISABLED")).
Proof.
  apply (autoApply_follows_the_switch morning (request_of_alice "")
           (request_of_alice "") alice (store true)
           {| toggle_message := "Auto-apply disabled";
              autoApplyEnabled := false |});
    reflexivity.
Defined.

End AutoApplySwitch.

(* ================================================================== *)
(** * Properties of the application statistics *)

Section Statistics.
Import Prisma Express ApplicationStats Examples.
Local Open Scope Z_scope.

Lemma status_eqb_eq s t : status_eqb s t = true <-> s = t.
Proof. destruct s, t; simpl; split; intros H; congruence. Qed.

Lemma status_eqb_refl s : status_eqb s s = true.
Proof. now apply status_eqb_eq. Qed.

Lemma status_eqb_neq s t : status_eqb s t = false <-> s <> t.
Proof.
  rewrite <- status_eqb_eq. destruct (status_eqb s t); split; congruence.
Qed.

Lemma get_absent s counts : ~ In s (map fst counts) -> get s counts = None.
Proof.
  induction counts as [|[k n] rest IH]; simpl; intros H; [reflexivity|].
  destruct (status_eqb k s) eqn:E.
  - apply status_eqb_eq in E. intuition.
  - apply IH. intuition.
Qed.

(** ** Groups *)

Lemma get_count_row s t groups :
  get s (count_row t groups)
  = if status_eqb t s
    then Some (match get s groups with Some n => n + 1 | None => 1 end)
    else get s groups.
Proof.
  induction groups as [|[k n] rest IH]; simpl.
  - reflexivity.
  - destruct (status_eqb k t) eqn:Ekt; simpl.
    + apply status_eqb_eq in Ekt. subst k.
      destruct (status_eqb t s); reflexivity.
    + rewrite IH. destruct (status_eqb t s) eqn:Ets; [|reflexivity].
      apply status_eqb_eq in Ets. subst t. now rewrite Ekt.
Qed.

Lemma keys_count_row t groups :
  NoDup (map fst groups) -> NoDup (map fst (count_row t groups)).
Proof.
  induction groups as [|[k n] rest IH]; simpl; intros Hn.
  - constructor; [intros [] | constructor].
  - inversion Hn as [|? ? Hnot Hrest]; subst.
    destruct (status_eqb k t) eqn:Ekt; simpl.
    + constructor; assumption.
    + constructor; [|auto].
      intros Hin. apply Hnot. clear IH Hn Hrest Hnot.
      induction rest as [|[k' n'] rest IH]; simpl in *.
      * destruct Hin as [->|[]]. now rewrite status_eqb_refl in Ekt.
      * destruct (status_eqb k' t); simpl in *; intuition.
Qed.

Lemma groups_keys rows groups :
  NoDup (map fst groups) ->
  NoDup (map fst
           (fold_left
              (fun groups (a : Application.t) =>
                 count_row (Application.status a) groups)
              rows groups)).
Proof.
  revert groups. induction rows as [|a rows IH]; intros groups Hn;
    [exact Hn|].
  simpl. apply IH, keys_count_row, Hn.
Qed.

Lemma groups_get rows : forall groups s,
  get s
    (fold_left
       (fun groups (a : Application.t) =>
          count_row (Application.status a) groups)
       rows groups)
  = let n :=
      Z.of_nat
        (List.length
           (filter (fun a => status_eqb (Application.status a) s) rows)) in
    if n =? 0 then get s groups
    else Some (n + match get s groups with Some k => k | None => 0 end).
Proof.
  induction rows as [|a rows IH]; intros groups s; cbn zeta.
  - reflexivity.
  - cbn [fold_left filter]. rewrite IH. cbn zeta. rewrite get_count_row.
    destruct (status_eqb (Application.status a) s); cbn [List.length];
      [|reflexivity].
    generalize (List.length
                  (filter (fun a0 => status_eqb (Application.status a0) s)
                     rows)).
    intros k.
    destruct (Z.eqb_spec (Z.of_nat k) 0) as [E|E];
      destruct (Z.eqb_spec (Z.of_nat (S k)) 0) as [E'|E']; try lia;
      destruct (get s groups); f_equal; lia.
Qed.

Lemma filter_filter {A} (p q : A -> bool) (l : list A) :
  filter p (filter q l) = filter (fun x => q x && p x) l.
Proof.
  induction l as [|a l IH]; simpl; [reflexivity|].
  destruct (q a); simpl; [destruct (p a)|]; now rewrite IH.
Qed.

Lemma groupBy_get where_ db s :
  exists stats,
    application_groupBy_status where_ db = (db, inr stats)
    /\ NoDup (map fst stats)
    /\ get s stats
       = if count_status where_ s (applications db) =? 0 then None
         else Some (count_status where_ s (applications db)).
Proof.
  eexists. split; [reflexivity|]. split.
  - apply groups_keys. constructor.
  - rewrite groups_get. cbn zeta. rewrite filter_filter.
    unfold count_status. cbn [get].
    match goal with
    | |- context [?x =? 0] => destruct (Z.eqb_spec x 0)
    end; [reflexivity | f_equal; lia].
Qed.

(** ** Assignments *)

Lemma get_assign s t n counts :
  get s (assign t n counts)
  = if status_eqb t s then Some n else get s counts.
Proof.
  induction counts as [|[k m] rest IH]; simpl.
  - reflexivity.
  - destruct (status_eqb k t) eqn:Ekt; simpl.
    + apply status_eqb_eq in Ekt. subst k.
      destruct (status_eqb t s); reflexivity.
    + rewrite IH. destruct (status_eqb t s) eqn:Ets; [|reflexivity].
      apply status_eqb_eq in Ets. subst t. now rewrite Ekt.
Qed.

Lemma keys_assign t n counts :
  In t (map fst counts) -> map fst (assign t n counts) = map fst counts.
Proof.
  induction counts as [|[k m] rest IH]; simpl; intros H; [contradiction|].
  destruct (status_eqb k t) eqn:Ekt; simpl; [reflexivity|].
  f_equal. apply IH. destruct H as [->|H]; [|assumption].
  now rewrite status_eqb_refl in Ekt.
Qed.

Lemma assign_all_keys stats : forall counts,
  (forall t, In t (map fst counts)) ->
  map fst (assign_all stats counts) = map fst counts.
Proof.
  induction stats as [|[t n] rest IH]; intros counts Hall; [reflexivity|].
  unfold assign_all in *. cbn [fold_left fst snd].
  rewrite IH.
  - apply keys_assign, Hall.
  - intros t'. rewrite keys_assign by apply Hall. apply Hall.
Qed.

Lemma assign_all_get stats : forall counts s,
  NoDup (map fst stats) ->
  get s (assign_all stats counts)
  = match get s stats with
    | Some n => Some n
    | None => get s counts
    end.
Proof.
  induction stats as [|[t n] rest IH]; intros counts s Hn; [reflexivity|].
  unfold assign_all in *. cbn [fold_left fst snd].
  inversion Hn as [|? ? Hnot Hrest]; subst.
  rewrite IH by assumption. cbn [get]. rewrite get_assign.
  destruct (status_eqb t s) eqn:Ets; [|reflexivity].
  apply status_eqb_eq in Ets. subst t.
  now rewrite (get_absent s rest Hnot).
Qed.

Lemma every_status_counted t : In t (map fst no_counts).
Proof. destruct t; simpl; tauto. Qed.

(** ** Sums *)

Lemma total_by_status counts :
  map fst counts = map fst no_counts ->
  (forall s, exists n, get s counts = Some n) ->
  exists n1 n2 n3 n4 n5 n6 n7 n8,
    get PENDING counts = Some n1 /\ get APPLIED counts = Some n2
    /\ get VIEWED counts = Some n3 /\ get SHORTLISTED counts = Some n4
    /\ get INTERVIEW counts = Some n5 /\ get OFFER counts = Some n6
    /\ get REJECTED counts = Some n7 /\ get WITHDRAWN counts = Some n8
    /\ fold_left Z.add (map snd counts) 0
       = n1 + n2 + n3 + n4 + n5 + n6 + n7 + n8.
Proof.
  intros Hk _.
  do 8 (destruct counts as [|[? ?] counts]; [discriminate|]).
  destruct counts; [|discriminate].
  injection Hk as -> -> -> -> -> -> -> ->.
  do 8 eexists. simpl. repeat split; try lia.
Qed.

Lemma sum_by_status (where_ : Application.t -> bool)
    (rows : list Application.t) :
  count_status where_ PENDING rows + count_status where_ APPLIED rows
  + count_status where_ VIEWED rows + count_status where_ SHORTLISTED rows
  + count_status where_ INTERVIEW rows + count_status where_ OFFER rows
  + count_status where_ REJECTED rows + count_status where_ WITHDRAWN rows
  = Z.of_nat (List.length (filter where_ rows)).
Proof.
  unfold count_status. induction rows as [|a rows IH]; [reflexivity|].
  cbn [filter]. destruct (where_ a); cbn [andb]; [|exact IH].
  destruct (Application.status a); cbn [status_eqb List.length]; lia.
Qed.

Lemma count_status_nonneg where_ s rows : 0 <= count_status where_ s rows.
Proof. unfold count_status. lia. Qed.

(** The handler, as the two queries and the two objects it builds. *)
Lemma getApplicationStats_runs clock req u db :
  user req = Some u ->
  exists stats weeklyStats,
    getApplicationStats clock req db
    = (db,
       inr {| total :=
                fold_left Z.add (map snd (assign_all stats no_counts)) 0;
              byStatus := assign_all stats no_counts;
              thisWeek := assign_all weeklyStats [] |})
    /\ NoDup (map fst stats) /\ NoDup (map fst weeklyStats)
    /\ (forall s,
          get s stats
          = if count_status (of_user (id u)) s (applications db) =? 0
            then None
            else Some (count_status (of_user (id u)) s (applications db)))
    /\ (forall s,
          get s weeklyStats
          = if count_status (of_user_since (id u) (now clock - week)) s
                 (applications db) =? 0
            then None
            else Some (count_status
                         (of_user_since (id u) (now clock - week)) s
                         (applications db))).
Proof.
  intros Hu.
  exists (fold_left
            (fun groups (a : Application.t) =>
               count_row (Application.status a) groups)
            (filter (of_user (id u)) (applications db)) []),
    (fold_left
       (fun groups (a : Application.t) =>
          count_row (Application.status a) groups)
       (filter (of_user_since (id u) (now clock - week)) (applications db))
       []).
  split; [unfold getApplicationStats; rewrite Hu; reflexivity|].
  split; [apply groups_keys; constructor|].
  split; [apply groups_keys; constructor|].
  split; intros s.
  - destruct (groupBy_get (of_user (id u)) db s) as (stats & [= <-] & _ & H).
    exact H.
  - destruct (groupBy_get (of_user_since (id u) (now clock - week)) db s)
      as (stats & [= <-] & _ & H).
    exact H.
Qed.

(** X17: for a signed-in user, [getApplicationStats] reads the store
    without writing to it; [byStatus] has the eight statuses as its keys,
    each with the number of the user's applications in that status, and
    [total] is the number of the user's applications. *)
Theorem stats_count_by_status (clock : Clock) (req : Request) (u : User)
    (db : Database) :
  user req = Some u ->
  exists response,
    getApplicationStats clock req db = (db, inr response)
    /\ map fst (byStatus response)
       = [PENDING; APPLIED; VIEWED; SHORTLISTED; INTERVIEW; OFFER; REJECTED;
          WITHDRAWN]
    /\ (forall s,
          get s (byStatus response)
          = Some (count_status (of_user (id u)) s (applications db)))
    /\ total response
       = Z.of_nat (List.length (filter (of_user (id u)) (applications db))).
Proof.
  intros Hu.
  destruct (getApplicationStats_runs clock req u db Hu)
    as (stats & weeklyStats & -> & Hn & _ & Hget & _).
  eexists. split; [reflexivity|]. cbn [byStatus total].
  assert (Hkeys : map fst (assign_all stats no_counts) = map fst no_counts)
    by (apply assign_all_keys, every_status_counted).
  assert (Hby : forall s,
             get s (assign_all stats no_counts)
             = Some (count_status (of_user (id u)) s (applications db))).
  { intros s. rewrite assign_all_get by assumption. rewrite Hget.
    destruct (Z.eqb_spec (count_status (of_user (id u)) s (applications db))
                0) as [E|_]; [|reflexivity].
    rewrite E. destruct s; reflexivity. }
  split; [exact Hkeys|]. split; [exact Hby|].
  destruct (total_by_status _ Hkeys)
    as (n1 & n2 & n3 & n4 & n5 & n6 & n7 & n8 & H1 & H2 & H3 & H4 & H5 & H6
        & H7 & H8 & ->); [eauto|].
  rewrite Hby in H1, H2, H3, H4, H5, H6, H7, H8.
  injection H1 as <-. injection H2 as <-. injection H3 as <-.
  injection H4 as <-. injection H5 as <-. injection H6 as <-.
  injection H7 as <-. injection H8 as <-.
  apply sum_by_status.
Qed.

Lemma stats_count_by_status_witness :
  exists response,
    getApplicationStats morning (request_of_alice "") (store true)
    = (store true, inr response)
    /\ total response = 1
    /\ get APPLIED (byStatus response) = Some 1
    /\ get PENDING (byStatus response) = Some 0.
Proof.
  destruct (stats_count_by_status morning (request_of_alice "") alice
              (store true) eq_refl) as (response & H1 & _ & H2 & H3).
  exists response. split; [exact H1|]. split; [exact H3|].
  split; apply H2.
Defined.

Lemma filter_length_mono {A} (p q : A -> bool) (l : list A) :
  (forall x, p x = true -> q x = true) ->
  (List.length (filter p l) <= List.length (filter q l))%nat.
Proof.
  intros H. induction l as [|a l IH]; simpl; [lia|].
  destruct (p a) eqn:Ep.
  - rewrite (H a Ep). simpl. lia.
  - destruct (q a); simpl; lia.
Qed.

Lemma count_status_since_le userId since s rows :
  count_status (of_user_since userId since) s rows
  <= count_status (of_user userId) s rows.
Proof.
  unfold count_status. apply Nat2Z.inj_le, filter_length_mono.
  intros a. unfold of_user_since, of_user.
  destruct (Application.userId a =? userId)%string; [|discriminate].
  destruct (since <=? Application.createdAt a); [auto | discriminate].
Qed.

(** X18: [thisWeek] of [getApplicationStats] has a key for a status only
    when the user has an application in that status created within the last
    seven days, its value being the number of those applications; a status
    with none has no key, where [byStatus] gives it a 0; and no count of
    the week is above the count of the same status in [byStatus]. *)
Theorem stats_count_this_week (clock : Clock) (req : Request) (u : User)
    (db : Database) :
  user req = Some u ->
  exists response,
    getApplicationStats clock req db = (db, inr response)
    /\ forall s,
         let this_week :=
           count_status (of_user_since (id u) (now clock - week)) s
             (applications db) in
         get s (thisWeek response)
         = (if this_week =? 0 then None else Some this_week)
         /\ get s (byStatus response)
            = Some (count_status (of_user (id u)) s (applications db))
         /\ this_week <= count_status (of_user (id u)) s (applications db).
Proof.
  intros Hu.
  destruct (getApplicationStats_runs clock req u db Hu)
    as (stats & weeklyStats & -> & Hn & Hnw & Hget & Hgetw).
  eexists. split; [reflexivity|]. cbn [byStatus thisWeek].
  intros s. cbv zeta. split; [|split].
  - rewrite assign_all_get by assumption. rewrite Hgetw.
    destruct (_ =? 0); reflexivity.
  - rewrite assign_all_get by assumption. rewrite Hget.
    destruct (Z.eqb_spec (count_status (of_user (id u)) s (applications db))
                0) as [E|_]; [|reflexivity].
    rewrite E. destruct s; reflexivity.
  - apply count_status_since_le.
Qed.

Lemma stats_count_this_week_witness :
  exists response,
    getApplicationStats morning (request_of_alice "") (store true)
    = (store true, inr response)
    /\ get APPLIED (thisWeek response) = Some 1
    /\ get PENDING (thisWeek response) = None.
Proof.
  destruct (stats_count_this_week morning (request_of_alice "") alice
              (store true) eq_refl) as (response & H1 & H2).
  exists response. split; [exact H1|]. split; apply H2.
Defined.

End Statistics.

(* ================================================================== *)
(** * Properties of the error responses *)

Section ErrorResponses.
Import Prisma Express ErrorMiddleware Examples.

(** X19: the response of [errorHandler] always has [success: false]; it
    carries the stack trace of the error only when [NODE_ENV] is
    "development"; its status is the one of the error for an [ApiError],
    with the message and the code of the error, and one of 400, 404, 409
    and 500 for any other error; the message of a plain [Error] is sent as
    it is, with status 500 and no code. *)
Theorem errorHandler_response (NODE_ENV : option string) (err : Thrown) :
  success (snd (errorHandler NODE_ENV err)) = false
  /\ (NODE_ENV <> Some "development"%string ->
      response_stack (snd (errorHandler NODE_ENV err)) = None)
  /\ (response_stack (snd (errorHandler NODE_ENV err)) = None
      \/ response_stack (snd (errorHandler NODE_ENV err)) = stack err)
  /\ (forall statusCode message code,
        class err = IsApiError statusCode message code ->
        fst (errorHandler NODE_ENV err) = statusCode
        /\ response_message (snd (errorHandler NODE_ENV err)) = message
        /\ response_code (snd (errorHandler NODE_ENV err)) = code)
  /\ (forall message,
        class err = IsError message ->
        fst (errorHandler NODE_ENV err) = 500%Z
        /\ response_message (snd (errorHandler NODE_ENV err)) = message
        /\ response_code (snd (errorHandler NODE_ENV err)) = None)
  /\ ((exists statusCode message code,
          class err = IsApiError statusCode message code)
      \/ In (fst (errorHandler NODE_ENV err)) [400; 404; 409; 500]%Z).
Proof.
  unfold errorHandler.
  destruct (class err) as [issues|c| |statusCode message code|message] eqn:Ec.
  - cbn. repeat split; try discriminate.
    + intros Hn. destruct NODE_ENV as [env|]; [|reflexivity].
      destruct (String.eqb_spec env "development") as [->|];
        [now elim Hn | reflexivity].
    + destruct NODE_ENV as [env|]; [|now left].
      destruct (_ && _); [now right | now left].
    + right. simpl. tauto.
  - destruct (c =? "P2002")%string; [|destruct (c =? "P2025")%string;
      [|destruct (c =? "P2003")%string]];
      cbn; (repeat split; try discriminate;
            [ intros Hn; destruct NODE_ENV as [env|]; [|reflexivity];
              destruct (String.eqb_spec env "development") as [->|];
              [now elim Hn | reflexivity]
            | destruct NODE_ENV as [env|]; [|now left];
              destruct (_ && _); [now right | now left]
            | right; simpl; tauto ]).
  - cbn. repeat split; try discriminate.
    + intros Hn. destruct NODE_ENV as [env|]; [|reflexivity].
      destruct (String.eqb_spec env "development") as [->|];
        [now elim Hn | reflexivity].
    + destruct NODE_ENV as [env|]; [|now left].
      destruct (_ && _); [now right | now left].
    + right. simpl. tauto.
  - cbn. repeat split; try discriminate; try congruence.
    + intros Hn. destruct NODE_ENV as [env|]; [|reflexivity].
      destruct (String.eqb_spec env "development") as [->|];
        [now elim Hn | reflexivity].
    + destruct NODE_ENV as [env|]; [|now left].
      destruct (_ && _); [now right | now left].
    + left. eauto.
  - cbn. repeat split; try discriminate; try congruence.
    + intros Hn. destruct NODE_ENV as [env|]; [|reflexivity].
      destruct (String.eqb_spec env "development") as [->|];
        [now elim Hn | reflexivity].
    + destruct NODE_ENV as [env|]; [|now left].
      destruct (_ && _); [now right | now left].
    + right. simpl. tauto.
Qed.

(** ** The answers of the routes *)

Lemma route_ApiError {A} NODE_ENV stack_of (handler : Handler A) db db'
    statusCode message code :
  handler db = (db', inl (ApiError statusCode message code)) ->
  fst (route NODE_ENV stack_of handler db) = db'
  /\ refused (snd (route NODE_ENV stack_of handler db)) statusCode message
       code.
Proof.
  intros H. unfold route. rewrite H. cbn.
  split; [reflexivity|]. eexists. repeat split.
Qed.

Lemma route_returns {A} NODE_ENV stack_of (handler : Handler A) db db' a :
  handler db = (db', inr a) ->
  route NODE_ENV stack_of handler db = (db', (200%Z, inr a)).
Proof. intros H. unfold route. now rewrite H. Qed.

(** X20: the routes of [toggleFavorite] and [hideJob] answer a request
    without a user with 401 [UNAUTHORIZED] and a request for a job that
    does not exist with 404 [NOT_FOUND], writing nothing in either case;
    any other request is answered with 200. *)
Theorem favorite_and_hide_answers (NODE_ENV : option string)
    (stack_of : error -> option string) (clock : Clock) (req : Request)
    (db : Database) :
  let favorite :=
    route NODE_ENV stack_of (JobController.toggleFavorite clock req) db in
  let hide := route NODE_ENV stack_of (JobController.hideJob clock req) db in
  match user req,
        find (fun j => (Job.id j =? params_id req)%string) (jobs db) with
  | None, _ =>
      fst favorite = db /\ fst hide = db
      /\ refused (snd favorite) 401 "Authentication required" "UNAUTHORIZED"
      /\ refused (snd hide) 401 "Authentication required" "UNAUTHORIZED"
  | Some _, None =>
      fst favorite = db /\ fst hide = db
      /\ refused (snd favorite) 404 "Job not found" "NOT_FOUND"
      /\ refused (snd hide) 404 "Job not found" "NOT_FOUND"
  | Some _, Some _ =>
      (exists response, snd favorite = (200%Z, inr response))
      /\ snd hide = (200%Z, inr "Job hidden successfully"%string)
  end.
Proof.
  intros favorite hide. unfold favorite, hide.
  destruct (user req) as [u|] eqn:Hu.
  - destruct (find _ (jobs db)) as [job|] eqn:Hj.
    + split.
      * destruct (find (cache_key (id u) (params_id req)) (jobMatchCache db))
          as [existing|] eqn:He.
        -- destruct (toggleFavorite_existing req u job db Hu Hj clock
                       existing He) as (rows & _ & H).
           rewrite (route_returns _ _ _ _ _ _ H). cbn [snd]. eauto.
        -- rewrite (route_returns _ _ _ _ _ _
                      (toggleFavorite_fresh req u job db Hu Hj clock He)).
           cbn [snd]. eauto.
      * destruct (find (cache_key (id u) (params_id req)) (jobMatchCache db))
          as [existing|] eqn:He.
        -- destruct (hideJob_existing req u job db Hu Hj clock existing He)
             as (rows & _ & H).
           now rewrite (route_returns _ _ _ _ _ _ H).
        -- now rewrite (route_returns _ _ _ _ _ _
                          (hideJob_fresh req u job db Hu Hj clock He)).
    + destruct (route_ApiError NODE_ENV stack_of _ _ _ _ _ _
                  (toggleFavorite_unknown_job clock req u db Hu Hj))
        as [F1 F2].
      destruct (route_ApiError NODE_ENV stack_of _ _ _ _ _ _
                  (hideJob_unknown_job clock req u db Hu Hj)) as [H1 H2].
      auto.
  - destruct (route_ApiError NODE_ENV stack_of _ _ _ _ _ _
                (toggleFavorite_unauthenticated clock req db Hu)) as [F1 F2].
    destruct (route_ApiError NODE_ENV stack_of _ _ _ _ _ _
                (hideJob_unauthenticated clock req db Hu)) as [H1 H2].
    auto.
Qed.





End ErrorResponses.
